(** * MindMate: emotion inference, multimodal fusion, friend matching and
      session wellness scoring

    A shallow embedding of the scoring core of the MindMate backend
    ([backend/src/services/emotionAnalysis.js], [friendMatching.js],
    [localDatabase.js], [sessionCompletion.js]) together with the properties
    its specification states about it.

    Conventions of the embedding:
    - A JavaScript number is the rational ([Q]) that the double is.
      [fuseEmotionResults] and [calculateWellnessScore] round a chain of
      products and sums to two decimals or to an integer, where the last bit
      of a double can decide the result: they are modelled operation by
      operation in binary64, each arithmetic result being rounded to the
      nearest double by [JsNum.binary64], and a literal such as [0.8] being
      [JsNum.binary64 (8 # 10)].  The other functions are modelled in exact
      arithmetic; what is stated about them are choices and bounds that do
      not depend on the last bit.  Overflow to [Infinity] and [NaN] are
      outside the model.
    - [parseFloat(x.toFixed(d))] is the decimal rounding [toFixed x d] of the
      value [x], returned in lowest terms: a number written with [d]
      decimals is identified with that decimal.
    - JavaScript strings are [string]s of 8-bit characters; case mapping,
      [trim] and the regular-expression class [\w] are the ASCII ones.
    - Objects used as tables indexed by an emotion label ([emotionScores],
      [emotionCounts], [emotionVectors], ...) are modelled for labels that
      are ordinary keys ([plainLabel]): not the name of a member of
      [Object.prototype] and not starting with a digit.
    - Third-party libraries ([natural], [sentiment], [ml-distance]) and the
      remote inference providers are not part of the repository; their
      results enter the model as Section variables. *)

From Stdlib Require Import ZArith QArith Qround Qabs Qminmax Lia Lqa.
From Stdlib Require Import List String Ascii Bool Permutation Sorted.
Import ListNotations.

Set Warnings "-register-all".

Local Open Scope Q_scope.

(** ** JavaScript numeric primitives *)

Module JsNum.

Definition Qlt_bool (x y : Q) : bool := negb (Qle_bool y x).

(** [Math.round]: the nearest integer, ties towards plus infinity. *)
Definition mathRound (x : Q) : Z := Qfloor (x + (1 # 2)).

(** Nearest multiple of [1/scale] to a non-negative [x], ties upwards. *)
Definition roundAt (scale : positive) (x : Q) : Q :=
  Qred (Qfloor (x * (Zpos scale # 1) + (1 # 2)) # scale).

(** [parseFloat(x.toFixed(digits))].  [Number.prototype.toFixed] rounds the
    magnitude (ties to the larger magnitude) and re-attaches the sign. *)
Definition toFixed (x : Q) (digits : nat) : Q :=
  let scale := Nat.iter digits (Pos.mul 10) 1%positive in
  if Qle_bool 0 x then roundAt scale x else Qred (- roundAt scale (- x)).

(** [2^k] for an integer [k]. *)
Definition pow2 (k : Z) : Q :=
  if (0 <=? k)%Z then inject_Z (2 ^ k) else 1 # Z.to_pos (2 ^ (- k)).

(** The exponent [e] of a positive [a]: [2^e <= a < 2^(e+1)]. *)
Definition exponentOf (a : Q) : Z :=
  let e := (Z.log2 (Qnum a) - Z.log2 (Zpos (Qden a)))%Z in
  if Qle_bool (pow2 e) a then e else (e - 1)%Z.

(** The nearest integer, ties to the even one. *)
Definition roundHalfEven (y : Q) : Z :=
  let f := Qfloor y in
  match Qcompare (y - inject_Z f) (1 # 2) with
  | Lt => f
  | Gt => (f + 1)%Z
  | Eq => if Z.even f then f else (f + 1)%Z
  end.

(** The unit roundoff of binary64, [2^-53]. *)
Definition unitRoundoff : Q := 1 # 9007199254740992.

(** The double nearest to the exact result [x] of an arithmetic operation
    (round to nearest, ties to even).  Between [2^e] and [2^(e+1)] doubles
    are [2^e / 2^52] apart, and below [2^-1022] they keep the spacing of that
    binade.  Results beyond the largest double are not modelled. *)
Definition binary64 (x : Q) : Q :=
  if Qeq_bool x 0 then 0
  else
    let a := Qabs x in
    let ulp := pow2 (Z.max (exponentOf a) (-1022)) * (1 # 4503599627370496) in
    let r := Qred (inject_Z (roundHalfEven (a / ulp)) * ulp) in
    if Qle_bool 0 x then r else - r.

(** [a / b] for a non-negative numerator count: [+Infinity] is [None]. *)
Definition divCount (a b : nat) : option Q :=
  match b with
  | O => None
  | S _ => Some (Z.of_nat a # Pos.of_nat b)
  end.

End JsNum.

(** ** JavaScript strings and the regular expressions the code uses *)

Module JsString.

Definition chars (s : string) : list ascii := list_ascii_of_string s.

Definition between (lo hi : nat) (c : ascii) : bool :=
  let n := nat_of_ascii c in (lo <=? n)%nat && (n <=? hi)%nat.

Definition lowerChar (c : ascii) : ascii :=
  if between 65 90 c then ascii_of_nat (nat_of_ascii c + 32) else c.

Definition upperChar (c : ascii) : ascii :=
  if between 97 122 c then ascii_of_nat (nat_of_ascii c - 32) else c.

(** [s.toLowerCase()], for the letters of ASCII; other characters are left
    as they are. *)
Definition toLowerCase (s : string) : string :=
  string_of_list_ascii (map lowerChar (chars s)).

(** White space removed by [trim], as far as ASCII has it: TAB, LF, VT, FF,
    CR and SPACE. *)
Definition isSpace (c : ascii) : bool :=
  between 9 13 c || (nat_of_ascii c =? 32)%nat.

Fixpoint dropSpaces (l : list ascii) : list ascii :=
  match l with
  | c :: rest => if isSpace c then dropSpaces rest else l
  | [] => []
  end.

(** [s.trim()] *)
Definition trim (s : string) : string :=
  string_of_list_ascii (rev (dropSpaces (rev (dropSpaces (chars s))))).

(** The class [\w]. *)
Definition isWordChar (c : ascii) : bool :=
  between 48 57 c || between 65 90 c || (nat_of_ascii c =? 95)%nat
  || between 97 122 c.

Definition isWordAt (c : option ascii) : bool :=
  match c with Some c => isWordChar c | None => false end.

(** The assertion [\b] between the character before the current position
    ([None] at the start of the input) and the one at it ([None] at the
    end). *)
Definition wordBoundary (before after : option ascii) : bool :=
  xorb (isWordAt before) (isWordAt after).

(** Character comparison under the [i] flag. *)
Definition sameCharI (a b : ascii) : bool :=
  Ascii.eqb (upperChar a) (upperChar b).

(** Match the literal [lit] at the head of [s]; on success the last
    character consumed (or [before] when [lit] is empty) and the rest. *)
Fixpoint matchLiteral (lit : list ascii) (before : option ascii)
  (s : list ascii) : option (option ascii * list ascii) :=
  match lit with
  | [] => Some (before, s)
  | k :: lit' =>
      match s with
      | c :: s' => if sameCharI k c then matchLiteral lit' (Some c) s' else None
      | [] => None
      end
  end.

(** [(w1|w2|...)\b] at the head of [s]: alternatives are tried in order and
    the first whose end is a word boundary wins; its length is returned. *)
Fixpoint matchWordAlternatives (words : list string) (before : option ascii)
  (s : list ascii) : option nat :=
  match words with
  | [] => None
  | w :: rest =>
      match matchLiteral (chars w) before s with
      | Some (last, after) =>
          if wordBoundary last (hd_error after) then Some (String.length w)
          else matchWordAlternatives rest before s
      | None => matchWordAlternatives rest before s
      end
  end.

(** Number of matches of [/\b(w1|w2|...)\b/gi]: the scan restarts after each
    match ([skip] counts the characters of the current match still to be
    passed) and one character further where there is none. *)
Fixpoint countWordMatchesFrom (words : list string) (before : option ascii)
  (skip : nat) (s : list ascii) : nat :=
  match s with
  | [] => 0
  | c :: rest =>
      match skip with
      | S k => countWordMatchesFrom words (Some c) k rest
      | O =>
          if wordBoundary before (Some c) then
            match matchWordAlternatives words before s with
            | Some len => S (countWordMatchesFrom words (Some c) (pred len) rest)
            | None => countWordMatchesFrom words (Some c) 0 rest
            end
          else countWordMatchesFrom words (Some c) 0 rest
      end
  end.

(** [(s.match(/\b(w1|w2|...)\b/gi) || []).length] *)
Definition countWordMatches (words : list string) (s : string) : nat :=
  countWordMatchesFrom words None 0 (chars s).

(** [/\b(p1|p2|...)\w*/gi.test(s)] on a fresh regular expression: some
    position at a word boundary starts with one of the prefixes (the
    trailing [\w*] always succeeds). *)
Fixpoint testWordPrefixFrom (prefixes : list string) (before : option ascii)
  (s : list ascii) : bool :=
  (wordBoundary before (hd_error s)
   && existsb (fun p => match matchLiteral (chars p) before s with
                        | Some _ => true
                        | None => false
                        end) prefixes)
  || match s with
     | [] => false
     | c :: rest => testWordPrefixFrom prefixes (Some c) rest
     end.

Definition testWordPrefix (prefixes : list string) (s : string) : bool :=
  testWordPrefixFrom prefixes None (chars s).

End JsString.

(** ** JSON values, as produced by [JSON.parse] *)

Inductive json : Type :=
| JNull
| JBool (b : bool)
| JNum (q : Q)
| JStr (s : string)
| JArr (items : list json)
| JObj (fields : list (string * json)).

(** A JavaScript value read from a parsed reply: [None] is [undefined]. *)
Definition jsval := option json.

(** [a === b].  Arrays and objects are compared by identity; two values that
    come from different results are different objects. *)
Definition strictEquals (a b : jsval) : bool :=
  match a, b with
  | None, None => true
  | Some JNull, Some JNull => true
  | Some (JBool x), Some (JBool y) => Bool.eqb x y
  | Some (JNum x), Some (JNum y) => Qeq_bool x y
  | Some (JStr x), Some (JStr y) => String.eqb x y
  | _, _ => false
  end.

(** Own property lookup on a parsed object; a repeated key keeps its last
    value, as [JSON.parse] does. *)
Fixpoint lookupField (key : string) (fields : list (string * json)) : jsval :=
  match fields with
  | [] => None
  | (k, v) :: rest =>
      match lookupField key rest with
      | Some later => Some later
      | None => if String.eqb k key then Some v else None
      end
  end.

(** [j.key] for a parsed value that is not [null]: primitives and arrays have
    no such property. *)
Definition getProp (j : json) (key : string) : jsval :=
  match j with
  | JObj fields => lookupField key fields
  | _ => None
  end.

(** What a call returns to its caller: a value, or a thrown [Error] (for an
    [async] function, a rejected promise) with its message. *)
Inductive outcome (A : Type) : Type :=
| Returned (a : A)
| Threw (message : string).
Arguments Returned {A} a.
Arguments Threw {A} message.

(** Property names every object inherits from [Object.prototype].  Tables
    indexed by an emotion label ([emotionScores], [emotionVectors],
    [emotionCounts]) are modelled for labels outside this list. *)
Definition objectPrototypeKeys : list string :=
  [ "constructor"; "toString"; "toLocaleString"; "valueOf"; "hasOwnProperty";
    "isPrototypeOf"; "propertyIsEnumerable"; "__proto__"; "__defineGetter__";
    "__defineSetter__"; "__lookupGetter__"; "__lookupSetter__" ]%string.

(** Canonical array-index strings are enumerated first by [Object.keys]; a
    label that starts with a digit is kept out of the modelled domain. *)
Definition startsWithDigit (s : string) : bool :=
  match s with
  | String c _ => JsString.between 48 57 c
  | EmptyString => false
  end.

Definition plainLabel (s : string) : bool :=
  negb (existsb (String.eqb s) objectPrototypeKeys) && negb (startsWithDigit s).

(** The property key of an optional label: [undefined] becomes "undefined". *)
Definition keyOf (label : option string) : string :=
  match label with
  | Some s => s
  | None => "undefined"%string
  end.

(** [new Set(items)] as the list of its members in insertion order. *)
Fixpoint setOf (items : list string) : list string :=
  match items with
  | [] => []
  | x :: rest => x :: filter (fun y => negb (String.eqb x y)) (setOf rest)
  end.

Definition has (set : list string) (x : string) : bool :=
  existsb (String.eqb x) set.

(** [intersection.size / union.size] of the sets of two lists. *)
Definition intersectionSize (items1 items2 : list string) : nat :=
  List.length (setOf (filter (has (setOf items2)) (setOf items1))).

Definition unionSize (items1 items2 : list string) : nat :=
  List.length (setOf (setOf items1 ++ setOf items2)).

Definition ratio (a b : nat) : Q := Z.of_nat a # Pos.of_nat b.

(** A user row, as far as the scorers read it.  [None] is a missing field. *)
Record User : Type := mkUser {
  city : option string;
  age : option Z;
  interests : option (list string)
}.

(** ** emotionAnalysis.js *)

Module EmotionAnalysis.

Inductive method : Type :=
| ai_powered
| keyword_sentiment_hybrid
| multimodal_fusion
| mock_audio_classifier.

Record EmotionResult : Type := mkResult {
  emotion : jsval;
  intensity : Q;
  confidence : Q;
  analysis_method : method
}.

(** The argument of [analyzeText], by the cases of [typeof] and of
    truthiness the function distinguishes. *)
Inductive input : Type :=
| InUndefined
| InNull
| InBoolean (b : bool)
| InNumber (q : Q)
| InString (s : string)
| InObject.

Inductive provider : Type := Gemini | OpenAI | Anthropic.

(** [process.env]: whether each key is set to a non-empty string. *)
Record Env : Type := mkEnv {
  GEMINI_API_KEY : bool;
  OPENAI_API_KEY : bool;
  ANTHROPIC_API_KEY : bool
}.

(** How a provider call ends: an exception out of [callGemini],
    [callOpenAI] or [callAnthropic], or the value of [JSON.parse]. *)
Inductive failure : Type :=
| NetworkError
| Timeout
| HttpNotOk
| UnexpectedBody
| MalformedJSON.

Inductive reply : Type :=
| Failed (why : failure)
| Parsed (j : json).

(** *** The keyword tables of [analyzeTextWithKeywords] *)

Local Open Scope string_scope.

Definition emotionKeywords : list (string * list string) :=
  [ ("happy",
     ["happy"; "joy"; "excited"; "amazing"; "wonderful"; "great"; "fantastic";
      "love"; "perfect"; "awesome"; "brilliant"; "cheerful"; "delighted";
      "thrilled"; "ecstatic"; "blissful"; "content"; "satisfied"; "pleased"]);
    ("sad",
     ["sad"; "depressed"; "down"; "upset"; "terrible"; "awful"; "horrible";
      "disappointed"; "heartbroken"; "miserable"; "gloomy"; "melancholy";
      "sorrowful"; "dejected"; "despondent"; "grief"; "mourning"; "crying";
      "unhappy"; "unfortunate"; "regret"; "lonely"; "alone"; "isolated";
      "hurt"; "pain"; "suffering"; "blue"; "low"; "hopeless"; "discouraged"]);
    ("angry",
     ["angry"; "mad"; "furious"; "irritated"; "annoyed"; "frustrated";
      "outraged"; "livid"; "enraged"; "hostile"; "aggressive"; "bitter";
      "resentful"; "indignant"; "irate"; "rage"; "wrath"; "hatred"]);
    ("anxious",
     ["anxious"; "worried"; "nervous"; "stressed"; "overwhelmed"; "panic";
      "scared"; "afraid"; "fearful"; "concerned"; "troubled"; "uneasy";
      "restless"; "tense"; "apprehensive"; "paranoid"; "insecure"; "dread"]);
    ("calm",
     ["calm"; "peaceful"; "relaxed"; "serene"; "tranquil"; "composed";
      "zen"; "balanced"; "centered"; "still"; "quiet"; "soothed";
      "restful"; "gentle"; "mild"; "placid"; "undisturbed"; "harmonious"]);
    ("neutral",
     ["okay"; "fine"; "normal"; "regular"; "average"; "ordinary";
      "usual"; "standard"; "typical"; "moderate"; "balanced"; "stable"]) ].

Definition negativeWordPrefixes : list string :=
  ["un"; "not"; "never"; "no"; "dis"; "hate"; "terrible"; "awful"; "bad";
   "worse"; "worst"; "unfortunately"; "sadly"].

(** [!!(GEMINI_API_KEY || OPENAI_API_KEY || ANTHROPIC_API_KEY)], read by the
    constructor. *)
Definition useAI (env : Env) : bool :=
  GEMINI_API_KEY env || OPENAI_API_KEY env || ANTHROPIC_API_KEY env.

(** The provider [analyzeTextWithAI] calls; [None] is the branch that
    throws "No AI API key configured". *)
Definition selectProvider (env : Env) : option provider :=
  if GEMINI_API_KEY env then Some Gemini
  else if OPENAI_API_KEY env then Some OpenAI
  else if ANTHROPIC_API_KEY env then Some Anthropic
  else None.

(** Whether converting a parsed value to a string throws: an object whose
    own [toString] is a (never callable) JSON value cannot be converted,
    and [Array.prototype.join] converts each element. *)
Fixpoint toStringThrows (j : json) : bool :=
  match j with
  | JObj fields => existsb (fun kv => String.eqb (fst kv) "toString") fields
  | JArr items => existsb toStringThrows items
  | _ => false
  end.

Definition interpolationThrows (v : jsval) : bool :=
  match v with
  | Some j => toStringThrows j
  | None => false
  end.

(** [v.toFixed(2)] exists only on numbers; anything else is a [TypeError]. *)
Definition asNumber (v : jsval) : option Q :=
  match v with
  | Some (JNum q) => Some q
  | _ => None
  end.

Section Classifier.

(** [natural]'s [WordTokenizer.tokenize]. *)
Variable tokenize : string -> list string.
(** The [score] field of [sentiment]'s [analyze]. *)
Variable sentimentScore : string -> Q.
(** The outcome of the request a provider call makes for a transcript. *)
Variable callProvider : provider -> string -> reply.

Definition cleanTextOf (text : string) : string :=
  JsString.trim (JsString.toLowerCase text).

(** [emotionScores], in the key order of [emotionKeywords]. *)
Definition emotionScoresOf (text : string) : list (string * nat) :=
  map (fun entry =>
         (fst entry, JsString.countWordMatches (snd entry) (cleanTextOf text)))
      emotionKeywords.

Definition totalMatchesOf (text : string) : nat :=
  fold_left (fun total entry => (total + snd entry)%nat)
            (emotionScoresOf text) O.

(** The [forEach] over [Object.entries(emotionScores)], started from
    [primaryEmotion = 'neutral'] and [maxScore = 0]. *)
Definition pickPrimary (scores : list (string * nat)) : string * nat :=
  fold_left (fun best entry =>
               if (snd best <? snd entry)%nat then entry else best)
            scores ("neutral", O).

Definition hasNegativeWords (text : string) : bool :=
  JsString.testWordPrefix negativeWordPrefixes (cleanTextOf text).

(** [primaryEmotion] and [intensity] before rounding. *)
Definition primaryOf (text : string) : string * Q :=
  let score := sentimentScore text in
  if (0 <? totalMatchesOf text)%nat then
    let best := pickPrimary (emotionScoresOf text) in
    (fst best,
     match JsNum.divCount (snd best) (List.length (tokenize (cleanTextOf text))) with
     | Some ratio => Qmin (ratio * 10 + Qabs (score / 10)) 1
     | None => 1
     end)
  else if hasNegativeWords text || JsNum.Qlt_bool score (-1)
  then ("sad", Qmin (Qabs score / 8) (8 # 10))
  else if JsNum.Qlt_bool 3 score
  then ("happy", Qmin (score / 10) (9 # 10))
  else ("neutral", 1 # 2).

Definition rawConfidenceOf (text : string) : Q :=
  if (0 <? totalMatchesOf text)%nat
  then Qmin ((7 # 10)
             + inject_Z (Z.of_nat (snd (pickPrimary (emotionScoresOf text))))
               * (1 # 10))
            (9 # 10)
  else Qmin ((4 # 10) + Qabs (sentimentScore text) * (5 # 100)) (7 # 10).

Definition analyzeTextWithKeywords (text : string) : EmotionResult :=
  {| emotion := Some (JStr (fst (primaryOf text)));
     intensity := JsNum.toFixed (snd (primaryOf text)) 2;
     confidence := JsNum.toFixed (rawConfidenceOf text) 2;
     analysis_method := keyword_sentiment_hybrid |}.

(** The [try] block of [analyzeTextWithAI]; [None] stands for any
    exception inside it, which the [catch] turns into the keyword
    analysis. *)
Definition tryAI (env : Env) (text : string) : option EmotionResult :=
  match selectProvider env with
  | None => None
  | Some p =>
      match callProvider p text with
      | Failed _ => None
      | Parsed JNull => None
      | Parsed result =>
          if interpolationThrows (getProp result "emotion")
             || interpolationThrows (getProp result "intensity")
          then None
          else
            match asNumber (getProp result "intensity"),
                  asNumber (getProp result "confidence") with
            | Some i, Some c =>
                Some {| emotion := getProp result "emotion";
                        intensity := JsNum.toFixed i 2;
                        confidence := JsNum.toFixed c 2;
                        analysis_method := ai_powered |}
            | _, _ => None
            end
      end
  end.

Definition analyzeTextWithAI (env : Env) (text : string) : EmotionResult :=
  match tryAI env text with
  | Some result => result
  | None => analyzeTextWithKeywords text
  end.

(** [analyzeText] of a service constructed under [startEnv] and called
    under [env]. *)
Definition analyzeText (startEnv env : Env) (text : input)
  : outcome EmotionResult :=
  match text with
  | InString s =>
      if String.eqb s "" then
        Threw "Text emotion analysis failed: Invalid text input for emotion analysis"
      else if useAI startEnv then Returned (analyzeTextWithAI env s)
      else Returned (analyzeTextWithKeywords s)
  | _ =>
      Threw "Text emotion analysis failed: Invalid text input for emotion analysis"
  end.

End Classifier.

(** *** fuseEmotionResults *)

(** The literals [0.8] and [0.2] are the doubles nearest to them; products
    and sums are rounded one operation at a time. *)
Definition textWeight : Q := JsNum.binary64 (8 # 10).
Definition audioWeight : Q := JsNum.binary64 (2 # 10).

Definition emotionsMatch (textResult audioResult : EmotionResult) : bool :=
  strictEquals (emotion textResult) (emotion audioResult).

(** [(x * textWeight) + (y * audioWeight)] *)
Definition weighted (x y : Q) : Q :=
  JsNum.binary64 (JsNum.binary64 (x * textWeight) + JsNum.binary64 (y * audioWeight)).

Definition finalIntensity (textResult audioResult : EmotionResult) : Q :=
  weighted (intensity textResult) (intensity audioResult).

Definition weightedConfidence (textResult audioResult : EmotionResult) : Q :=
  weighted (confidence textResult) (confidence audioResult).

Definition finalConfidence (textResult audioResult : EmotionResult) : Q :=
  let c := weightedConfidence textResult audioResult in
  if emotionsMatch textResult audioResult
  then Qmin (JsNum.binary64 (c * JsNum.binary64 (12 # 10))) (JsNum.binary64 (95 # 100))
  else JsNum.binary64 (c * JsNum.binary64 (8 # 10)).

Definition finalEmotion (textResult audioResult : EmotionResult) : jsval :=
  if emotionsMatch textResult audioResult then emotion textResult
  else if JsNum.Qlt_bool (confidence textResult) (confidence audioResult)
       then emotion audioResult
       else emotion textResult.

(** The object [fuseEmotionResults] returns.  The log line before the
    [return] converts the chosen emotion to a string; the arguments are
    results of [analyzeText] and [analyzeAudio], whose emotion does convert
    ([tryAI] rejects a reply whose emotion does not), so it cannot throw. *)
Definition fuseEmotionResults (textResult audioResult : EmotionResult)
  : EmotionResult :=
  {| emotion := finalEmotion textResult audioResult;
     intensity := JsNum.toFixed (finalIntensity textResult audioResult) 2;
     confidence := JsNum.toFixed (finalConfidence textResult audioResult) 2;
     analysis_method := multimodal_fusion |}.

End EmotionAnalysis.

(** ** friendMatching.js *)

Module FriendMatching.

Local Open Scope string_scope.

(** A journal entry, as far as the matcher reads it. *)
Record Entry : Type := mkEntry {
  emotion : option string
}.

Record Breakdown : Type := mkBreakdown {
  location : Q;
  mood : Q;
  interestsScore : Q;
  ageScore : Q;
  activity : Q
}.

Record MatchScore : Type := mkScore {
  total : Q;
  breakdown : Breakdown
}.

Definition emotionVectors : list (string * list Q) :=
  [ ("happy",   [1; 8 # 10; 2 # 10; 1 # 10; 3 # 10; 5 # 10]);
    ("sad",     [1 # 10; 2 # 10; 1; 3 # 10; 1 # 10; 4 # 10]);
    ("angry",   [2 # 10; 1 # 10; 4 # 10; 1; 2 # 10; 3 # 10]);
    ("anxious", [3 # 10; 2 # 10; 6 # 10; 7 # 10; 1; 4 # 10]);
    ("calm",    [6 # 10; 9 # 10; 1 # 10; 1 # 10; 2 # 10; 1]);
    ("neutral", [5 # 10; 5 # 10; 5 # 10; 5 # 10; 5 # 10; 5 # 10]) ].

Definition neutralVector : list Q :=
  [5 # 10; 5 # 10; 5 # 10; 5 # 10; 5 # 10; 5 # 10].

Fixpoint lookupVector (label : string) (table : list (string * list Q))
  : option (list Q) :=
  match table with
  | [] => None
  | (k, v) :: rest => if String.eqb k label then Some v else lookupVector label rest
  end.

(** [this.emotionVectors[entry.emotion || 'neutral'] || this.emotionVectors.neutral] *)
Definition vectorOf (entry : Entry) : list Q :=
  let label := match emotion entry with
               | Some "" | None => "neutral"
               | Some s => s
               end in
  match lookupVector label emotionVectors with
  | Some v => v
  | None => neutralVector
  end.

(** [entries.slice(-3)] *)
Definition lastThree (entries : list Entry) : list Entry :=
  skipn (List.length entries - 3) entries.

Definition getMoodVector (entries : list Entry) : list Q :=
  match entries with
  | [] => [0; 0; 0; 0; 0; 0]
  | _ =>
      let vectors := map vectorOf entries in
      map (fun i =>
             fold_left (fun acc vector => acc + nth i vector 0) vectors 0
             / inject_Z (Z.of_nat (List.length vectors)))
          (seq 0 6)
  end.

(** [str.substring(i, i + 2)] for [i] from [0] to [str.length - 2]. *)
Fixpoint bigramsOf (l : list ascii) : list string :=
  match l with
  | a :: ((b :: _) as rest) => String a (String b EmptyString) :: bigramsOf rest
  | _ => []
  end.

Definition getBigrams (str : string) : list string :=
  bigramsOf (JsString.chars str).

Definition calculateStringSimilarity (str1 str2 : string) : Q :=
  if String.eqb str1 str2 then 1
  else if String.eqb str1 "" || String.eqb str2 "" then 0
  else
    let bigrams1 := getBigrams str1 in
    let bigrams2 := getBigrams str2 in
    let size := unionSize bigrams1 bigrams2 in
    if (size =? 0)%nat then 0
    else ratio (intersectionSize bigrams1 bigrams2) size.

Definition present (field : option string) : option string :=
  match field with
  | Some "" | None => None
  | Some s => Some s
  end.

Definition calculateLocationMatch (user1 user2 : User) : Q :=
  match present (city user1), present (city user2) with
  | Some c1, Some c2 =>
      let city1 := JsString.trim (JsString.toLowerCase c1) in
      let city2 := JsString.trim (JsString.toLowerCase c2) in
      if String.eqb city1 city2 then 1
      else
        let similarity := calculateStringSimilarity city1 city2 in
        if JsNum.Qlt_bool (8 # 10) similarity then 8 # 10
        else if JsNum.Qlt_bool (6 # 10) similarity then 5 # 10
        else 1 # 10
  | _, _ => 1 # 10
  end.

Definition calculateInterestOverlap (interests1 interests2 : list string) : Q :=
  match interests1, interests2 with
  | [], _ | _, [] => 1 # 10
  | _, _ =>
      let lower1 := map JsString.toLowerCase interests1 in
      let lower2 := map JsString.toLowerCase interests2 in
      ratio (intersectionSize lower1 lower2) (unionSize lower1 lower2)
  end.

Definition truthyAge (a : option Z) : option Z :=
  match a with
  | Some 0%Z | None => None
  | Some z => Some z
  end.

Definition calculateAgeCompatibility (age1 age2 : option Z) : Q :=
  match truthyAge age1, truthyAge age2 with
  | Some a1, Some a2 =>
      let ageDiff := Z.abs (a1 - a2) in
      if (ageDiff <=? 3)%Z then 1
      else if (ageDiff <=? 7)%Z then 8 # 10
      else if (ageDiff <=? 12)%Z then 6 # 10
      else if (ageDiff <=? 18)%Z then 4 # 10
      else 2 # 10
  | _, _ => 5 # 10
  end.

Definition calculateActivityMatch (entries1 entries2 : list Entry) : Q :=
  let activity1 := List.length entries1 in
  let activity2 := List.length entries2 in
  if ((activity1 =? 0) && (activity2 =? 0))%nat then 5 # 10
  else
    let maxActivity := Nat.max activity1 activity2 in
    let minActivity := Nat.min activity1 activity2 in
    if (maxActivity =? 0)%nat then 0 else ratio minActivity maxActivity.

Definition weights : list Q := [4 # 10; 35 # 100; 15 # 100; 5 # 100; 5 # 100].

Definition factors (b : Breakdown) : list Q :=
  [location b; mood b; interestsScore b; ageScore b; activity b].

(** [Object.keys(weights).reduce((sum, f) => sum + breakdown[f] * weights[f], 0)] *)
Definition weightedTotal (b : Breakdown) : Q :=
  fold_left (fun sum fw => sum + fst fw * snd fw) (combine (factors b) weights) 0.

Section Matcher.

(** [ml-distance]'s [cosine]; [None] is a call that throws. *)
Variable cosine : list Q -> list Q -> option Q.

Definition calculateMoodSimilarity (entries1 entries2 : list Entry) : Q :=
  match entries1, entries2 with
  | [], _ | _, [] => 2 # 10
  | _, _ =>
      let vector1 := getMoodVector (lastThree entries1) in
      let vector2 := getMoodVector (lastThree entries2) in
      match cosine vector1 vector2 with
      | Some d => Qmax 0 (Qmin 1 (1 - d))
      | None => 2 # 10
      end
  end.

Definition breakdownOf (user1 user2 : User) (user1Entries user2Entries : list Entry)
  : Breakdown :=
  {| location := calculateLocationMatch user1 user2;
     mood := calculateMoodSimilarity user1Entries user2Entries;
     interestsScore :=
       calculateInterestOverlap
         (match interests user1 with Some l => l | None => [] end)
         (match interests user2 with Some l => l | None => [] end);
     ageScore := calculateAgeCompatibility (age user1) (age user2);
     activity := calculateActivityMatch user1Entries user2Entries |}.

Definition calculateMatchScore (user1 user2 : User)
  (user1Entries user2Entries : list Entry) : MatchScore :=
  let b := breakdownOf user1 user2 user1Entries user2Entries in
  {| total := JsNum.toFixed (weightedTotal b) 3; breakdown := b |}.

End Matcher.

(** The binding [friendMatching.js] obtains in its first line,
    [const { cosine } = require('ml-distance')].  The library exports the
    namespaces [distance] and [similarity] and nothing named [cosine] at the
    top level, so the binding is [undefined] and every call throws a
    [TypeError], which [calculateMoodSimilarity] catches. *)
Definition destructuredCosine (vector1 vector2 : list Q) : option Q := None.

End FriendMatching.

(** ** localDatabase.js *)

Module LocalDatabase.

Definition locationScore (user1 user2 : User) : Q :=
  match FriendMatching.present (city user1), FriendMatching.present (city user2) with
  | Some c1, Some c2 =>
      if String.eqb (JsString.toLowerCase c1) (JsString.toLowerCase c2)
      then 1 else 1 # 10
  | _, _ => 1 # 10
  end.

Definition ageScore (user1 user2 : User) : Q :=
  match FriendMatching.truthyAge (age user1), FriendMatching.truthyAge (age user2) with
  | Some a1, Some a2 =>
      let ageDiff := Z.abs (a1 - a2) in
      if (ageDiff <=? 3)%Z then 1
      else if (ageDiff <=? 7)%Z then 8 # 10
      else if (ageDiff <=? 12)%Z then 6 # 10
      else 4 # 10
  | _, _ => 0
  end.

Definition interestScore (user1 user2 : User) : Q :=
  match interests user1, interests user2 with
  | Some ((_ :: _) as l1), Some ((_ :: _) as l2) =>
      let interests1 := map JsString.toLowerCase l1 in
      let interests2 := map JsString.toLowerCase l2 in
      ratio (intersectionSize interests1 interests2) (unionSize interests1 interests2)
  | _, _ => 0
  end.

Definition moodScore : Q := 5 # 10.

(** [Math.round(finalScore * 1000) / 1000] *)
Definition calculateMatchScore (user1 user2 : User) : Q :=
  let finalScore :=
    locationScore user1 user2 * (4 # 10) + moodScore * (35 # 100)
    + interestScore user1 user2 * (15 # 100) + ageScore user1 user2 * (1 # 10) in
  Qred (JsNum.mathRound (finalScore * 1000) # 1000).

End LocalDatabase.

(** ** sessionCompletion.js *)

Module SessionCompletion.

Local Open Scope string_scope.

(** One question/answer turn of a session, as far as the aggregation reads
    it.  [None] is a missing field.  Turns are modelled as the conversation
    route stores them: the label is an ordinary key ([plainLabel]) and the
    turn carries the transcript it was classified from as its [answer]
    string.  A label that names a member of [Object.prototype] (for which
    the tables below return the inherited member) and a turn without
    [answer] (on which [suggestCommunities] throws) are outside the model. *)
Record QA : Type := mkQA {
  emotion : option string;
  intensity : option Q
}.

Record SessionReport : Type := mkReport {
  wellnessScore : Z;
  dominantEmotion : string;
  emotionCounts : list (string * nat)
}.

Definition emotionScores : list (string * Q) :=
  [ ("happy", 90); ("excited", 85); ("calm", 80); ("peaceful", 85);
    ("hopeful", 75); ("neutral", 60); ("confused", 45); ("anxious", 35);
    ("sad", 30); ("angry", 25); ("stressed", 30) ].

Fixpoint lookupScore (label : string) (table : list (string * Q)) : option Q :=
  match table with
  | [] => None
  | (k, v) :: rest => if String.eqb k label then Some v else lookupScore label rest
  end.

(** [emotionScores[qa.emotion] || 50], for a label that is an ordinary key. *)
Definition baseScoreOf (qa : QA) : Q :=
  match lookupScore (keyOf (emotion qa)) emotionScores with
  | Some v => v
  | None => 50
  end.

(** [qa.intensity || 0.5] *)
Definition intensityOf (qa : QA) : Q :=
  match intensity qa with
  | Some i => if Qeq_bool i 0 then 1 # 2 else i
  | None => 1 # 2
  end.

(** [baseScore * intensity + 60 * (1 - intensity)], each operation rounded
    to the nearest double. *)
Definition entryScore (qa : QA) : Q :=
  JsNum.binary64
    (JsNum.binary64 (baseScoreOf qa * intensityOf qa)
     + JsNum.binary64 (60 * JsNum.binary64 (1 - intensityOf qa))).

(** The [forEach] that accumulates [totalScore] and [totalWeight].  The
    count [totalWeight] is an integer far below [2^53] and is exact. *)
Definition accumulate (qaHistory : list QA) : Q * Q :=
  fold_left (fun acc qa => (JsNum.binary64 (fst acc + entryScore qa), snd acc + 1))
            qaHistory (0, 0).

Definition calculateWellnessScore (qaHistory : option (list QA)) : Z :=
  match qaHistory with
  | None | Some [] => 50%Z
  | Some history =>
      let (totalScore, totalWeight) := accumulate history in
      let averageScore := JsNum.mathRound (JsNum.binary64 (totalScore / totalWeight)) in
      Z.max 0 (Z.min 100 averageScore)
  end.

(** [emotionCounts[key] = (emotionCounts[key] || 0) + 1] on an object whose
    keys are ordinary ones and so are kept in insertion order. *)
Fixpoint increment (key : string) (counts : list (string * nat))
  : list (string * nat) :=
  match counts with
  | [] => [(key, 1%nat)]
  | (k, n) :: rest =>
      if String.eqb k key then (k, S n) :: rest
      else (k, n) :: increment key rest
  end.

Definition countEmotions (qaHistory : list QA) : list (string * nat) :=
  fold_left (fun counts qa => increment (keyOf (emotion qa)) counts) qaHistory [].

Fixpoint countOf (key : string) (counts : list (string * nat)) : nat :=
  match counts with
  | [] => O
  | (k, n) :: rest => if String.eqb k key then n else countOf key rest
  end.

(** [Object.keys(emotionCounts).reduce((a, b) => emotionCounts[a] > emotionCounts[b] ? a : b)];
    reducing no keys without an initial value is a [TypeError]. *)
Definition reduceDominant (counts : list (string * nat)) : outcome string :=
  match map fst counts with
  | [] => Threw "Reduce of empty array with no initial value"
  | first :: others =>
      Returned
        (fold_left (fun a b => if (countOf b counts <? countOf a counts)%nat
                               then a else b)
                   others first)
  end.

(** The score, the dominant emotion and the counts of the object
    [generateSessionCompletion] returns, or the exception it ends with; the
    other fields of the object are in [SessionDetails.completionDetails]. *)
Definition generateSessionCompletion (qaHistory : option (list QA))
  : outcome SessionReport :=
  let score := calculateWellnessScore qaHistory in
  match qaHistory with
  | None => Threw "Cannot read properties of null (reading 'forEach')"
  | Some history =>
      let counts := countEmotions history in
      match reduceDominant counts with
      | Threw message => Threw message
      | Returned dominant =>
          Returned {| wellnessScore := score;
                      dominantEmotion := dominant;
                      emotionCounts := counts |}
      end
  end.

End SessionCompletion.

(** ** emotionAnalysis.js: the mock audio classifier and the entry pipeline *)

Module AudioAnalysis.

Import EmotionAnalysis.
Local Open Scope string_scope.

Record MockFeatures : Type := mkFeatures {
  mock_emotion : string;
  pitch_mean : Q;
  pitch_std : Q;
  energy_mean : Q;
  speaking_rate : Q;
  mock_intensity : Q;
  voice_quality : Q
}.

(** The [features] literal of [_generateMockAudioFeatures]: for each emotion,
    in the order of the literal, the base and the range of [pitch_mean],
    [pitch_std], [energy_mean], [speaking_rate] and [intensity]. *)
Definition featureTable : list (string * list (Q * Q)) :=
  [ ("happy",   [(180, 40); (15, 10); (6 # 10, 3 # 10); (45 # 10, 1); (6 # 10, 3 # 10)]);
    ("sad",     [(120, 30); (8, 5); (2 # 10, 2 # 10); (25 # 10, 1); (4 # 10, 4 # 10)]);
    ("angry",   [(200, 50); (20, 15); (7 # 10, 2 # 10); (5, 15 # 10); (7 # 10, 2 # 10)]);
    ("anxious", [(160, 60); (18, 12); (5 # 10, 3 # 10); (4, 2); (5 # 10, 3 # 10)]);
    ("calm",    [(140, 20); (6, 4); (3 # 10, 2 # 10); (3, 5 # 10); (3 # 10, 3 # 10)]);
    ("neutral", [(150, 30); (10, 5); (4 # 10, 2 # 10); (35 # 10, 1); (4 # 10, 2 # 10)]) ].

Section Mock.

(** The successive results of [Math.random()] within one call: draw 0 picks
    the emotion, the literal then draws five numbers per emotion in order,
    and draw 31 gives [voice_quality]. *)
Variable random : nat -> Q.

(** [base + Math.random() * range] for feature [j] of the [k]-th emotion. *)
Definition featureValue (k j : nat) (ranges : list (Q * Q)) : Q :=
  let br := nth j ranges (0, 0) in
  fst br + random (1 + 5 * k + j) * snd br.

(** [Math.floor(Math.random() * emotions.length)] *)
Definition emotionIndex : nat := Z.to_nat (Qfloor (random 0 * 6)).

(** [_generateMockAudioFeatures].  [Math.random()] is below 1, so the index
    is below 6 and the default of [nth] is never taken. *)
Definition generateMockAudioFeatures : MockFeatures :=
  let k := emotionIndex in
  let row := nth k featureTable ("neutral", []) in
  {| mock_emotion := fst row;
     pitch_mean := featureValue k 0 (snd row);
     pitch_std := featureValue k 1 (snd row);
     energy_mean := featureValue k 2 (snd row);
     speaking_rate := featureValue k 3 (snd row);
     mock_intensity := featureValue k 4 (snd row);
     voice_quality := random 31 * (8 # 10) + (2 # 10) |}.

Definition analyzeAudio : EmotionResult :=
  let mockFeatures := generateMockAudioFeatures in
  {| emotion := Some (JStr (mock_emotion mockFeatures));
     intensity := mock_intensity mockFeatures;
     confidence := 6 # 10;
     analysis_method := mock_audio_classifier |}.

End Mock.

(** How the handler of [POST /api/entries] answers, as far as the analysis
    goes: 400 without transcript and audio, 500 on an exception, or the
    analysis it stores. *)
Inductive analysisResponse : Type :=
| BadRequest
| ServerError (message : string)
| Analysed (finalAnalysis : EmotionResult).

(** Truthiness of the [transcript] field. *)
Definition truthy (x : input) : bool :=
  match x with
  | InUndefined | InNull => false
  | InBoolean b => b
  | InNumber q => negb (Qeq_bool q 0)
  | InString s => negb (String.eqb s "")
  | InObject => true
  end.

(** [typeof transcript === 'string'] *)
Definition isString (x : input) : bool :=
  match x with InString _ => true | _ => false end.

Section Entries.

Variable tokenize : string -> list string.
Variable sentimentScore : string -> Q.
Variable callProvider : provider -> string -> reply.
Variable random : nat -> Q.

(** The analysis part of the handler: [textAnalysis] when there is a
    transcript, [audioAnalysis] when there is a file, fused when there are
    both.  A truthy transcript that is not a string has no [substring] and
    fails in the first log line. *)
Definition analyseEntry (startEnv env : Env) (transcript : input) (audioFile : bool)
  : analysisResponse :=
  if negb (truthy transcript) && negb audioFile then BadRequest
  else
    match transcript with
    | InString s =>
        if String.eqb s "" then Analysed (analyzeAudio random)
        else
          match analyzeText tokenize sentimentScore callProvider startEnv env transcript with
          | Threw message => ServerError message
          | Returned textAnalysis =>
              if audioFile
              then Analysed (fuseEmotionResults textAnalysis (analyzeAudio random))
              else Analysed textAnalysis
          end
    | _ =>
        if truthy transcript then ServerError "transcript.substring is not a function"
        else Analysed (analyzeAudio random)
    end.

End Entries.

End AudioAnalysis.

(** ** sessionCompletion.js: recommendations, suggestions and messages *)

Module SessionDetails.

Import SessionCompletion.
Local Open Scope string_scope.

(** A recommendation entry.  [urgent] is [None] where the literal has no such
    field; [note] holds the one further field of the literal ([actionable],
    [duration] or [frequency]) with its value. *)
Record Recommendation : Type := mkRecommendation {
  icon : string;
  title : string;
  description : string;
  note : option (string * string);
  urgent : option bool
}.

Record Recommendations : Type := mkRecommendations {
  immediate : list Recommendation;
  daily : list Recommendation;
  weekly : list Recommendation;
  professional : list Recommendation
}.

Definition isOneOf (labels : list string) (label : string) : bool :=
  existsb (String.eqb label) labels.

Definition generateRecommendations (wellnessScore : Z) (dominantEmotion : string)
  : Recommendations :=
  {| immediate :=
       (if isOneOf ["anxious"; "stressed"] dominantEmotion
        then [ mkRecommendation "🧘" "Try 5-Minute Breathing Exercise"
                 "Box breathing: Inhale 4s, hold 4s, exhale 4s, hold 4s"
                 (Some ("actionable", "true")) None;
               mkRecommendation "🚶" "Take a Short Walk"
                 "Even 10 minutes outside can reduce stress by 20%"
                 (Some ("actionable", "true")) None ]
        else [])
       ++ (if String.eqb dominantEmotion "sad"
           then [ mkRecommendation "☀️" "Get Some Sunlight"
                    "Natural light boosts serotonin levels"
                    (Some ("actionable", "true")) None;
                  mkRecommendation "🎵" "Listen to Uplifting Music"
                    "Music therapy can improve mood within minutes"
                    (Some ("actionable", "true")) None ]
           else [])
       ++ (if String.eqb dominantEmotion "angry"
           then [ mkRecommendation "✍️" "Journal Your Feelings"
                    "Writing helps process and release anger constructively"
                    (Some ("actionable", "true")) None;
                  mkRecommendation "💪" "Physical Activity"
                    "Exercise releases tension and improves mood"
                    (Some ("actionable", "true")) None ]
           else []);
     daily :=
       [ mkRecommendation "📝" "Gratitude Practice"
           "Write down 3 things you are grateful for"
           (Some ("duration", "5 minutes")) None;
         mkRecommendation "🧘‍♀️" "Mindfulness Meditation"
           "Guided meditation for emotional awareness"
           (Some ("duration", "10 minutes")) None ];
     weekly :=
       [ mkRecommendation "🤝" "Social Connection"
           "Meet friends or join a community group"
           (Some ("frequency", "2-3 times per week")) None;
         mkRecommendation "🎨" "Creative Expression"
           "Art, music, writing - any creative outlet"
           (Some ("frequency", "Once a week")) None ];
     professional :=
       if (wellnessScore <? 40)%Z
       then [ mkRecommendation "👨‍⚕️" "Consider Professional Support"
                "A therapist can provide personalized strategies" None (Some true);
              mkRecommendation "📞" "Crisis Support Available"
                "National Mental Health Hotline: 1-800-662-HELP" None (Some true) ]
       else if (wellnessScore <? 60)%Z
       then [ mkRecommendation "🗣️" "Talk to Someone"
                "Share your feelings with a trusted friend or counselor"
                None (Some false) ]
       else [] |}%list.






(** [s.includes(sub)] *)
Fixpoint startsWith (sub s : list ascii) : bool :=
  match sub with
  | [] => true
  | c :: sub' =>
      match s with
      | d :: s' => Ascii.eqb c d && startsWith sub' s'
      | [] => false
      end
  end.

Fixpoint includesFrom (sub s : list ascii) : bool :=
  startsWith sub s
  || match s with
     | [] => false
     | _ :: rest => includesFrom sub rest
     end.

Definition includes (s sub : string) : bool :=
  includesFrom (JsString.chars sub) (JsString.chars s).

(** [strings.join(' ')] *)
Fixpoint joinSpace (strings : list string) : string :=
  match strings with
  | [] => ""
  | [s] => s
  | s :: rest => s ++ " " ++ joinSpace rest
  end.

Record Community : Type := mkCommunity {
  community_icon : string;
  community_name : string;
  community_description : string;
  community_type : string
}.

Definition professionalGroups : Community :=
  mkCommunity "💼" "Professional Support Groups"
    "Connect with others navigating career challenges" "online-and-local".
Definition familyNetworks : Community :=
  mkCommunity "👨‍👩‍👧" "Family Support Networks"
    "Share experiences with others in similar situations" "local".
Definition creativeCommunities : Community :=
  mkCommunity "🎨" "Creative Communities"
    "Express yourself through art with like-minded people" "workshops".
Definition mindfulnessGroups : Community :=
  mkCommunity "🧘" "Mindfulness & Meditation Groups"
    "Practice stress management together" "weekly-meetups".
Definition peerCircles : Community :=
  mkCommunity "💝" "Peer Support Circles"
    "Share your journey with understanding peers" "support-group".
Definition awarenessGroups : Community :=
  mkCommunity "🌟" "Mental Health Awareness Groups"
    "Learn and grow with others on wellness journeys" "educational".
Definition volunteerOrganizations : Community :=
  mkCommunity "🤝" "Local Volunteer Organizations"
    "Helping others boosts your own well-being" "volunteer".

(** [suggestCommunities], on the [answer] strings of the turns. *)
Definition suggestCommunities (answers : list string) (dominantEmotion : string)
  : list Community :=
  let transcript := joinSpace (map JsString.toLowerCase answers) in
  ((if includes transcript "work" || includes transcript "career"
       || includes transcript "job"
    then [professionalGroups] else [])
   ++ (if includes transcript "family" || includes transcript "relationship"
       then [familyNetworks] else [])
   ++ (if includes transcript "creative" || includes transcript "art"
          || includes transcript "music"
       then [creativeCommunities] else [])
   ++ (if isOneOf ["anxious"; "stressed"] dominantEmotion
       then [mindfulnessGroups] else [])
   ++ (if String.eqb dominantEmotion "sad" then [peerCircles] else [])
   ++ [awarenessGroups; volunteerOrganizations])%list.









End SessionDetails.

(** ** JavaScript arrays: sorting by a score and slicing *)

Module JsArray.

Section Sorting.

Context {A : Type}.
Variable score : A -> Q.

(** Insert [x], which preceded the elements of [sorted] in the array, before
    the first of them whose score is not strictly higher. *)
Fixpoint insertDescending (x : A) (sorted : list A) : list A :=
  match sorted with
  | [] => [x]
  | y :: rest =>
      if JsNum.Qlt_bool (score x) (score y)
      then y :: insertDescending x rest
      else x :: sorted
  end.

(** [array.sort((a, b) => score(b) - score(a))]: descending by score; the
    sort is stable, so elements of equal score keep their order. *)
Definition sortDescending (l : list A) : list A :=
  fold_right insertDescending [] l.

End Sorting.

(** [array.slice(0, limit)] for an integer [limit]; a negative limit counts
    from the end. *)
Definition sliceTo {A : Type} (limit : Z) (l : list A) : list A :=
  if (limit <? 0)%Z
  then firstn (List.length l - Z.to_nat (- limit)) l
  else firstn (Z.to_nat limit) l.

End JsArray.

(** ** friendMatching.js: reasoning, compatibility level and [findMatches] *)

Module Matching.

Import FriendMatching.
Local Open Scope string_scope.

(** The [reasons] array of [generateMatchReasoning]. *)
Definition matchReasons (b : Breakdown) : list string :=
  ((if JsNum.Qlt_bool (8 # 10) (location b) then ["lives in your city"]
    else if JsNum.Qlt_bool (4 # 10) (location b) then ["lives nearby"]
    else [])
   ++ (if JsNum.Qlt_bool (7 # 10) (mood b) then ["has very similar recent moods"]
       else if JsNum.Qlt_bool (5 # 10) (mood b) then ["shares some emotional patterns"]
       else [])
   ++ (if JsNum.Qlt_bool (5 # 10) (interestsScore b) then ["shares many interests"]
       else if JsNum.Qlt_bool (2 # 10) (interestsScore b)
       then ["has some common interests"]
       else [])
   ++ (if JsNum.Qlt_bool (7 # 10) (ageScore b) then ["is around your age"] else [])
   ++ (if JsNum.Qlt_bool (6 # 10) (activity b) then ["has similar activity level"]
       else []))%list.

(** [strings.join(separator)] *)
Fixpoint join (separator : string) (strings : list string) : string :=
  match strings with
  | [] => ""
  | [s] => s
  | s :: rest => s ++ separator ++ join separator rest
  end.

Definition generateMatchReasoning (b : Breakdown) : string :=
  let reasons := matchReasons b in
  match reasons with
  | [] => "might be an interesting connection"
  | [r] => r
  | [r1; r2] => join " and " reasons
  | _ => join ", " (removelast reasons) ++ ", and " ++ last reasons ""
  end.

Inductive level : Type := Excellent | Great | Good | Fair | Limited.

Definition getCompatibilityLevel (score : Q) : level :=
  if Qle_bool (8 # 10) score then Excellent
  else if Qle_bool (6 # 10) score then Great
  else if Qle_bool (4 # 10) score then Good
  else if Qle_bool (2 # 10) score then Fair
  else Limited.

(** A user row with its identifier. *)
Record Friend : Type := mkFriend {
  friend_id : string;
  profile : User
}.

(** An element of the array [findMatches] returns ([lastSeen] is left out). *)
Record Match : Type := mkMatch {
  match_user : Friend;
  match_score : Q;
  match_breakdown : Breakdown;
  match_reasoning : string;
  match_compatibility : level
}.

(** [allUserEntries[id] || []] on an object given by its entries, for
    identifiers that are ordinary keys. *)
Fixpoint entriesOf (id : string) (allUserEntries : list (string * list Entry))
  : list Entry :=
  match allUserEntries with
  | [] => []
  | (k, v) :: rest => if String.eqb k id then v else entriesOf id rest
  end.

Section Finder.

Variable cosine : list Q -> list Q -> option Q.

Definition matchOf (targetUser : Friend) (targetUserEntries : list Entry)
  (allUserEntries : list (string * list Entry)) (friend : Friend) : Match :=
  let score := calculateMatchScore cosine (profile targetUser) (profile friend)
                 targetUserEntries (entriesOf (friend_id friend) allUserEntries) in
  {| match_user := friend;
     match_score := total score;
     match_breakdown := breakdown score;
     match_reasoning := generateMatchReasoning (breakdown score);
     match_compatibility := getCompatibilityLevel (total score) |}.

Definition findMatches (targetUser : Friend) (potentialFriends : list Friend)
  (targetUserEntries : list Entry) (allUserEntries : list (string * list Entry))
  : list Match :=
  let candidates :=
    filter (fun friend => negb (String.eqb (friend_id friend) (friend_id targetUser)))
           potentialFriends in
  firstn 10 (JsArray.sortDescending match_score
               (map (matchOf targetUser targetUserEntries allUserEntries) candidates)).

End Finder.

End Matching.

(** ** localDatabase.js: friend recommendations *)

Module LocalStore.

Local Open Scope string_scope.

Record Account : Type := mkAccount {
  account_id : string;
  display_name : string;
  account_profile : User
}.

Record Connection : Type := mkConnection {
  user1_id : string;
  user2_id : string
}.

Record Recommendation : Type := mkRecommendation {
  rec_user_id : string;
  rec_display_name : string;
  rec_profile : User;
  rec_match_score : Q
}.

Record Store : Type := mkStore {
  users : list Account;
  friendConnections : list Connection
}.

(** [this.users.find(user => user.id === id)] *)
Definition findUserById (db : Store) (id : string) : option Account :=
  find (fun user => String.eqb (account_id user) id) (users db).

Definition connected (db : Store) (a b : string) : bool :=
  existsb (fun conn =>
             (String.eqb (user1_id conn) a && String.eqb (user2_id conn) b)
             || (String.eqb (user2_id conn) a && String.eqb (user1_id conn) b))
          (friendConnections db).

Definition getFriendRecommendations (db : Store) (userId : string) (limit : Z)
  : list Recommendation :=
  match findUserById db userId with
  | None => []
  | Some user =>
      let others :=
        filter (fun otherUser =>
                  negb (String.eqb (account_id otherUser) userId)
                  && negb (connected db userId (account_id otherUser)))
               (users db) in
      let recommendations :=
        map (fun otherUser =>
               {| rec_user_id := account_id otherUser;
                  rec_display_name := display_name otherUser;
                  rec_profile := account_profile otherUser;
                  rec_match_score :=
                    LocalDatabase.calculateMatchScore (account_profile user)
                                                      (account_profile otherUser) |})
            others in
      JsArray.sliceTo limit (JsArray.sortDescending rec_match_score recommendations)
  end.

End LocalStore.

(** ** Definitions that follow the specification's wording, and the
    vocabulary of the properties *)

Module Spec.

Local Open Scope string_scope.

(** The closed set of emotion labels of an [EmotionResult]. *)
Definition closedSet : list string :=
  ["happy"; "sad"; "angry"; "anxious"; "calm"; "neutral"; "excited"; "peaceful"].

(** "intensity and confidence in [0,1], emotion a member of the closed set" *)
Definition wellFormed (r : EmotionAnalysis.EmotionResult) : Prop :=
  0 <= EmotionAnalysis.intensity r <= 1
  /\ 0 <= EmotionAnalysis.confidence r <= 1
  /\ exists label, EmotionAnalysis.emotion r = Some (JStr label)
                   /\ In label closedSet.

(** "the input is empty or not a string" *)
Definition invalidInput (x : EmotionAnalysis.input) : Prop :=
  match x with
  | EmotionAnalysis.InString s => s = ""
  | _ => True
  end.

(** "weighted average with fixed weights text 0.8 and audio 0.2" *)
Definition weightedAverage (text audio : Q) : Q :=
  ((8 # 10) * text + (2 # 10) * audio) / ((8 # 10) + (2 # 10)).

(** The label an entry is counted under. *)
Definition labels (history : list SessionCompletion.QA) : list string :=
  map (fun qa => keyOf (SessionCompletion.emotion qa)) history.

Definition plainEntry (qa : SessionCompletion.QA) : Prop :=
  plainLabel (keyOf (SessionCompletion.emotion qa)) = true.

(** "the most frequent emotion label": how often a label occurs. *)
Definition occurrences (label : string) (l : list string) : nat :=
  count_occ string_dec l label.

(** Position of the first occurrence of a label in session order (the
    length of the list when it does not occur). *)
Fixpoint firstIndex (label : string) (l : list string) : nat :=
  match l with
  | [] => O
  | x :: rest => if String.eqb x label then O else S (firstIndex label rest)
  end.

Definition plainMood (entry : FriendMatching.Entry) : Prop :=
  plainLabel (keyOf (FriendMatching.emotion entry)) = true.

(** "base x intensity + 60 x (1 - intensity)", with the base of a label
    that is not in the table left as a parameter. *)
Definition entryScoreWith (unknownBase : Q) (qa : SessionCompletion.QA) : Q :=
  let base := match SessionCompletion.lookupScore
                      (keyOf (SessionCompletion.emotion qa))
                      SessionCompletion.emotionScores with
              | Some v => v
              | None => unknownBase
              end in
  let i := match SessionCompletion.intensity qa with
           | Some i => i
           | None => 1 # 2
           end in
  base * i + 60 * (1 - i).

Definition sumQ (l : list Q) : Q := fold_right Qplus 0 l.

Definition average (l : list Q) : Q :=
  sumQ l / inject_Z (Z.of_nat (List.length l)).

(** "averaged across all entries, rounded to the nearest integer, and
    clamped to [0,100]" *)
Definition wellnessWith (unknownBase : Q) (history : list SessionCompletion.QA) : Z :=
  Z.max 0 (Z.min 100 (JsNum.mathRound (average (map (entryScoreWith unknownBase) history)))).

(** A list in descending order of score. *)
Definition descending {A : Type} (score : A -> Q) (l : list A) : Prop :=
  StronglySorted (fun a b => score b <= score a) l.

(** The sum of the counts of an [emotionCounts] object. *)
Definition totalCount (counts : list (string * nat)) : nat :=
  fold_right (fun entry total => (snd entry + total)%nat) O counts.

(** The base the table gives to neutral. *)
Definition neutralBase : Q := 60.

(** Room for the rounding error of the double arithmetic: one billionth. *)
Definition roundingSlack : Q := 1 # 1000000000.


(** [reported] is [exact] "rounded to the nearest integer", in the same
    sense. *)
Definition toNearestInteger (exact : Q) (reported : Z) : Prop :=
  (JsNum.mathRound (exact - roundingSlack) <= reported
   <= JsNum.mathRound (exact + roundingSlack))%Z.


(** "intensity: real number in [0,1]" for the turns of a session. *)
Definition unitIntensity (qa : SessionCompletion.QA) : Prop :=
  forall i, SessionCompletion.intensity qa = Some i -> 0 <= i <= 1.

(** A profile that has a city, an age and at least one interest. *)
Definition completeProfile (user : User) : bool :=
  match FriendMatching.present (city user), FriendMatching.truthyAge (age user),
        interests user with
  | Some _, Some _, Some (_ :: _) => true
  | _, _, _ => false
  end.

End Spec.

(** ** Sample inputs *)

Module Samples.

Local Open Scope string_scope.

(** A tokenizer that splits on every character outside [\w]. *)
Fixpoint splitWords (current : list ascii) (s : list ascii) : list string :=
  match s with
  | [] =>
      match current with
      | [] => []
      | _ => [string_of_list_ascii (rev current)]
      end
  | c :: rest =>
      if JsString.isWordChar c then splitWords (c :: current) rest
      else
        match current with
        | [] => splitWords [] rest
        | _ => string_of_list_ascii (rev current) :: splitWords [] rest
        end
  end.

Definition wordTokens (s : string) : list string :=
  splitWords [] (JsString.chars s).

(** A sentiment scorer over a few entries of the AFINN word list. *)
Definition polarity : list (string * Z) :=
  [ ("wonderful", 4%Z); ("happy", 3%Z); ("superb", 5%Z); ("outstanding", 5%Z);
    ("sorry", (-1)%Z); ("anxious", (-2)%Z); ("worried", (-3)%Z) ].

Fixpoint polarityOf (word : string) (table : list (string * Z)) : Z :=
  match table with
  | [] => 0%Z
  | (w, v) :: rest => if String.eqb w word then v else polarityOf word rest
  end.

Definition lexiconScore (text : string) : Q :=
  inject_Z (fold_left (fun sum w => (sum + polarityOf w polarity)%Z)
                      (wordTokens (JsString.toLowerCase text)) 0%Z).

Definition geminiOnly : EmotionAnalysis.Env := EmotionAnalysis.mkEnv true false false.
Definition noKeys : EmotionAnalysis.Env := EmotionAnalysis.mkEnv false false false.

(** A provider whose reply parses but ignores the requested ranges. *)
Definition offScaleReply : json :=
  JObj [ ("emotion", JStr "furious"); ("intensity", JNum (15 # 10));
         ("confidence", JNum 2); ("reasoning", JStr "strong wording");
         ("tone_indicators", JArr [JStr "fine"]) ].

Definition offScaleProvider (p : EmotionAnalysis.provider) (text : string)
  : EmotionAnalysis.reply := EmotionAnalysis.Parsed offScaleReply.

Definition timedOutProvider (p : EmotionAnalysis.provider) (text : string)
  : EmotionAnalysis.reply := EmotionAnalysis.Failed EmotionAnalysis.Timeout.

(** The double a decimal literal denotes.  The numbers of the samples that
    follow are doubles, as the numbers of the program are. *)
Definition double (x : Q) : Q := JsNum.binary64 x.

(** A text result of low confidence and a mock audio result (the audio
    classifier always reports confidence 0.6) that agree on the emotion. *)
Definition hesitantText : EmotionAnalysis.EmotionResult :=
  {| EmotionAnalysis.emotion := Some (JStr "sad");
     EmotionAnalysis.intensity := double (5 # 10);
     EmotionAnalysis.confidence := double (1 # 10);
     EmotionAnalysis.analysis_method := EmotionAnalysis.ai_powered |}.

Definition sadAudio : EmotionAnalysis.EmotionResult :=
  {| EmotionAnalysis.emotion := Some (JStr "sad");
     EmotionAnalysis.intensity := double (5 # 10);
     EmotionAnalysis.confidence := double (6 # 10);
     EmotionAnalysis.analysis_method := EmotionAnalysis.mock_audio_classifier |}.

Definition calmText : EmotionAnalysis.EmotionResult :=
  {| EmotionAnalysis.emotion := Some (JStr "calm");
     EmotionAnalysis.intensity := double (4 # 10);
     EmotionAnalysis.confidence := double (5 # 10);
     EmotionAnalysis.analysis_method := EmotionAnalysis.keyword_sentiment_hybrid |}.

(** A turn with a label and the intensity written [i]. *)
Definition turn (label : string) (i : Q) : SessionCompletion.QA :=
  SessionCompletion.mkQA (Some label) (Some (double i)).

(** A reply stored without an emotion label, at full intensity. *)
Definition unlabelledTurn : SessionCompletion.QA :=
  SessionCompletion.mkQA None (Some 1).

Definition ada : User :=
  mkUser (Some "San Francisco") (Some 31%Z) (Some ["yoga"; "Hiking"; "art"]).

Definition ben : User :=
  mkUser (Some "san francisco ") (Some 36%Z) (Some ["hiking"; "Art"]).

Definition adaEntries : list FriendMatching.Entry :=
  [FriendMatching.mkEntry (Some "calm"); FriendMatching.mkEntry (Some "happy")].

Definition benEntries : list FriendMatching.Entry :=
  [FriendMatching.mkEntry (Some "happy")].

Definition mostlyHappy : list SessionCompletion.QA :=
  [turn "happy" (8 # 10); turn "happy" (6 # 10); turn "sad" (5 # 10)].

(** A source of random draws that always yields one half. *)
Definition halfDraws (n : nat) : Q := 1 # 2.

(** A profile without a city. *)
Definition cyd : User := mkUser None (Some 31%Z) (Some ["yoga"; "art"]).

Definition friendAda : Matching.Friend := Matching.mkFriend "u1" ada.
Definition friendBen : Matching.Friend := Matching.mkFriend "u2" ben.
Definition friendCyd : Matching.Friend := Matching.mkFriend "u3" cyd.

(** A store of three users in which Ada and Cyd are already connected. *)
Definition smallStore : LocalStore.Store :=
  {| LocalStore.users :=
       [ LocalStore.mkAccount "u1" "Ada" ada; LocalStore.mkAccount "u2" "Ben" ben;
         LocalStore.mkAccount "u3" "Cyd" cyd ];
     LocalStore.friendConnections := [LocalStore.mkConnection "u3" "u1"] |}.

(** Three turns whose average is 57.5 in exact arithmetic, in two orders. *)
Definition nearTie : list SessionCompletion.QA :=
  [turn "happy" (1 # 100); turn "happy" (37 # 100); turn "angry" (54 # 100)].

Definition nearTieReordered : list SessionCompletion.QA :=
  [turn "happy" (1 # 100); turn "angry" (54 # 100); turn "happy" (37 # 100)].

(** A text result of intensity 0, and the mock audio result for the draw
    0.75 of the happy intensity, [0.6 + 0.75 * 0.3]. *)
Definition flatText : EmotionAnalysis.EmotionResult :=
  {| EmotionAnalysis.emotion := Some (JStr "happy");
     EmotionAnalysis.intensity := 0;
     EmotionAnalysis.confidence := double (8 # 10);
     EmotionAnalysis.analysis_method := EmotionAnalysis.keyword_sentiment_hybrid |}.

Definition happyAudio : EmotionAnalysis.EmotionResult :=
  {| EmotionAnalysis.emotion := Some (JStr "happy");
     EmotionAnalysis.intensity :=
       double (double (6 # 10) + double (double (75 # 100) * double (3 # 10)));
     EmotionAnalysis.confidence := double (6 # 10);
     EmotionAnalysis.analysis_method := EmotionAnalysis.mock_audio_classifier |}.

(** A text result whose intensity is not a multiple of 0.01 after
    averaging. *)
Definition mildText : EmotionAnalysis.EmotionResult :=
  {| EmotionAnalysis.emotion := Some (JStr "sad");
     EmotionAnalysis.intensity := double (33 # 100);
     EmotionAnalysis.confidence := double (33 # 100);
     EmotionAnalysis.analysis_method := EmotionAnalysis.keyword_sentiment_hybrid |}.

End Samples.

(** * Properties *)

(** ** Rounding *)

Section Rounding.

Import JsNum.

Lemma Qlt_bool_iff (x y : Q) : Qlt_bool x y = true <-> x < y.
Proof.
  unfold Qlt_bool. rewrite negb_true_iff. split; intro H.
  - apply Qnot_le_lt. intro Hle. apply Qle_bool_iff in Hle. congruence.
  - destruct (Qle_bool y x) eqn:E; [|reflexivity].
    apply Qle_bool_iff in E. exfalso. apply (Qlt_not_le _ _ H E).
Qed.

Lemma Qlt_bool_false_iff (x y : Q) : Qlt_bool x y = false <-> y <= x.
Proof.
  unfold Qlt_bool. rewrite negb_false_iff. apply Qle_bool_iff.
Qed.

Lemma Qmake_le (a b : Z) (p : positive) : (a <= b)%Z -> a # p <= b # p.
Proof. intro H. unfold Qle. simpl. nia. Qed.

Lemma roundAt_mono (scale : positive) (x y : Q) :
  x <= y -> roundAt scale x <= roundAt scale y.
Proof.
  intro H. unfold roundAt. rewrite !Qred_correct.
  apply Qmake_le, Qfloor_resp_le.
  assert (0 <= Zpos scale # 1) by (unfold Qle; simpl; lia).
  nra.
Qed.

Lemma roundAt_nonneg (scale : positive) (x : Q) : 0 <= x -> 0 <= roundAt scale x.
Proof.
  intro H. apply Qle_trans with (roundAt scale 0).
  - unfold roundAt. rewrite Qred_correct. unfold Qle. simpl. lia.
  - now apply roundAt_mono.
Qed.

Lemma roundAt_comp (scale : positive) (x y : Q) :
  x == y -> roundAt scale x = roundAt scale y.
Proof.
  intro H. unfold roundAt. apply Qred_complete.
  assert (E : Qfloor (x * (Z.pos scale # 1) + (1 # 2))
              = Qfloor (y * (Z.pos scale # 1) + (1 # 2)))
    by (apply Qfloor_comp; rewrite H; reflexivity).
  rewrite E. reflexivity.
Qed.

Lemma toFixed_comp (x y : Q) (digits : nat) :
  x == y -> toFixed x digits = toFixed y digits.
Proof.
  intro H. unfold toFixed.
  assert (E : Qle_bool 0 x = Qle_bool 0 y).
  { destruct (Qle_bool 0 x) eqn:Ex, (Qle_bool 0 y) eqn:Ey; try reflexivity.
    - apply Qle_bool_iff in Ex. rewrite H in Ex. apply Qle_bool_iff in Ex. congruence.
    - apply Qle_bool_iff in Ey. rewrite <- H in Ey. apply Qle_bool_iff in Ey. congruence. }
  rewrite E. destruct (Qle_bool 0 y).
  - now apply roundAt_comp.
  - apply Qred_complete.
    rewrite (roundAt_comp _ (- x) (- y)) by (rewrite H; reflexivity). reflexivity.
Qed.

Lemma toFixed_mono (x y : Q) (digits : nat) :
  x <= y -> toFixed x digits <= toFixed y digits.
Proof.
  intro H. unfold toFixed.
  set (scale := Nat.iter digits (Pos.mul 10) 1%positive).
  destruct (Qle_bool 0 x) eqn:Ex, (Qle_bool 0 y) eqn:Ey.
  - now apply roundAt_mono.
  - apply Qle_bool_iff in Ex.
    assert (Hy : ~ 0 <= y) by (intro K; apply Qle_bool_iff in K; congruence).
    exfalso. apply Hy. lra.
  - assert (Hx : ~ 0 <= x) by (intro K; apply Qle_bool_iff in K; congruence).
    apply Qle_bool_iff in Ey. rewrite Qred_correct.
    assert (0 <= roundAt scale (- x)) by (apply roundAt_nonneg; lra).
    assert (0 <= roundAt scale y) by (now apply roundAt_nonneg).
    lra.
  - rewrite !Qred_correct.
    assert (roundAt scale (- y) <= roundAt scale (- x)) by (apply roundAt_mono; lra).
    lra.
Qed.

Lemma toFixed_unit (x : Q) : 0 <= x <= 1 -> 0 <= toFixed x 2 <= 1.
Proof.
  intros [H0 H1]. split.
  - change 0 with (toFixed 0 2). now apply toFixed_mono.
  - change 1 with (toFixed 1 2). now apply toFixed_mono.
Qed.

Lemma mathRound_comp (x y : Q) : x == y -> mathRound x = mathRound y.
Proof. intro H. unfold mathRound. apply Qfloor_comp. rewrite H. reflexivity. Qed.


Lemma mathRound_mono (x y : Q) : x <= y -> (mathRound x <= mathRound y)%Z.
Proof. intro H. unfold mathRound. apply Qfloor_resp_le. lra. Qed.

(** Rounding to two decimals absorbs what lies within the bounds' own
    rounding. *)
Lemma toFixed_within (lo hi lo' hi' x : Q) (digits : nat) :
  toFixed lo' digits == lo -> toFixed hi' digits == hi ->
  lo' <= x <= hi' -> lo <= toFixed x digits <= hi.
Proof.
  intros Hlo Hhi [H1 H2]. split.
  - rewrite <- Hlo. now apply toFixed_mono.
  - rewrite <- Hhi. now apply toFixed_mono.
Qed.

Lemma Qmin_near (a a' b b' e : Q) :
  a - e <= a' <= a + e -> b - e <= b' <= b + e ->
  Qmin a b - e <= Qmin a' b' <= Qmin a b + e.
Proof.
  intros Ha Hb.
  destruct (Q.min_spec a b) as [[H E] | [H E]];
    destruct (Q.min_spec a' b') as [[H' E'] | [H' E']];
    rewrite E, E'; split; lra.
Qed.

Lemma product_near (x c c' M e : Q) :
  - M <= x <= M -> c - e <= c' <= c + e ->
  x * c - M * e <= x * c' <= x * c + M * e.
Proof. intros [H1 H2] [H3 H4]. split; nra. Qed.

(** ** Rounding to the nearest double *)

Lemma roundHalfEven_close (y : Q) :
  - (1 # 2) <= inject_Z (roundHalfEven y) - y <= 1 # 2.
Proof.
  unfold roundHalfEven.
  pose proof (Qfloor_le y) as Hlo. pose proof (Qlt_floor y) as Hhi.
  rewrite inject_Z_plus in Hhi. change (inject_Z 1) with 1 in Hhi.
  destruct (Qcompare_spec (y - inject_Z (Qfloor y)) (1 # 2)) as [E | E | E].
  - destruct (Z.even (Qfloor y)).
    + split; lra.
    + rewrite inject_Z_plus. change (inject_Z 1) with 1. split; lra.
  - split; lra.
  - rewrite inject_Z_plus. change (inject_Z 1) with 1. split; lra.
Qed.

Lemma pow2_pos (k : Z) : 0 < pow2 k.
Proof.
  unfold pow2. destruct (Z.leb_spec 0 k) as [H | H].
  - assert (0 < 2 ^ k)%Z by (apply Z.pow_pos_nonneg; lia).
    unfold Qlt. cbn [inject_Z Qnum Qden]. lia.
  - unfold Qlt. cbn [Qnum Qden]. lia.
Qed.

Lemma exponentOf_le (a : Q) : 0 < a -> pow2 (exponentOf a) <= a.
Proof.
  intro Ha. unfold exponentOf.
  destruct (Qle_bool (pow2 (Z.log2 (Qnum a) - Z.log2 (Z.pos (Qden a)))) a) eqn:E.
  - now apply Qle_bool_iff.
  - clear E. destruct a as [n d]. cbn [Qnum Qden].
    assert (Hn : (0 < n)%Z) by (unfold Qlt in Ha; cbn [Qnum Qden] in Ha; lia).
    destruct (Z.log2_spec n Hn) as [Hn1 _].
    destruct (Z.log2_spec (Z.pos d) (Pos2Z.is_pos d)) as [_ Hd2].
    pose proof (Z.log2_nonneg n) as Hln. pose proof (Z.log2_nonneg (Z.pos d)) as Hld.
    set (ln := Z.log2 n) in *. set (ld := Z.log2 (Z.pos d)) in *.
    unfold pow2. destruct (Z.leb_spec 0 (ln - ld - 1)) as [H | H].
    + unfold Qle. cbn [inject_Z Qnum Qden]. rewrite Z.mul_1_r.
      assert (E : (2 ^ ln = 2 ^ (ln - ld - 1) * 2 ^ Z.succ ld)%Z)
        by (rewrite <- Z.pow_add_r by lia; f_equal; lia).
      assert (0 < 2 ^ (ln - ld - 1))%Z by (apply Z.pow_pos_nonneg; lia).
      nia.
    + unfold Qle. cbn [Qnum Qden]. rewrite Z.mul_1_l.
      assert (Hp : (0 < 2 ^ (- (ln - ld - 1)))%Z) by (apply Z.pow_pos_nonneg; lia).
      rewrite Z2Pos.id by assumption.
      assert (E : (2 ^ Z.succ ld = 2 ^ ln * 2 ^ (- (ln - ld - 1)))%Z)
        by (rewrite <- Z.pow_add_r by lia; f_equal; lia).
      nia.
Qed.

Lemma binary64_magnitude (a : Q) :
  0 < a ->
  let ulp := pow2 (Z.max (exponentOf a) (-1022)) * (1 # 4503599627370496) in
  - (unitRoundoff * (a + 1))
  <= Qred (inject_Z (roundHalfEven (a / ulp)) * ulp) - a
  <= unitRoundoff * (a + 1).
Proof.
  intros Ha ulp. rewrite Qred_correct.
  assert (Hp : pow2 (Z.max (exponentOf a) (-1022)) <= a + 1).
  { destruct (Z.max_spec (exponentOf a) (-1022)) as [[_ ->] | [_ ->]].
    - apply Qle_trans with 1; [|lra]. vm_compute. discriminate.
    - pose proof (exponentOf_le a Ha). lra. }
  pose proof (pow2_pos (Z.max (exponentOf a) (-1022))) as Hpos.
  assert (Hulp : 0 < ulp) by (unfold ulp; lra).
  pose proof (roundHalfEven_close (a / ulp)) as [H1 H2].
  set (m := inject_Z (roundHalfEven (a / ulp))) in *.
  assert (E : m * ulp - a == ulp * (m - a / ulp)) by (field; lra).
  rewrite E. unfold unitRoundoff.
  assert (K : ulp == pow2 (Z.max (exponentOf a) (-1022)) * (1 # 4503599627370496))
    by reflexivity.
  set (p := pow2 (Z.max (exponentOf a) (-1022))) in *.
  set (t := m - a / ulp) in *.
  split; nra.
Qed.

Lemma binary64_close (x : Q) :
  Qabs (binary64 x - x) <= unitRoundoff * (Qabs x + 1).
Proof.
  unfold binary64.
  destruct (Qeq_bool x 0) eqn:E0.
  - apply Qeq_bool_iff in E0. rewrite E0. vm_compute. discriminate.
  - assert (Hx : ~ x == 0) by (intro K; apply Qeq_bool_iff in K; congruence).
    assert (Ha : 0 < Qabs x).
    { destruct (Qlt_le_dec 0 (Qabs x)) as [H | H]; [assumption|].
      exfalso. apply Hx. pose proof (Qabs_nonneg x).
      apply Qabs_Qle_condition in H. lra. }
    pose proof (binary64_magnitude (Qabs x) Ha) as [H1 H2]. cbv zeta in H1, H2.
    apply Qabs_Qle_condition.
    set (r := Qred _) in *.
    destruct (Qle_bool 0 x) eqn:Es.
    + apply Qle_bool_iff in Es. pose proof (Qabs_pos x Es). split; lra.
    + assert (Hn : x <= 0).
      { destruct (Qlt_le_dec 0 x) as [H | H]; [|assumption].
        apply Qlt_le_weak, Qle_bool_iff in H. congruence. }
      pose proof (Qabs_neg x Hn). split; lra.
Qed.

(** The doubles of 0.1 and of 0.1 + 0.2, a tie between two doubles (which
    goes to the even one), and a tie at the smallest spacing. *)
Example binary64_samples :
  binary64 (1 # 10) = 3602879701896397 # 36028797018963968
  /\ binary64 (binary64 (1 # 10) + binary64 (2 # 10))
     = 1351079888211149 # 4503599627370496
  /\ binary64 9007199254740993 = 9007199254740992
  /\ binary64 9007199254740995 = 9007199254740996
  /\ binary64 (pow2 (-1074) * (3 # 2)) = Qred (pow2 (-1073))
  /\ binary64 (- (7 # 10)) == - binary64 (7 # 10).
Proof. repeat split; vm_compute; reflexivity. Qed.

Lemma binary64_near (x M : Q) :
  - M <= x <= M ->
  x - unitRoundoff * (M + 1) <= binary64 x <= x + unitRoundoff * (M + 1).
Proof.
  intro H. pose proof (binary64_close x) as K.
  apply Qabs_Qle_condition in K.
  assert (Ha : Qabs x <= M) by (apply Qabs_Qle_condition; lra).
  unfold unitRoundoff in *. split; lra.
Qed.

End Rounding.

(** ** Multimodal fusion *)

Section Fusion.

Import JsNum EmotionAnalysis.

Lemma weightedAverage_eq (x y : Q) :
  Spec.weightedAverage x y == (8 # 10) * x + (2 # 10) * y.
Proof. unfold Spec.weightedAverage. field. Qed.

(** The literals of [fuseEmotionResults], as doubles. *)
Lemma fusion_literals :
  ((8 # 10) - (1 # 10000000000000000) <= textWeight
   /\ textWeight <= (8 # 10) + (1 # 10000000000000000))
  /\ ((2 # 10) - (1 # 10000000000000000) <= audioWeight
      /\ audioWeight <= (2 # 10) + (1 # 10000000000000000))
  /\ ((12 # 10) - (1 # 10000000000000000) <= binary64 (12 # 10)
      /\ binary64 (12 # 10) <= (12 # 10) + (1 # 10000000000000000))
  /\ ((95 # 100) - (1 # 10000000000000000) <= binary64 (95 # 100)
      /\ binary64 (95 # 100) <= (95 # 100) + (1 # 10000000000000000))
  /\ ((8 # 10) - (1 # 10000000000000000) <= binary64 (8 # 10)
      /\ binary64 (8 # 10) <= (8 # 10) + (1 # 10000000000000000)).
Proof. vm_compute. repeat split; discriminate. Qed.

(** The weighted sum of the source is within [10^-12] of the exact weighted
    average. *)
Lemma weighted_close (x y : Q) :
  -1000 <= x <= 1000 -> -1000 <= y <= 1000 ->
  Spec.weightedAverage x y - (1 # 1000000000000) <= weighted x y
  /\ weighted x y <= Spec.weightedAverage x y + (1 # 1000000000000).
Proof.
  intros Hx Hy. destruct fusion_literals as (Ht & Ha & _).
  unfold weighted. rewrite weightedAverage_eq.
  pose proof (product_near x (8 # 10) textWeight 1000 (1 # 10000000000000000) Hx Ht)
    as [P1 P2].
  pose proof (product_near y (2 # 10) audioWeight 1000 (1 # 10000000000000000) Hy Ha)
    as [P3 P4].
  set (p := x * textWeight) in *. set (q := y * audioWeight) in *.
  destruct (binary64_near p 801) as [B1 B2]; [lra|].
  destruct (binary64_near q 201) as [B3 B4]; [lra|].
  destruct (binary64_near (binary64 p + binary64 q) 1003) as [B5 B6];
    [unfold unitRoundoff in *; lra|].
  unfold unitRoundoff in *. lra.
Qed.

(** Multiplying an averaged confidence by the double of a literal [k]. *)
Lemma scaled_close (c c' k k' : Q) :
  -1000 <= c <= 1000 ->
  c - (1 # 1000000000000) <= c' <= c + (1 # 1000000000000) ->
  0 <= k <= 2 ->
  k - (1 # 10000000000000000) <= k' <= k + (1 # 10000000000000000) ->
  c * k - (1 # 100000000000) <= binary64 (c' * k')
  /\ binary64 (c' * k') <= c * k + (1 # 100000000000).
Proof.
  intros Hc Hc' Hk Hk'.
  assert (Hb : -1001 <= c' <= 1001) by lra.
  pose proof (product_near c' k k' 1001 (1 # 10000000000000000) Hb Hk') as [P1 P2].
  assert (P3 : c * k - (2 # 1000000000000) <= c' * k <= c * k + (2 # 1000000000000))
    by (split; nra).
  assert (P4 : -2000 <= c * k <= 2000) by (split; nra).
  set (p := c' * k') in *. set (q := c' * k) in *. set (r := c * k) in *.
  destruct (binary64_near p 2001) as [B1 B2]; [lra|].
  unfold unitRoundoff in *. lra.
Qed.

Lemma weightedAverage_bounds (lo hi x y : Q) :
  lo <= x <= hi -> lo <= y <= hi ->
  lo <= Spec.weightedAverage x y <= hi.
Proof. intros Hx Hy. rewrite weightedAverage_eq. lra. Qed.


(** What [finalConfidence] computes, next to the exact value. *)
Lemma finalConfidence_close (t a : EmotionResult) :
  -1000 <= confidence t <= 1000 -> -1000 <= confidence a <= 1000 ->
  let c := Spec.weightedAverage (confidence t) (confidence a) in
  let exact := if emotionsMatch t a then Qmin (c * (12 # 10)) (95 # 100)
               else c * (8 # 10) in
  exact - (1 # 100000000000) <= finalConfidence t a
  /\ finalConfidence t a <= exact + (1 # 100000000000).
Proof.
  intros Ht Ha c exact. subst exact.
  destruct fusion_literals as (_ & _ & H12 & H95 & H8).
  pose proof (weighted_close _ _ Ht Ha) as Hw.
  pose proof (weightedAverage_bounds (-1000) 1000 _ _ Ht Ha) as Hc.
  fold c in Hw, Hc. unfold finalConfidence, weightedConfidence.
  set (c' := weighted (confidence t) (confidence a)) in *.
  destruct (emotionsMatch t a).
  - assert (K : 0 <= 12 # 10 <= 2) by lra.
    pose proof (scaled_close c c' (12 # 10) (binary64 (12 # 10)) Hc Hw K H12) as S.
    apply Qmin_near; [exact S | lra].
  - assert (K : 0 <= 8 # 10 <= 2) by lra.
    exact (scaled_close c c' (8 # 10) (binary64 (8 # 10)) Hc Hw K H8).
Qed.



(** The mock audio intensity [0.6 + 0.75 * 0.3] fused with a text intensity
    of 0: the exact weighted average is 0.165, a rounding tie; the doubles
    of the source give 0.17. *)
Example fuse_at_a_rounding_tie :
  intensity (fuseEmotionResults Samples.flatText Samples.happyAudio) == 17 # 100.
Proof. vm_compute. reflexivity. Qed.

(** Away from a tie the reported value is the two-decimal rounding of the
    exact one: 0.8 x 0.33 + 0.2 x 0.5 = 0.364 is reported as 0.36. *)
Example fuse_reports_two_decimals :
  intensity (fuseEmotionResults Samples.mildText Samples.sadAudio) == 36 # 100
  /\ 3639 # 10000
     < Spec.weightedAverage (intensity Samples.mildText) (intensity Samples.sadAudio)
  /\ Spec.weightedAverage (intensity Samples.mildText) (intensity Samples.sadAudio)
     < 3641 # 10000.
Proof. repeat split; vm_compute; reflexivity. Qed.

(** C6, as stated, fails: a text result of confidence 0.1 and an audio
    result of confidence 0.6 that agree are fused to confidence 0.24, below
    0.8 x 0.6 = 0.48. *)
Lemma fuse_agreement_below_max_floor :
  strictEquals (emotion Samples.hesitantText) (emotion Samples.sadAudio) = true
  /\ confidence (fuseEmotionResults Samples.hesitantText Samples.sadAudio) == 24 # 100
  /\ ~ (Qmax (confidence Samples.hesitantText) (confidence Samples.sadAudio) * (8 # 10)
        <= confidence (fuseEmotionResults Samples.hesitantText Samples.sadAudio)).
Proof.
  split; [reflexivity|]. split; [vm_compute; reflexivity|].
  intro H. vm_compute in H. apply H. reflexivity.
Qed.

(** C6, amended.  For confidences in [0,1] and agreeing emotions, the fused
    confidence is at least 0.8 times the weighted average of the two
    confidences, to two decimals: agreement never yields less than the same
    pair of confidences yields under disagreement. *)
Theorem fuse_agreement_above_disagreement_floor (t a : EmotionResult) :
  0 <= confidence t <= 1 ->
  0 <= confidence a <= 1 ->
  strictEquals (emotion t) (emotion a) = true ->
  toFixed (Spec.weightedAverage (confidence t) (confidence a) * (8 # 10)) 2
  <= confidence (fuseEmotionResults t a).
Proof.
  intros Ht Ha E.
  assert (Ht' : -1000 <= confidence t <= 1000) by lra.
  assert (Ha' : -1000 <= confidence a <= 1000) by lra.
  pose proof (finalConfidence_close t a Ht' Ha') as HC. cbv zeta in HC.
  pose proof (weightedAverage_bounds 0 1 _ _ Ht Ha) as Hw.
  unfold emotionsMatch in HC. rewrite E in HC.
  unfold fuseEmotionResults. cbn [confidence].
  set (w := Spec.weightedAverage (confidence t) (confidence a)) in *.
  set (c := finalConfidence t a) in *.
  assert (Hcap : (94 # 100) <= c \/ w * (12 # 10) - (1 # 100000000000) <= c /\ w <= 8 # 10).
  { destruct HC as [HC _].
    destruct (Q.min_spec (w * (12 # 10)) (95 # 100)) as [[K1 K] | [K1 K]];
      rewrite K in HC; [right; split; lra | left; lra]. }
  destruct (Qlt_le_dec w (1 # 1000)) as [Hsmall | Hbig].
  - apply Qle_trans with (toFixed (1 # 1000) 2); [apply toFixed_mono; lra|].
    apply Qle_trans with (toFixed (- (1 # 1000)) 2); [vm_compute; discriminate|].
    apply toFixed_mono. destruct Hcap as [K | [K _]]; lra.
  - apply toFixed_mono. destruct Hcap as [K | [K _]]; lra.
Qed.

Lemma fuse_agreement_above_disagreement_floor_witness :
  toFixed (Spec.weightedAverage (confidence Samples.hesitantText)
                                (confidence Samples.sadAudio) * (8 # 10)) 2
  <= confidence (fuseEmotionResults Samples.hesitantText Samples.sadAudio).
Proof.
  apply (fuse_agreement_above_disagreement_floor Samples.hesitantText Samples.sadAudio).
  - split; vm_compute; discriminate.
  - split; vm_compute; discriminate.
  - reflexivity.
Defined.

End Fusion.

(** ** The lexicon classifier and the classification pipeline *)

Section ClassifierProperties.

Import JsNum EmotionAnalysis.
Local Open Scope string_scope.

Variable tokenize : string -> list string.
Variable sentimentScore : string -> Q.
Variable callProvider : provider -> string -> reply.

Lemma pickPrimary_from (scores : list (string * nat)) (init : string * nat) :
  let best := fold_left (fun best entry =>
                           if (snd best <? snd entry)%nat then entry else best)
                        scores init in
  best = init \/ In best scores.
Proof.
  revert init. induction scores as [|e rest IH]; intro init; simpl.
  - now left.
  - destruct (IH (if (snd init <? snd e)%nat then e else init)) as [H|H].
    + destruct (snd init <? snd e)%nat; rewrite H; [right; now left | now left].
    + right. now right.
Qed.

Lemma emotionScores_keys (text : string) :
  map fst (emotionScoresOf text) = map fst emotionKeywords.
Proof. unfold emotionScoresOf. rewrite map_map. now apply map_ext. Qed.

Lemma pickPrimary_label (text : string) :
  In (fst (pickPrimary (emotionScoresOf text)))
     ["happy"; "sad"; "angry"; "anxious"; "calm"; "neutral"].
Proof.
  destruct (pickPrimary_from (emotionScoresOf text) ("neutral", O)) as [H|H];
    fold (pickPrimary (emotionScoresOf text)) in H.
  - rewrite H. simpl. tauto.
  - apply (in_map fst) in H. rewrite emotionScores_keys in H.
    simpl in H. simpl. tauto.
Qed.

Lemma primary_label (text : string) :
  In (fst (primaryOf tokenize sentimentScore text))
     ["happy"; "sad"; "angry"; "anxious"; "calm"; "neutral"].
Proof.
  unfold primaryOf.
  destruct (0 <? totalMatchesOf text)%nat; [apply pickPrimary_label|].
  destruct (hasNegativeWords text || Qlt_bool (sentimentScore text) (-1));
    [simpl; tauto|].
  destruct (Qlt_bool 3 (sentimentScore text)); simpl; tauto.
Qed.

Lemma ratio_nonneg (a : nat) (p : positive) : 0 <= Z.of_nat a # p.
Proof. unfold Qle. simpl. lia. Qed.

Lemma primary_intensity_unit (text : string) :
  0 <= snd (primaryOf tokenize sentimentScore text) <= 1.
Proof.
  unfold primaryOf.
  destruct (0 <? totalMatchesOf text)%nat; cbn [snd].
  - unfold divCount.
    destruct (List.length (tokenize (cleanTextOf text))); [lra|].
    split; [|apply Q.le_min_r].
    apply Q.min_glb; [|lra].
    pose proof (ratio_nonneg (snd (pickPrimary (emotionScoresOf text)))
                             (Pos.of_nat (S n))).
    pose proof (Qabs_nonneg (sentimentScore text / 10)). lra.
  - destruct (hasNegativeWords text || Qlt_bool (sentimentScore text) (-1)); cbn [snd].
    + pose proof (Qabs_nonneg (sentimentScore text)).
      split; [apply Q.min_glb; [apply Qle_shift_div_l|]; lra|].
      apply Qle_trans with (8 # 10); [apply Q.le_min_r | lra].
    + destruct (Qlt_bool 3 (sentimentScore text)) eqn:E; cbn [snd]; [|lra].
      apply Qlt_bool_iff in E.
      split; [apply Q.min_glb; [apply Qle_shift_div_l|]; lra|].
      apply Qle_trans with (9 # 10); [apply Q.le_min_r | lra].
Qed.

Lemma raw_confidence_unit (text : string) :
  0 <= rawConfidenceOf sentimentScore text <= 1.
Proof.
  unfold rawConfidenceOf.
  destruct (0 <? totalMatchesOf text)%nat.
  - split.
    + apply Q.min_glb; [|lra].
      assert (0 <= inject_Z (Z.of_nat (snd (pickPrimary (emotionScoresOf text)))))
        by (unfold Qle; simpl; lia).
      lra.
    + apply Qle_trans with (9 # 10); [apply Q.le_min_r | lra].
  - pose proof (Qabs_nonneg (sentimentScore text)). split.
    + apply Q.min_glb; lra.
    + apply Qle_trans with (7 # 10); [apply Q.le_min_r | lra].
Qed.

Lemma keywords_wellFormed (text : string) :
  Spec.wellFormed (analyzeTextWithKeywords tokenize sentimentScore text).
Proof.
  unfold Spec.wellFormed; simpl. repeat split.
  - apply toFixed_unit, primary_intensity_unit.
  - apply toFixed_unit, primary_intensity_unit.
  - apply toFixed_unit, raw_confidence_unit.
  - apply toFixed_unit, raw_confidence_unit.
  - eexists. split; [reflexivity|].
    pose proof (primary_label text) as H. simpl in H. simpl. tauto.
Qed.

Lemma keywords_label (text : string) :
  exists label,
    emotion (analyzeTextWithKeywords tokenize sentimentScore text) = Some (JStr label)
    /\ In label ["happy"; "sad"; "angry"; "anxious"; "calm"; "neutral"].
Proof. eexists. split; [reflexivity | apply primary_label]. Qed.

Lemma asNumber_some (v : jsval) (q : Q) : asNumber v = Some q -> v = Some (JNum q).
Proof. destruct v as [[| | | | |]|]; simpl; congruence. Qed.

Lemma tryAI_some (env : Env) (text : string) (r : EmotionResult) :
  tryAI callProvider env text = Some r ->
  exists p j i c,
    selectProvider env = Some p /\ callProvider p text = Parsed j
    /\ getProp j "intensity" = Some (JNum i)
    /\ getProp j "confidence" = Some (JNum c)
    /\ r = {| emotion := getProp j "emotion";
              intensity := toFixed i 2;
              confidence := toFixed c 2;
              analysis_method := ai_powered |}.
Proof.
  unfold tryAI. intro H.
  destruct (selectProvider env) as [p|]; [|discriminate].
  destruct (callProvider p text) as [why|j] eqn:Ecall; [discriminate|].
  exists p, j.
  assert (K : (if interpolationThrows (getProp j "emotion")
                  || interpolationThrows (getProp j "intensity")
               then None
               else match asNumber (getProp j "intensity"),
                          asNumber (getProp j "confidence") with
                    | Some i, Some c =>
                        Some {| emotion := getProp j "emotion";
                                intensity := toFixed i 2;
                                confidence := toFixed c 2;
                                analysis_method := ai_powered |}
                    | _, _ => None
                    end) = Some r)
    by (destruct j; [discriminate| | | | |]; exact H).
  clear H.
  destruct (interpolationThrows (getProp j "emotion")
            || interpolationThrows (getProp j "intensity")); [discriminate|].
  destruct (asNumber (getProp j "intensity")) as [i|] eqn:Ei; [|discriminate].
  destruct (asNumber (getProp j "confidence")) as [c|] eqn:Ec; [|discriminate].
  exists i, c. apply asNumber_some in Ei, Ec.
  repeat split; try assumption. congruence.
Qed.

End ClassifierProperties.

Section NegativePrefixes.

Import JsString.

Lemma sameCharI_refl (c : ascii) : sameCharI c c = true.
Proof. unfold sameCharI. apply Ascii.eqb_refl. Qed.

Lemma matchLiteral_self (lit post : list ascii) (before : option ascii) :
  exists last, matchLiteral lit before (lit ++ post) = Some (last, post).
Proof.
  revert before. induction lit as [|k lit IH]; intros prev; simpl.
  - now exists prev.
  - rewrite sameCharI_refl. apply IH.
Qed.

Lemma testWordPrefixFrom_unfold (prefixes : list string) (before : option ascii)
  (s : list ascii) :
  testWordPrefixFrom prefixes before s
  = (wordBoundary before (hd_error s)
     && existsb (fun p => match matchLiteral (chars p) before s with
                          | Some _ => true
                          | None => false
                          end) prefixes)
    || match s with
       | [] => false
       | c :: rest => testWordPrefixFrom prefixes (Some c) rest
       end.
Proof. destruct s; reflexivity. Qed.

(** The negative-word test succeeds on any text in which one of the prefixes
    starts at a word boundary, whatever follows it. *)
Lemma negative_prefix_detected (prefixes : list string) (p : string)
  (pre post : list ascii) (before : option ascii) :
  In p prefixes ->
  wordBoundary (fold_left (fun _ c => Some c) pre before)
               (hd_error (chars p ++ post)) = true ->
  testWordPrefixFrom prefixes before (pre ++ chars p ++ post) = true.
Proof.
  intros Hp. revert before. induction pre as [|c pre IH]; intros prev Hb.
  - rewrite testWordPrefixFrom_unfold. cbn [fold_left app] in *. rewrite Hb.
    apply orb_true_iff. left. cbn [andb].
    apply existsb_exists. exists p. split; [assumption|].
    destruct (matchLiteral_self (chars p) post prev) as [last ->]. reflexivity.
  - rewrite testWordPrefixFrom_unfold. apply orb_true_iff. right.
    cbn [app]. apply IH. exact Hb.
Qed.

End NegativePrefixes.

Section Classification.

Import JsNum EmotionAnalysis.
Local Open Scope string_scope.

Variable tokenize : string -> list string.
Variable sentimentScore : string -> Q.
Variable callProvider : provider -> string -> reply.

Local Abbreviation classify := (analyzeText tokenize sentimentScore callProvider).
Local Abbreviation lexicon := (analyzeTextWithKeywords tokenize sentimentScore).

Lemma classify_string (startEnv env : Env) (s : string) :
  s <> "" ->
  classify startEnv env (InString s)
  = Returned (if useAI startEnv
              then match tryAI callProvider env s with
                   | Some r => r
                   | None => lexicon s
                   end
              else lexicon s).
Proof.
  intro Hs. unfold analyzeText, analyzeTextWithAI.
  destruct (String.eqb_spec s ""); [contradiction|].
  now destruct (useAI startEnv).
Qed.

Lemma tryAI_failed (env : Env) (s : string) (p : provider) (why : failure) :
  selectProvider env = Some p -> callProvider p s = Failed why ->
  tryAI callProvider env s = None.
Proof. intros Hp Hc. unfold tryAI. now rewrite Hp, Hc. Qed.

Lemma tryAI_not_numeric (env : Env) (s : string) (p : provider) (j : json) :
  selectProvider env = Some p -> callProvider p s = Parsed j ->
  asNumber (getProp j "intensity") = None
  \/ asNumber (getProp j "confidence") = None ->
  tryAI callProvider env s = None.
Proof.
  intros Hp Hc Hn. unfold tryAI. rewrite Hp, Hc.
  assert (K : (if interpolationThrows (getProp j "emotion")
                  || interpolationThrows (getProp j "intensity")
               then None
               else match asNumber (getProp j "intensity"),
                          asNumber (getProp j "confidence") with
                    | Some i, Some c =>
                        Some {| emotion := getProp j "emotion";
                                intensity := toFixed i 2;
                                confidence := toFixed c 2;
                                analysis_method := ai_powered |}
                    | _, _ => None
                    end) = None).
  { destruct (interpolationThrows (getProp j "emotion")
              || interpolationThrows (getProp j "intensity")); [reflexivity|].
    destruct Hn as [-> | ->]; [reflexivity|].
    now destruct (asNumber (getProp j "intensity")). }
  destruct j; [reflexivity | exact K ..].
Qed.

(** X15.  Every result [analyzeText] returns for a string either is the
    keyword analysis, whose intensity and confidence lie in [0,1] and whose
    emotion is one of happy, sad, angry, anxious, calm and neutral, or
    repeats a parsed provider reply: the reply's [emotion] as it came and
    its numeric [intensity] and [confidence] rounded to two decimals. *)
Theorem classify_result_shape (startEnv env : Env) (s : string) (r : EmotionResult) :
  classify startEnv env (InString s) = Returned r ->
  (r = lexicon s
   /\ 0 <= intensity r <= 1 /\ 0 <= confidence r <= 1
   /\ exists label,
        emotion r = Some (JStr label)
        /\ In label ["happy"; "sad"; "angry"; "anxious"; "calm"; "neutral"])
  \/ (exists p j i c,
         selectProvider env = Some p /\ callProvider p s = Parsed j
         /\ getProp j "intensity" = Some (JNum i)
         /\ getProp j "confidence" = Some (JNum c)
         /\ r = {| emotion := getProp j "emotion";
                   intensity := toFixed i 2;
                   confidence := toFixed c 2;
                   analysis_method := ai_powered |}).
Proof.
  intro H.
  assert (Hs : s <> "").
  { intros ->. unfold analyzeText in H. simpl in H. discriminate. }
  rewrite (classify_string _ _ _ Hs) in H. injection H as <-.
  assert (K : 0 <= intensity (lexicon s) <= 1 /\ 0 <= confidence (lexicon s) <= 1
              /\ exists label,
                   emotion (lexicon s) = Some (JStr label)
                   /\ In label ["happy"; "sad"; "angry"; "anxious"; "calm"; "neutral"]).
  { destruct (keywords_wellFormed tokenize sentimentScore s) as (Hi & Hc & _).
    split; [exact Hi|]. split; [exact Hc|]. apply keywords_label. }
  destruct (useAI startEnv).
  - destruct (tryAI callProvider env s) as [r|] eqn:E.
    + right. now apply tryAI_some.
    + left. split; [reflexivity | exact K].
  - left. split; [reflexivity | exact K].
Qed.

(** X16.  [analyzeText] throws exactly when its argument is not a non-empty
    string, and returns a result otherwise.  A provider call that fails
    (network error, timeout, HTTP error, unexpected body, malformed JSON)
    and a parsed reply whose intensity or confidence is not a number never
    reach the caller: the keyword analysis of the same text is returned. *)
Theorem classify_throws_only_on_invalid_input (startEnv env : Env) (x : input) :
  ((exists message, classify startEnv env x = Threw message) <-> Spec.invalidInput x)
  /\ (~ Spec.invalidInput x -> exists r, classify startEnv env x = Returned r)
  /\ (forall s p why,
         x = InString s -> s <> "" ->
         selectProvider env = Some p -> callProvider p s = Failed why ->
         classify startEnv env x = Returned (lexicon s))
  /\ (forall s p j,
         x = InString s -> s <> "" ->
         selectProvider env = Some p -> callProvider p s = Parsed j ->
         asNumber (getProp j "intensity") = None
         \/ asNumber (getProp j "confidence") = None ->
         classify startEnv env x = Returned (lexicon s)).
Proof.
  split; [|split; [|split]].
  - destruct x as [| | b | q | s |];
      try (split; [intros _; exact I | intros _; eexists; reflexivity]).
    split.
    + intros [message H].
      destruct (String.eqb_spec s "") as [E|E]; [exact E|].
      rewrite (classify_string _ _ _ E) in H. discriminate.
    + intros E. change (s = "") in E. subst s. eexists. reflexivity.
  - destruct x as [| | b | q | s |]; try (intro H; exfalso; apply H; exact I).
    intro H. change (s <> "") in H. rewrite (classify_string _ _ _ H).
    eexists. reflexivity.
  - intros s p why -> Hs Hp Hc. rewrite (classify_string _ _ _ Hs).
    rewrite (tryAI_failed _ _ _ _ Hp Hc). now destruct (useAI startEnv).
  - intros s p j -> Hs Hp Hc Hn. rewrite (classify_string _ _ _ Hs).
    rewrite (tryAI_not_numeric _ _ _ _ Hp Hc Hn). now destruct (useAI startEnv).
Qed.

(** C10, amended.  With no keyword match in any emotion's set, the emotion
    depends on the negative-word test and the sentiment score only: a word
    that starts with one of the negative prefixes, or a score below -1,
    gives sad; otherwise a score above 3 gives happy; otherwise (a score
    from -1 to 3) neutral. *)
Theorem lexicon_sentiment_fallback (text : string) :
  totalMatchesOf text = 0%nat ->
  (hasNegativeWords text = true \/ sentimentScore text < -1 ->
   emotion (lexicon text) = Some (JStr "sad"))
  /\ (hasNegativeWords text = false -> -1 <= sentimentScore text ->
      3 < sentimentScore text ->
      emotion (lexicon text) = Some (JStr "happy"))
  /\ (hasNegativeWords text = false -> -1 <= sentimentScore text <= 3 ->
      emotion (lexicon text) = Some (JStr "neutral")).
Proof.
  intro H0. unfold analyzeTextWithKeywords, primaryOf; simpl emotion.
  rewrite H0. change (0 <? 0)%nat with false. cbv iota.
  split; [|split].
  - intros [Hn | Hs].
    + now rewrite Hn.
    + apply Qlt_bool_iff in Hs. rewrite Hs, orb_true_r. reflexivity.
  - intros Hn Hlo Hhi. apply Qlt_bool_false_iff in Hlo. apply Qlt_bool_iff in Hhi.
    now rewrite Hn, Hlo, Hhi.
  - intros Hn [Hlo Hhi]. apply Qlt_bool_false_iff in Hlo, Hhi.
    now rewrite Hn, Hlo, Hhi.
Qed.

End Classification.

Section ClassificationExamples.

Import JsNum EmotionAnalysis Samples.
Local Open Scope string_scope.

Lemma classify_result_shape_witness :
  exists label,
    emotion (analyzeTextWithKeywords wordTokens lexiconScore
                                     "I feel wonderful and happy today")
    = Some (JStr label)
    /\ In label ["happy"; "sad"; "angry"; "anxious"; "calm"; "neutral"].
Proof.
  destruct (classify_result_shape wordTokens lexiconScore timedOutProvider
              noKeys noKeys "I feel wonderful and happy today"
              (analyzeTextWithKeywords wordTokens lexiconScore
                                       "I feel wonderful and happy today"))
    as [(_ & _ & _ & H) | (p & _ & _ & _ & H & _)].
  - reflexivity.
  - exact H.
  - discriminate H.
Defined.

(** C1.  The claim fails on the remote path, at the reply
    [{emotion: 'furious', intensity: 1.5, confidence: 2}]: the reply parses
    and is passed on with its label outside the closed set and its
    intensity and confidence above 1, neither clamped nor replaced. *)
Lemma classify_remote_reply_unchecked :
  analyzeText wordTokens lexiconScore offScaleProvider geminiOnly geminiOnly
              (InString "I feel fine")
  = Returned {| emotion := Some (JStr "furious");
                intensity := 3 # 2;
                confidence := 2;
                analysis_method := ai_powered |}
  /\ ~ Spec.wellFormed {| emotion := Some (JStr "furious");
                          intensity := 3 # 2;
                          confidence := 2;
                          analysis_method := ai_powered |}.
Proof.
  split; [reflexivity|].
  intros ([_ H] & _). vm_compute in H. apply H. reflexivity.
Qed.

(** C5.  The claim fails for a reply that violates the schema with numbers
    in place: the same reply, off the label set and off the scale, is
    returned to the caller as the result, where the keyword analysis of the
    text would have been neutral. *)
Lemma classify_off_schema_reply_returned :
  (exists r,
      analyzeText wordTokens lexiconScore offScaleProvider geminiOnly geminiOnly
                  (InString "I feel fine") = Returned r
      /\ emotion r = Some (JStr "furious")
      /\ analysis_method r = ai_powered)
  /\ emotion (analyzeTextWithKeywords wordTokens lexiconScore "I feel fine")
     = Some (JStr "neutral")
  /\ analyzeText wordTokens lexiconScore offScaleProvider geminiOnly geminiOnly
                 (InString "I feel fine")
     <> Returned (analyzeTextWithKeywords wordTokens lexiconScore "I feel fine").
Proof.
  split; [eexists; split; [reflexivity | split; reflexivity]|].
  split; [reflexivity|]. intro H. vm_compute in H. discriminate H.
Qed.

Lemma classify_throws_only_on_invalid_input_witness :
  analyzeText wordTokens lexiconScore timedOutProvider geminiOnly geminiOnly
              (InString "I feel fine")
  = Returned (analyzeTextWithKeywords wordTokens lexiconScore "I feel fine").
Proof.
  apply (proj1 (proj2 (proj2 (classify_throws_only_on_invalid_input
                                wordTokens lexiconScore timedOutProvider
                                geminiOnly geminiOnly (InString "I feel fine"))))
               "I feel fine" Gemini Timeout).
  - reflexivity.
  - discriminate.
  - reflexivity.
  - reflexivity.
Defined.

(** The keyword analysis of two transcripts, with the sample tokenizer and
    sentiment scorer. *)
Example lexicon_happy_transcript :
  analyzeTextWithKeywords wordTokens lexiconScore "I feel wonderful and happy today"
  = {| emotion := Some (JStr "happy"); intensity := 1; confidence := 9 # 10;
       analysis_method := keyword_sentiment_hybrid |}.
Proof. reflexivity. Qed.

Example lexicon_anxious_transcript :
  emotion (analyzeTextWithKeywords wordTokens lexiconScore
                                   "I am so anxious and worried about tomorrow")
  = Some (JStr "anxious").
Proof. reflexivity. Qed.

(** What the negative-word test accepts: any word that starts with one of
    the prefixes, wherever it stands. *)
Example negative_word_test_samples :
  hasNegativeWords "I am not sure" = true
  /\ hasNegativeWords "Feeling UNWELL" = true
  /\ hasNegativeWords "we discover new things" = true
  /\ hasNegativeWords "right now" = true
  /\ hasNegativeWords "what a fun day" = false
  /\ hasNegativeWords "sorry" = false.
Proof. repeat split; reflexivity. Qed.

(** C10, as stated, fails: "sorry" has no keyword match and a negative
    sentiment score (-1), yet it is labelled neutral, not sad. *)
Lemma lexicon_mild_negative_is_neutral :
  totalMatchesOf "sorry" = 0%nat
  /\ lexiconScore "sorry" < 0
  /\ emotion (analyzeTextWithKeywords wordTokens lexiconScore "sorry")
     = Some (JStr "neutral")
  /\ emotion (analyzeTextWithKeywords wordTokens lexiconScore "sorry")
     <> Some (JStr "sad").
Proof. repeat split; try reflexivity. discriminate. Qed.

Lemma lexicon_sentiment_fallback_witness :
  emotion (analyzeTextWithKeywords wordTokens lexiconScore "I am not sure")
  = Some (JStr "sad").
Proof.
  apply (proj1 (lexicon_sentiment_fallback wordTokens lexiconScore "I am not sure"
                                           eq_refl)).
  left. reflexivity.
Defined.

End ClassificationExamples.

(** ** Session aggregation *)

Section FirstOccurrence.

Import Spec.

Lemma firstIndex_le_length (k : string) (l : list string) :
  (firstIndex k l <= List.length l)%nat.
Proof.
  induction l as [|x l IH]; simpl; [lia|].
  destruct (String.eqb x k); lia.
Qed.

Lemma firstIndex_in (k : string) (l : list string) :
  In k l -> (firstIndex k l < List.length l)%nat.
Proof.
  induction l as [|x l IH]; simpl; [tauto|].
  intros [-> | H].
  - rewrite String.eqb_refl. lia.
  - destruct (String.eqb x k); [lia|]. specialize (IH H). lia.
Qed.

Lemma firstIndex_notin (k : string) (l : list string) :
  ~ In k l -> firstIndex k l = List.length l.
Proof.
  induction l as [|x l IH]; simpl; [reflexivity|].
  intro H. destruct (String.eqb_spec x k) as [E|E]; [tauto|].
  rewrite IH; tauto.
Qed.

Lemma firstIndex_app_in (k : string) (l m : list string) :
  In k l -> firstIndex k (l ++ m) = firstIndex k l.
Proof.
  induction l as [|x l IH]; simpl; [tauto|].
  intros [-> | H].
  - now rewrite String.eqb_refl.
  - destruct (String.eqb x k); [reflexivity|]. now rewrite IH.
Qed.

Lemma firstIndex_app_notin (k : string) (l m : list string) :
  ~ In k l -> firstIndex k (l ++ m) = (List.length l + firstIndex k m)%nat.
Proof.
  induction l as [|x l IH]; simpl; [reflexivity|].
  intro H. destruct (String.eqb_spec x k) as [E|E]; [tauto|].
  rewrite IH; tauto.
Qed.

Lemma firstIndex_last (k : string) (l : list string) :
  ~ In k l -> firstIndex k (l ++ [k]) = List.length l.
Proof.
  intro H. rewrite firstIndex_app_notin by assumption. simpl.
  rewrite String.eqb_refl. lia.
Qed.

Lemma occurrences_app (k : string) (l m : list string) :
  occurrences k (l ++ m) = (occurrences k l + occurrences k m)%nat.
Proof. apply count_occ_app. Qed.

Lemma occurrences_single (k x : string) :
  occurrences k [x] = if String.eqb x k then 1%nat else 0%nat.
Proof.
  unfold occurrences. simpl.
  destruct (string_dec x k) as [E|E], (String.eqb_spec x k); congruence.
Qed.

End FirstOccurrence.

Section Counting.

Import Spec SessionCompletion.

Lemma has_In (set : list string) (x : string) : has set x = true <-> In x set.
Proof.
  unfold has. rewrite existsb_exists. split.
  - intros (y & Hy & E). apply String.eqb_eq in E. now subst.
  - intro H. exists x. split; [assumption | apply String.eqb_refl].
Qed.

Lemma increment_countOf (key k : string) (counts : list (string * nat)) :
  countOf k (increment key counts)
  = if String.eqb key k then S (countOf k counts) else countOf k counts.
Proof.
  induction counts as [|[k0 n] rest IH]; simpl.
  - rewrite String.eqb_sym. now destruct (String.eqb k key).
  - destruct (String.eqb_spec k0 key) as [E|E]; simpl.
    + subst k0. now destruct (String.eqb_spec key k).
    + destruct (String.eqb_spec k0 k) as [E'|E']; [|exact IH].
      subst k0. destruct (String.eqb_spec key k); congruence.
Qed.

Lemma increment_keys (key : string) (counts : list (string * nat)) :
  map fst (increment key counts)
  = if has (map fst counts) key then map fst counts else map fst counts ++ [key].
Proof.
  induction counts as [|[k0 n] rest IH]; simpl; [reflexivity|].
  unfold has in *. simpl. rewrite (String.eqb_sym key k0).
  destruct (String.eqb k0 key); simpl; [reflexivity|].
  rewrite IH. now destruct (existsb (String.eqb key) (map fst rest)).
Qed.

Lemma countEmotions_snoc (history : list QA) (qa : QA) :
  countEmotions (history ++ [qa])
  = increment (keyOf (emotion qa)) (countEmotions history).
Proof. unfold countEmotions. now rewrite fold_left_app. Qed.

Lemma labels_snoc (history : list QA) (qa : QA) :
  labels (history ++ [qa]) = labels history ++ [keyOf (emotion qa)].
Proof. unfold labels. now rewrite map_app. Qed.

Lemma countOf_countEmotions (k : string) (history : list QA) :
  countOf k (countEmotions history) = occurrences k (labels history).
Proof.
  induction history as [|qa history IH] using rev_ind; [reflexivity|].
  rewrite countEmotions_snoc, labels_snoc, increment_countOf, occurrences_app,
    occurrences_single, IH.
  destruct (String.eqb (keyOf (emotion qa)) k); lia.
Qed.

Lemma keys_countEmotions_snoc (history : list QA) (qa : QA) :
  map fst (countEmotions (history ++ [qa]))
  = if has (map fst (countEmotions history)) (keyOf (emotion qa))
    then map fst (countEmotions history)
    else map fst (countEmotions history) ++ [keyOf (emotion qa)].
Proof. rewrite countEmotions_snoc. apply increment_keys. Qed.

Lemma keys_In (k : string) (history : list QA) :
  In k (map fst (countEmotions history)) <-> In k (labels history).
Proof.
  induction history as [|qa history IH] using rev_ind; [reflexivity|].
  rewrite keys_countEmotions_snoc, labels_snoc, in_app_iff.
  destruct (has (map fst (countEmotions history)) (keyOf (emotion qa))) eqn:E.
  - apply has_In in E. rewrite IH in *. simpl. intuition (subst; auto).
  - rewrite in_app_iff, IH. reflexivity.
Qed.

Lemma keys_NoDup (history : list QA) : NoDup (map fst (countEmotions history)).
Proof.
  induction history as [|qa history IH] using rev_ind; [constructor|].
  rewrite keys_countEmotions_snoc.
  destruct (has (map fst (countEmotions history)) (keyOf (emotion qa))) eqn:E;
    [assumption|].
  apply NoDup_app; [assumption | repeat constructor; simpl; tauto |].
  intros x Hx [<- | []].
  apply has_In in Hx. congruence.
Qed.

(** The key order of [emotionCounts] is the order of first occurrence. *)
Lemma keys_order (e d : string) (history : list QA) :
  In e (labels history) -> In d (labels history) ->
  ((firstIndex e (map fst (countEmotions history))
    < firstIndex d (map fst (countEmotions history)))%nat
   <-> (firstIndex e (labels history) < firstIndex d (labels history))%nat).
Proof.
  induction history as [|qa history IH] using rev_ind; [simpl; tauto|].
  set (k := keyOf (emotion qa)).
  rewrite keys_countEmotions_snoc, labels_snoc. fold k.
  set (K := map fst (countEmotions history)) in *.
  set (ks := labels history) in *.
  assert (HK : forall x, In x K <-> In x ks) by (intro x; apply keys_In).
  assert (Hin : forall x, In x (ks ++ [k]) -> In x ks \/ (x = k /\ ~ In x ks)).
  { intros x Hx. apply in_app_iff in Hx.
    destruct (in_dec string_dec x ks) as [Hi|Hi]; [now left|].
    right. destruct Hx as [Hx | [<- | []]]; tauto. }
  intros He Hd. apply Hin in He, Hd.
  destruct (has K k) eqn:E.
  - apply has_In in E. apply HK in E.
    assert (He' : In e ks) by (destruct He as [?|[-> ?]]; assumption).
    assert (Hd' : In d ks) by (destruct Hd as [?|[-> ?]]; assumption).
    rewrite !firstIndex_app_in by assumption. now apply IH.
  - assert (Hk : ~ In k ks).
    { intro Hk. apply HK, has_In in Hk. congruence. }
    assert (HkK : ~ In k K) by (rewrite HK; assumption).
    destruct He as [He | [-> _]], Hd as [Hd | [-> _]].
    + pose proof (proj2 (HK e) He). pose proof (proj2 (HK d) Hd).
      rewrite !firstIndex_app_in by assumption. now apply IH.
    + pose proof (proj2 (HK e) He) as HeK.
      rewrite !(firstIndex_app_in e) by assumption.
      rewrite !firstIndex_last by assumption.
      pose proof (firstIndex_in e K HeK).
      pose proof (firstIndex_in e ks He). lia.
    + pose proof (proj2 (HK d) Hd) as HdK.
      rewrite !(firstIndex_app_in d) by assumption.
      rewrite !firstIndex_last by assumption.
      pose proof (firstIndex_in d K HdK).
      pose proof (firstIndex_in d ks Hd). lia.
    + lia.
Qed.

End Counting.

Section Aggregation.

Import JsNum Spec SessionCompletion.
Local Open Scope string_scope.

(** The reduction keeps the last key, in key order, among those of maximal
    count. *)
Lemma reduce_last_maximum (c : string -> nat) (first : string) (others : list string) :
  NoDup (first :: others) ->
  let d := fold_left (fun a b => if (c b <? c a)%nat then a else b) others first in
  In d (first :: others)
  /\ (forall k, In k (first :: others) -> (c k <= c d)%nat)
  /\ (forall k, In k (first :: others) -> k <> d -> c k = c d ->
                (firstIndex k (first :: others) < firstIndex d (first :: others))%nat).
Proof.
  induction others as [|b others IH] using rev_ind; intro Hnd.
  - simpl. repeat split.
    + now left.
    + intros k [<- | []]. lia.
    + intros k [<- | []] Hk. congruence.
  - rewrite fold_left_app. cbn [fold_left].
    set (K := first :: others) in *.
    change (first :: others ++ [b])%list with (K ++ [b])%list in *.
    assert (HndK : NoDup K) by (now apply NoDup_app_remove_r in Hnd).
    assert (Hb : ~ In b K).
    { apply NoDup_remove_2 in Hnd. now rewrite app_nil_r in Hnd. }
    destruct (IH HndK) as (Hin & Hmax & Htie). clear IH.
    set (a := fold_left (fun a b => if (c b <? c a)%nat then a else b) others first) in *.
    destruct (Nat.ltb_spec (c b) (c a)) as [Hlt|Hge].
    + repeat split.
      * apply in_app_iff. now left.
      * intros k Hk. apply in_app_iff in Hk.
        destruct Hk as [Hk | [<- | []]]; [now apply Hmax | lia].
      * intros k Hk Hne Hc. apply in_app_iff in Hk.
        destruct Hk as [Hk | [<- | []]]; [|lia].
        rewrite !firstIndex_app_in by assumption. now apply Htie.
    + repeat split.
      * apply in_app_iff. right. now left.
      * intros k Hk. apply in_app_iff in Hk.
        destruct Hk as [Hk | [<- | []]]; [|lia].
        specialize (Hmax k Hk). lia.
      * intros k Hk Hne Hc. apply in_app_iff in Hk.
        destruct Hk as [Hk | [<- | []]]; [|congruence].
        rewrite firstIndex_app_in by assumption.
        rewrite firstIndex_last by assumption.
        now apply firstIndex_in.
Qed.

Lemma countEmotions_nonempty (history : list QA) :
  history <> [] -> map fst (countEmotions history) <> [].
Proof.
  destruct history as [|qa rest]; [congruence|]. intros _ E.
  assert (H : In (keyOf (emotion qa)) (labels (qa :: rest))) by (now left).
  apply keys_In in H. rewrite E in H. exact H.
Qed.

Lemma generateSessionCompletion_nonempty (history : list QA) :
  history <> [] ->
  exists first others,
    map fst (countEmotions history) = first :: others
    /\ generateSessionCompletion (Some history)
       = Returned
           {| wellnessScore := calculateWellnessScore (Some history);
              dominantEmotion :=
                fold_left (fun a b =>
                             if (countOf b (countEmotions history)
                                 <? countOf a (countEmotions history))%nat
                             then a else b)
                          others first;
              emotionCounts := countEmotions history |}.
Proof.
  intro H. pose proof (countEmotions_nonempty history H) as Hk.
  destruct (map fst (countEmotions history)) as [|first others] eqn:E; [congruence|].
  exists first, others. split; [reflexivity|].
  unfold generateSessionCompletion, reduceDominant. now rewrite E.
Qed.

(** C2, amended.  On an empty session list [calculateWellnessScore] returns
    the baseline 50, as it does for a missing list, and raises nothing.
    [generateSessionCompletion] does fail on an empty list, with the
    [TypeError] of reducing an empty array of keys rather than a dedicated
    error, and on a missing list with the [TypeError] of calling [forEach]
    on it. *)
Theorem empty_session_outcome :
  calculateWellnessScore (Some []) = 50%Z
  /\ calculateWellnessScore None = 50%Z
  /\ generateSessionCompletion (Some [])
     = Threw "Reduce of empty array with no initial value"
  /\ generateSessionCompletion None
     = Threw "Cannot read properties of null (reading 'forEach')".
Proof. repeat split. Qed.

(** C2, as stated, fails: on an empty list [calculateWellnessScore] returns
    the number 50, and the failure of [generateSessionCompletion] is the
    generic error of an empty reduction. *)
Lemma empty_session_scores_fifty :
  calculateWellnessScore (Some []) = 50%Z
  /\ generateSessionCompletion (Some [])
     = Threw "Reduce of empty array with no initial value".
Proof. split; reflexivity. Qed.

(** C3, amended.  For a non-empty session the dominant emotion is a label
    of maximal frequency; among labels tied for the maximum, every other
    one occurs first before the chosen one does: the tied label whose first
    occurrence comes latest is chosen. *)
Theorem dominant_is_latest_first_seen_mode (history : list QA) :
  history <> [] ->
  Forall plainEntry history ->
  exists report,
    generateSessionCompletion (Some history) = Returned report
    /\ In (dominantEmotion report) (labels history)
    /\ (forall e, (occurrences e (labels history)
                   <= occurrences (dominantEmotion report) (labels history))%nat)
    /\ (forall e, In e (labels history) -> e <> dominantEmotion report ->
                  occurrences e (labels history)
                  = occurrences (dominantEmotion report) (labels history) ->
                  (firstIndex e (labels history)
                   < firstIndex (dominantEmotion report) (labels history))%nat).
Proof.
  intros Hne _.
  destruct (generateSessionCompletion_nonempty history Hne) as (first & others & EK & E).
  eexists. split; [exact E|]. cbn [dominantEmotion].
  pose proof (keys_NoDup history) as Hnd. rewrite EK in Hnd.
  destruct (reduce_last_maximum (fun k => countOf k (countEmotions history))
                                first others Hnd) as (Hin & Hmax & Htie).
  cbv beta zeta in Hin, Hmax, Htie.
  set (d := fold_left _ others first) in *.
  rewrite <- EK in Hin, Hmax, Htie.
  assert (Hd : In d (labels history)) by (now apply keys_In).
  split; [exact Hd|]. split.
  - intro e. destruct (in_dec string_dec e (labels history)) as [He|He].
    + rewrite <- !countOf_countEmotions. apply Hmax. now apply keys_In.
    + unfold occurrences at 1.
      rewrite (proj1 (count_occ_not_In string_dec (labels history) e) He). lia.
  - intros e He Hned Hocc.
    apply keys_order; try assumption.
    apply Htie; [now apply keys_In | assumption |].
    now rewrite !countOf_countEmotions.
Qed.

End Aggregation.

Section Wellness.

Import JsNum Spec SessionCompletion.
Local Open Scope string_scope.

(** The value of a turn in exact arithmetic. *)
Local Abbreviation exactScore qa :=
  (baseScoreOf qa * intensityOf qa + 60 * (1 - intensityOf qa)).

Lemma baseScore_range (qa : QA) : 25 <= baseScoreOf qa <= 90.
Proof.
  unfold baseScoreOf, emotionScores, lookupScore.
  repeat match goal with
         | |- context [String.eqb ?a ?b] => destruct (String.eqb a b)
         end; split; vm_compute; discriminate.
Qed.

Lemma intensityOf_unit (qa : QA) : unitIntensity qa -> 0 <= intensityOf qa <= 1.
Proof.
  intro Hi. unfold unitIntensity in Hi. unfold intensityOf.
  destruct (intensity qa) as [i|]; [|lra].
  destruct (Qeq_bool i 0); [lra | now apply Hi].
Qed.

Lemma exactScore_range (qa : QA) : unitIntensity qa -> 25 <= exactScore qa <= 90.
Proof.
  intro Hi. pose proof (baseScore_range qa) as [Hlo Hhi].
  pose proof (intensityOf_unit qa Hi) as [H0 H1]. split; nra.
Qed.

(** The doubles of one turn stay within [10^-13] of its exact value. *)
Lemma entryScore_close (qa : QA) :
  unitIntensity qa ->
  exactScore qa - (1 # 10000000000000) <= entryScore qa
  /\ entryScore qa <= exactScore qa + (1 # 10000000000000).
Proof.
  intro Hi. pose proof (baseScore_range qa) as [Hlo Hhi].
  pose proof (intensityOf_unit qa Hi) as [H0 H1].
  unfold entryScore.
  set (b := baseScoreOf qa) in *. set (i := intensityOf qa) in *.
  assert (Hp : 0 <= b * i <= 90) by (split; nra).
  set (p := b * i) in *.
  destruct (binary64_near p 90) as [P1 P2]; [lra|].
  destruct (binary64_near (1 - i) 1) as [D1 D2]; [lra|].
  set (d := binary64 (1 - i)) in *.
  destruct (binary64_near (60 * d) 61) as [Q1 Q2];
    [unfold unitRoundoff in *; lra|].
  destruct (binary64_near (binary64 p + binary64 (60 * d)) 152) as [R1 R2];
    [unfold unitRoundoff in *; lra|].
  unfold unitRoundoff in *. lra.
Qed.

Lemma inject_succ (k : nat) : inject_Z (Z.of_nat (S k)) == inject_Z (Z.of_nat k) + 1.
Proof. rewrite Nat2Z.inj_succ, <- Z.add_1_r, inject_Z_plus. reflexivity. Qed.

Lemma inject_count_range (k : nat) :
  (Z.of_nat k <= 10000)%Z -> 0 <= inject_Z (Z.of_nat k) <= 10000.
Proof. intro H. split; unfold Qle; cbn [inject_Z Qnum Qden]; lia. Qed.

(** The running total stays within [2 x 10^-10] per turn of the exact sum,
    for sessions of at most 10000 turns. *)
Lemma accumulate_close (history : list QA) :
  forall (totalScore totalWeight exact : Q) (k : nat),
    (Z.of_nat (k + List.length history) <= 10000)%Z ->
    Forall unitIntensity history ->
    totalWeight == inject_Z (Z.of_nat k) ->
    25 * inject_Z (Z.of_nat k) <= exact <= 90 * inject_Z (Z.of_nat k) ->
    exact - inject_Z (Z.of_nat k) * (2 # 10000000000) <= totalScore
    /\ totalScore <= exact + inject_Z (Z.of_nat k) * (2 # 10000000000) ->
    let acc := fold_left (fun acc qa => (binary64 (fst acc + entryScore qa), snd acc + 1))
                         history (totalScore, totalWeight) in
    let sum := exact + sumQ (map (fun qa => exactScore qa) history) in
    let n := inject_Z (Z.of_nat (k + List.length history)) in
    snd acc == n
    /\ 25 * n <= sum <= 90 * n
    /\ sum - n * (2 # 10000000000) <= fst acc <= sum + n * (2 # 10000000000).
Proof.
  induction history as [|qa rest IH]; intros totalScore totalWeight exact k Hk Hall Hw He Ht;
    cbv zeta; unfold sumQ.
  - cbn [fold_left map fold_right List.length fst snd].
    rewrite Nat.add_0_r. split; [assumption|]. split; lra.
  - cbn [fold_left fst snd map fold_right].
    inversion Hall as [|? ? Hqa Hrest]; subst.
    pose proof (exactScore_range qa Hqa) as Hx.
    pose proof (entryScore_close qa Hqa) as Hs.
    cbn [List.length] in Hk.
    pose proof (inject_count_range k ltac:(lia)) as Hkq.
    pose proof (inject_succ k) as Hsucc.
    specialize (IH (binary64 (totalScore + entryScore qa)) (totalWeight + 1)
                   (exact + exactScore qa) (S k)).
    cbv zeta in IH. unfold sumQ in IH.
    replace (S k + List.length rest)%nat with (k + List.length (qa :: rest))%nat in IH
      by (cbn [List.length]; lia).
    set (kq := inject_Z (Z.of_nat k)) in *.
    set (x := exactScore qa) in *. set (s := entryScore qa) in *.
    set (r := fold_right Qplus 0 (map _ rest)) in *.
    set (n := inject_Z (Z.of_nat (k + List.length (qa :: rest)))) in *.
    destruct (binary64_near (totalScore + s) 900100) as [B1 B2]; [lra|].
    destruct IH as (I1 & I2 & I3).
    + cbn [List.length]. lia.
    + assumption.
    + rewrite Hsucc, Hw. reflexivity.
    + rewrite Hsucc. lra.
    + rewrite Hsucc. unfold unitRoundoff in *. lra.
    + split; [assumption|]. split; lra.
Qed.

Lemma mathRound_next (x d : Q) :
  0 <= d < 1 -> (mathRound (x + d) <= mathRound x + 1)%Z.
Proof.
  intros [H0 H1]. unfold mathRound.
  pose proof (Qfloor_le (x + d + (1 # 2))) as Hb.
  pose proof (Qlt_floor (x + (1 # 2))) as Ha.
  assert (K : (Qfloor (x + d + (1 # 2)) < Qfloor (x + (1 # 2)) + 1 + 1)%Z).
  { rewrite Zlt_Qlt, inject_Z_plus. change (inject_Z 1) with 1.
    apply Qle_lt_trans with (x + d + (1 # 2)); [assumption | lra]. }
  lia.
Qed.

(** The score of a non-empty session, next to the exact average. *)
Lemma calculateWellnessScore_close (history : list QA) :
  history <> [] ->
  (Z.of_nat (List.length history) <= 10000)%Z ->
  Forall unitIntensity history ->
  toNearestInteger (average (map (fun qa => exactScore qa) history))
                   (calculateWellnessScore (Some history))
  /\ (25 <= calculateWellnessScore (Some history) <= 90)%Z.
Proof.
  intros Hne Hlen Hall.
  pose proof (accumulate_close history 0 0 0 0 Hlen Hall) as H.
  cbv zeta in H. cbn [Nat.add Z.of_nat] in H. change (inject_Z 0) with 0 in H.
  destruct H as (Hw & Hs & Ht); [reflexivity | lra | lra |].
  unfold calculateWellnessScore, accumulate.
  destruct history as [|qa rest]; [congruence|].
  set (history := qa :: rest) in *.
  destruct (fold_left _ history (0, 0)) as [totalScore totalWeight].
  cbn [fst snd] in Hw, Hs, Ht.
  assert (Hn : 1 <= inject_Z (Z.of_nat (List.length history)) <= 10000).
  { split.
    - change 1 with (inject_Z 1). rewrite <- Zle_Qle.
      unfold history. cbn [List.length]. lia.
    - change 10000 with (inject_Z 10000). rewrite <- Zle_Qle. lia. }
  set (n := inject_Z (Z.of_nat (List.length history))) in *.
  set (sum := 0 + sumQ (map (fun qa => exactScore qa) history)) in *.
  assert (Ea : average (map (fun qa => exactScore qa) history) == sum / n).
  { unfold average, sum, n. rewrite length_map. field.
    fold n. lra. }
  assert (Eq : totalScore / totalWeight == totalScore / n) by (now rewrite Hw).
  set (a := sum / n) in *. set (q := totalScore / n) in *.
  assert (Han : a * n == sum) by (unfold a; field; lra).
  assert (Hqn : q * n == totalScore) by (unfold q; field; lra).
  assert (Hq : a - (2 # 10000000000) <= q <= a + (2 # 10000000000)) by (split; nra).
  assert (Har : 25 <= a <= 90) by (split; nra).
  destruct (binary64_near (totalScore / totalWeight) 91) as [B1 B2]; [lra|].
  set (v := binary64 (totalScore / totalWeight)) in *.
  assert (Hv : average (map (fun qa => exactScore qa) history) - roundingSlack <= v
               /\ v <= average (map (fun qa => exactScore qa) history) + roundingSlack)
    by (unfold roundingSlack, unitRoundoff in *; lra).
  destruct Hv as [Hv1 Hv2].
  assert (R1 := mathRound_mono _ _ Hv1). assert (R2 := mathRound_mono _ _ Hv2).
  assert (R3 : (25 <= mathRound v)%Z).
  { change 25%Z with (mathRound (25 - roundingSlack)). apply mathRound_mono.
    unfold roundingSlack, unitRoundoff in *. lra. }
  assert (R4 : (mathRound v <= 90)%Z).
  { change 90%Z with (mathRound (90 + roundingSlack)). apply mathRound_mono.
    unfold roundingSlack, unitRoundoff in *. lra. }
  unfold toNearestInteger. lia.
Qed.

Lemma exactScore_nonzero_intensity (qa : QA) :
  (forall i, intensity qa = Some i -> 0 < i) ->
  exactScore qa = entryScoreWith 50 qa.
Proof.
  intro H. unfold entryScoreWith, baseScoreOf, intensityOf.
  destruct (intensity qa) as [i|]; [|reflexivity].
  destruct (Qeq_bool i 0) eqn:E; [|reflexivity].
  apply Qeq_bool_iff in E. specialize (H i eq_refl). lra.
Qed.

(** C4, amended.  For a non-empty session of at most 10000 turns whose
    labels are ordinary keys and whose recorded intensities lie in (0,1] (a
    missing intensity counts as 0.5), the wellness score is the average of
    base x intensity + 60 x (1 - intensity) over the turns, rounded to the
    nearest integer, where the base comes from the fixed table and a label
    that is not in the table, or a missing one, has base 50.  The source
    computes the average in doubles: the score is the rounding of a value
    within one billionth of the exact average, so it is the nearest integer
    of the exact average (ties upwards, the clamp to [0,100] changing
    nothing) unless that average lies within one billionth of a tie. *)
Theorem wellness_is_rounded_average (history : list QA) :
  history <> [] ->
  (Z.of_nat (List.length history) <= 10000)%Z ->
  Forall plainEntry history ->
  (forall qa i, In qa history -> intensity qa = Some i -> 0 < i <= 1) ->
  let exact := average (map (entryScoreWith 50) history) in
  toNearestInteger exact (calculateWellnessScore (Some history))
  /\ (mathRound (exact - roundingSlack) = mathRound (exact + roundingSlack) ->
      calculateWellnessScore (Some history) = wellnessWith 50 history).
Proof.
  intros Hne Hlen _ Hi exact.
  assert (Hall : Forall unitIntensity history).
  { apply Forall_forall. intros qa Hqa i E. destruct (Hi qa i Hqa E). lra. }
  destruct (calculateWellnessScore_close history Hne Hlen Hall) as [H1 H2].
  assert (E : map (fun qa => exactScore qa) history = map (entryScoreWith 50) history).
  { apply map_ext_in. intros qa Hqa. apply exactScore_nonzero_intensity.
    intros i Ei. now destruct (Hi qa i Hqa Ei). }
  rewrite E in H1. fold exact in H1. split; [exact H1|].
  intro Htie. unfold wellnessWith. fold exact.
  unfold toNearestInteger in H1.
  assert (Lo : (mathRound (exact - roundingSlack) <= mathRound exact)%Z)
    by (apply mathRound_mono; unfold roundingSlack; lra).
  assert (Hi' : (mathRound exact <= mathRound (exact + roundingSlack))%Z)
    by (apply mathRound_mono; unfold roundingSlack; lra).
  lia.
Qed.

(** X7.  For a session of at most 10000 turns whose labels are ordinary
    keys and whose recorded intensities lie in [0,1], the wellness score is
    between 25 and 90: the clamp to [0,100] never changes it. *)
Theorem wellness_score_range (history : list QA) :
  (Z.of_nat (List.length history) <= 10000)%Z ->
  Forall plainEntry history ->
  Forall unitIntensity history ->
  (25 <= calculateWellnessScore (Some history) <= 90)%Z.
Proof.
  intros Hlen _ Hall. destruct history as [|qa rest].
  - cbn. lia.
  - now apply calculateWellnessScore_close.
Qed.

Lemma sumQ_permutation (l m : list Q) : Permutation l m -> sumQ l == sumQ m.
Proof.
  induction 1 as [|x l m _ IH|x y l|l m n _ IH1 _ IH2]; cbn [sumQ fold_right].
  - reflexivity.
  - unfold sumQ in IH. rewrite IH. reflexivity.
  - ring.
  - now rewrite IH1.
Qed.

(** X8.  The order of the turns matters to the wellness score, since the
    turns are added up in doubles, but by one point at most: two sessions
    (of at most 10000 turns, ordinary labels, intensities in [0,1]) with the
    same turns in a different order score within 1 of each other. *)
Theorem wellness_score_order_within_one (history1 history2 : list QA) :
  Permutation history1 history2 ->
  (Z.of_nat (List.length history1) <= 10000)%Z ->
  Forall plainEntry history1 ->
  Forall unitIntensity history1 ->
  (Z.abs (calculateWellnessScore (Some history1)
          - calculateWellnessScore (Some history2)) <= 1)%Z.
Proof.
  intros HP Hlen _ Hall. destruct history1 as [|qa rest].
  - apply Permutation_nil in HP. subst. cbn. lia.
  - assert (Hne2 : history2 <> []).
    { intros ->. apply Permutation_sym, Permutation_nil in HP. discriminate. }
    assert (Hlen2 : (Z.of_nat (List.length history2) <= 10000)%Z)
      by (now rewrite <- (Permutation_length HP)).
    assert (Hall2 : Forall unitIntensity history2)
      by (apply (Permutation_Forall HP); assumption).
    destruct (calculateWellnessScore_close (qa :: rest)) as [[A1 A2] _];
      [discriminate | assumption | assumption |].
    destruct (calculateWellnessScore_close history2 Hne2 Hlen2 Hall2) as [[B1 B2] _].
    assert (E : average (map (fun qa => exactScore qa) (qa :: rest))
                == average (map (fun qa => exactScore qa) history2)).
    { unfold average.
      rewrite (sumQ_permutation _ _ (Permutation_map _ HP)).
      rewrite !length_map, (Permutation_length HP). reflexivity. }
    set (a1 := average (map (fun qa => exactScore qa) (qa :: rest))) in *.
    set (a2 := average (map (fun qa => exactScore qa) history2)) in *.
    assert (K1 : mathRound (a1 - roundingSlack) = mathRound (a2 - roundingSlack))
      by (apply mathRound_comp; rewrite E; reflexivity).
    assert (K2 : mathRound (a1 + roundingSlack) = mathRound (a2 + roundingSlack))
      by (apply mathRound_comp; rewrite E; reflexivity).
    pose proof (mathRound_next (a1 - roundingSlack) (2 # 1000000000)) as N.
    assert (K3 : mathRound (a1 - roundingSlack + (2 # 1000000000))
                 = mathRound (a1 + roundingSlack))
      by (apply mathRound_comp; unfold roundingSlack; ring).
    rewrite K3 in N. specialize (N ltac:(lra)). lia.
Qed.

End Wellness.

Section AggregationExamples.

Import Spec SessionCompletion Samples.
Local Open Scope string_scope.

Lemma dominant_is_latest_first_seen_mode_witness :
  exists report,
    generateSessionCompletion (Some mostlyHappy) = Returned report
    /\ In (dominantEmotion report) (labels mostlyHappy)
    /\ (forall e, (occurrences e (labels mostlyHappy)
                   <= occurrences (dominantEmotion report) (labels mostlyHappy))%nat)
    /\ (forall e, In e (labels mostlyHappy) -> e <> dominantEmotion report ->
                  occurrences e (labels mostlyHappy)
                  = occurrences (dominantEmotion report) (labels mostlyHappy) ->
                  (firstIndex e (labels mostlyHappy)
                   < firstIndex (dominantEmotion report) (labels mostlyHappy))%nat).
Proof.
  apply (dominant_is_latest_first_seen_mode mostlyHappy).
  - discriminate.
  - repeat constructor.
Defined.

Example dominant_of_mostlyHappy :
  generateSessionCompletion (Some mostlyHappy)
  = Returned {| wellnessScore := 69%Z;
                dominantEmotion := "happy";
                emotionCounts := [("happy", 2%nat); ("sad", 1%nat)] |}.
Proof. vm_compute. reflexivity. Qed.

(** C3, as stated, fails on ties: with one happy turn followed by one sad
    turn both labels occur once, happy occurs first, and sad is chosen. *)
Lemma dominant_tie_takes_later_label :
  generateSessionCompletion (Some [turn "happy" (5 # 10); turn "sad" (5 # 10)])
  = Returned {| wellnessScore := 60%Z;
                dominantEmotion := "sad";
                emotionCounts := [("happy", 1%nat); ("sad", 1%nat)] |}
  /\ occurrences "happy" ["happy"; "sad"] = occurrences "sad" ["happy"; "sad"]
  /\ (firstIndex "happy" ["happy"; "sad"] < firstIndex "sad" ["happy"; "sad"])%nat.
Proof.
  split; [vm_compute; reflexivity|]. split; [reflexivity|]. simpl. lia.
Qed.

Lemma turn_intensity (label : string) (i j : Q) :
  intensity (turn label i) = Some j -> double i = j.
Proof. unfold turn. cbn [intensity]. congruence. Qed.

Lemma wellness_is_rounded_average_witness :
  calculateWellnessScore (Some mostlyHappy) = wellnessWith 50 mostlyHappy.
Proof.
  apply (wellness_is_rounded_average mostlyHappy).
  - discriminate.
  - cbn. lia.
  - repeat constructor.
  - intros qa i [<- | [<- | [<- | []]]] E; apply turn_intensity in E;
      rewrite <- E; split; vm_compute; (reflexivity || discriminate).
  - vm_compute. reflexivity.
Defined.

(** C4, as stated, fails: a turn without a label at intensity 1 scores 50,
    not the neutral base 60; and a happy turn of intensity 0 scores 75, not
    60, because a zero intensity is replaced by 0.5. *)
Lemma wellness_unknown_label_and_zero_intensity :
  calculateWellnessScore (Some [unlabelledTurn]) = 50%Z
  /\ wellnessWith neutralBase [unlabelledTurn] = 60%Z
  /\ calculateWellnessScore (Some [turn "happy" 0]) = 75%Z
  /\ wellnessWith neutralBase [turn "happy" 0] = 60%Z.
Proof. repeat split; vm_compute; reflexivity. Qed.

End AggregationExamples.

(** ** Friend matching *)

Section Sets.

Lemma setOf_In (x : string) (l : list string) : In x (setOf l) <-> In x l.
Proof.
  induction l as [|y l IH]; simpl; [reflexivity|].
  rewrite filter_In, IH, negb_true_iff.
  destruct (String.eqb_spec y x) as [E|E]; [tauto|].
  intuition congruence.
Qed.

Lemma setOf_NoDup (l : list string) : NoDup (setOf l).
Proof.
  induction l as [|y l IH]; simpl; constructor.
  - rewrite filter_In, negb_true_iff, String.eqb_neq. tauto.
  - now apply NoDup_filter.
Qed.

Lemma setOf_length_ext (l m : list string) :
  (forall x, In x l <-> In x m) ->
  List.length (setOf l) = List.length (setOf m).
Proof.
  intro H. apply Nat.le_antisymm; apply NoDup_incl_length;
    try apply setOf_NoDup; intros x Hx.
  - apply (proj2 (setOf_In x m)), (proj1 (H x)), (proj1 (setOf_In x l)), Hx.
  - apply (proj2 (setOf_In x l)), (proj2 (H x)), (proj1 (setOf_In x m)), Hx.
Qed.

Lemma common_In (x : string) (l m : list string) :
  In x (filter (has (setOf m)) (setOf l)) <-> In x l /\ In x m.
Proof. rewrite filter_In, has_In, !setOf_In. tauto. Qed.

Lemma intersectionSize_sym (l m : list string) :
  intersectionSize l m = intersectionSize m l.
Proof.
  unfold intersectionSize. apply setOf_length_ext.
  intro x. rewrite !common_In. tauto.
Qed.

Lemma unionSize_sym (l m : list string) : unionSize l m = unionSize m l.
Proof.
  unfold unionSize. apply setOf_length_ext.
  intro x. rewrite !in_app_iff. tauto.
Qed.

Lemma intersectionSize_self (l : list string) :
  intersectionSize l l = List.length (setOf l).
Proof.
  unfold intersectionSize. apply setOf_length_ext.
  intro x. rewrite common_In. tauto.
Qed.

Lemma unionSize_self (l : list string) : unionSize l l = List.length (setOf l).
Proof.
  unfold unionSize. apply setOf_length_ext.
  intro x. rewrite in_app_iff, !setOf_In. tauto.
Qed.

Lemma ratio_self (n : nat) : n <> O -> ratio n n == 1.
Proof.
  intro H. destruct n as [|n]; [congruence|].
  unfold ratio, Qeq. cbn [Qnum Qden].
  rewrite <- Pos.of_nat_succ, Zpos_P_of_succ_nat, Nat2Z.inj_succ. lia.
Qed.

End Sets.

Section Symmetry.

Import FriendMatching.
Local Open Scope string_scope.

Variable cosine : list Q -> list Q -> option Q.

Lemma calculateStringSimilarity_sym (str1 str2 : string) :
  calculateStringSimilarity str1 str2 = calculateStringSimilarity str2 str1.
Proof.
  unfold calculateStringSimilarity.
  rewrite (String.eqb_sym str2 str1), (orb_comm (String.eqb str2 "")).
  cbv zeta.
  now rewrite (unionSize_sym (getBigrams str2)),
    (intersectionSize_sym (getBigrams str2)).
Qed.

Lemma calculateLocationMatch_sym (user1 user2 : User) :
  calculateLocationMatch user1 user2 = calculateLocationMatch user2 user1.
Proof.
  unfold calculateLocationMatch.
  destruct (present (city user1)) as [c1|], (present (city user2)) as [c2|];
    try reflexivity.
  now rewrite String.eqb_sym, calculateStringSimilarity_sym.
Qed.

Lemma calculateInterestOverlap_sym (interests1 interests2 : list string) :
  calculateInterestOverlap interests1 interests2
  = calculateInterestOverlap interests2 interests1.
Proof.
  unfold calculateInterestOverlap.
  destruct interests1 as [|x l], interests2 as [|y m]; try reflexivity.
  now rewrite intersectionSize_sym, unionSize_sym.
Qed.

Lemma calculateAgeCompatibility_sym (age1 age2 : option Z) :
  calculateAgeCompatibility age1 age2 = calculateAgeCompatibility age2 age1.
Proof.
  unfold calculateAgeCompatibility.
  destruct (truthyAge age1) as [a1|], (truthyAge age2) as [a2|]; try reflexivity.
  replace (a2 - a1)%Z with (- (a1 - a2))%Z by lia. now rewrite Z.abs_opp.
Qed.

Lemma calculateActivityMatch_sym (entries1 entries2 : list Entry) :
  calculateActivityMatch entries1 entries2 = calculateActivityMatch entries2 entries1.
Proof.
  unfold calculateActivityMatch.
  now rewrite andb_comm, Nat.max_comm, Nat.min_comm.
Qed.

Hypothesis cosine_sym : forall u v, cosine u v = cosine v u.

Lemma calculateMoodSimilarity_sym (entries1 entries2 : list Entry) :
  calculateMoodSimilarity cosine entries1 entries2
  = calculateMoodSimilarity cosine entries2 entries1.
Proof.
  unfold calculateMoodSimilarity.
  destruct entries1 as [|e1 l1], entries2 as [|e2 l2]; try reflexivity.
  now rewrite cosine_sym.
Qed.

(** C9.  Provided the library's [cosine] does not depend on the order of
    its arguments, swapping the two users (with their entries) changes
    neither any factor of the breakdown (location, mood, interests, age,
    activity) nor the weighted total. *)
Theorem match_score_symmetric (user1 user2 : User)
  (user1Entries user2Entries : list Entry) :
  Forall Spec.plainMood user1Entries ->
  Forall Spec.plainMood user2Entries ->
  breakdown (calculateMatchScore cosine user1 user2 user1Entries user2Entries)
  = breakdown (calculateMatchScore cosine user2 user1 user2Entries user1Entries)
  /\ total (calculateMatchScore cosine user1 user2 user1Entries user2Entries)
     = total (calculateMatchScore cosine user2 user1 user2Entries user1Entries).
Proof.
  intros _ _.
  assert (E : breakdownOf cosine user1 user2 user1Entries user2Entries
              = breakdownOf cosine user2 user1 user2Entries user1Entries).
  { unfold breakdownOf.
    now rewrite calculateLocationMatch_sym, calculateMoodSimilarity_sym,
      calculateInterestOverlap_sym, calculateAgeCompatibility_sym,
      calculateActivityMatch_sym. }
  unfold calculateMatchScore. cbn [breakdown total]. now rewrite E.
Qed.

End Symmetry.

Section MatchRanges.

Import JsNum FriendMatching.
Local Open Scope string_scope.

Variable cosine : list Q -> list Q -> option Q.

Lemma intersection_le_union (l m : list string) :
  (intersectionSize l m <= unionSize l m)%nat.
Proof.
  unfold intersectionSize, unionSize.
  apply NoDup_incl_length; [apply setOf_NoDup|].
  intros x Hx. apply (proj1 (setOf_In _ _)) in Hx.
  apply (proj1 (common_In _ _ _)) in Hx.
  apply (proj2 (setOf_In _ _)), in_app_iff. left.
  apply (proj2 (setOf_In _ _)). tauto.
Qed.

Lemma ratio_unit (a b : nat) : (a <= b)%nat -> 0 <= ratio a b <= 1.
Proof.
  intro H. unfold ratio, Qle. cbn [Qnum Qden].
  destruct b as [|b].
  - assert (a = O) by lia. subst. cbn. lia.
  - rewrite <- Pos.of_nat_succ, Zpos_P_of_succ_nat. lia.
Qed.

Lemma location_range (user1 user2 : User) :
  1 # 10 <= calculateLocationMatch user1 user2 <= 1.
Proof.
  unfold calculateLocationMatch.
  destruct (present (city user1)), (present (city user2)); try lra.
  repeat match goal with
         | |- context [if ?c then _ else _] => destruct c
         end; lra.
Qed.

Lemma mood_range (entries1 entries2 : list Entry) :
  0 <= calculateMoodSimilarity cosine entries1 entries2 <= 1.
Proof.
  unfold calculateMoodSimilarity.
  destruct entries1, entries2; try lra.
  destruct (cosine _ _) as [d|]; [|lra].
  split; [apply Q.le_max_l|].
  apply Q.max_lub; [lra | apply Q.le_min_l].
Qed.

Lemma interest_range (interests1 interests2 : list string) :
  0 <= calculateInterestOverlap interests1 interests2 <= 1.
Proof.
  unfold calculateInterestOverlap.
  destruct interests1, interests2; try lra.
  apply ratio_unit, intersection_le_union.
Qed.

Lemma age_range (age1 age2 : option Z) :
  2 # 10 <= calculateAgeCompatibility age1 age2 <= 1.
Proof.
  unfold calculateAgeCompatibility.
  destruct (truthyAge age1), (truthyAge age2); try lra.
  repeat match goal with
         | |- context [if ?c then _ else _] => destruct c
         end; lra.
Qed.

Lemma activity_range (entries1 entries2 : list Entry) :
  0 <= calculateActivityMatch entries1 entries2 <= 1.
Proof.
  unfold calculateActivityMatch.
  destruct ((List.length entries1 =? 0) && (List.length entries2 =? 0))%nat; [lra|].
  destruct (Nat.max (List.length entries1) (List.length entries2) =? 0)%nat; [lra|].
  apply ratio_unit. lia.
Qed.

Lemma weightedTotal_eq (b : Breakdown) :
  weightedTotal b
  == location b * (4 # 10) + mood b * (35 # 100) + interestsScore b * (15 # 100)
     + ageScore b * (5 # 100) + activity b * (5 # 100).
Proof. unfold weightedTotal, factors, weights. cbn [combine fold_left fst snd]. ring. Qed.

(** X17.  Every factor of a match score lies in [0,1] (location in
    [0.1,1], age in [0.2,1]) and so does the total. *)
Theorem match_score_ranges (user1 user2 : User) (user1Entries user2Entries : list Entry) :
  Forall Spec.plainMood user1Entries ->
  Forall Spec.plainMood user2Entries ->
  let score := calculateMatchScore cosine user1 user2 user1Entries user2Entries in
  1 # 10 <= location (breakdown score) <= 1
  /\ 0 <= mood (breakdown score) <= 1
  /\ 0 <= interestsScore (breakdown score) <= 1
  /\ 2 # 10 <= ageScore (breakdown score) <= 1
  /\ 0 <= activity (breakdown score) <= 1
  /\ 0 <= total score <= 1.
Proof.
  intros _ _ score. subst score. unfold calculateMatchScore.
  cbn [breakdown total].
  set (b := breakdownOf cosine user1 user2 user1Entries user2Entries).
  assert (H1 : 1 # 10 <= location b <= 1) by apply location_range.
  assert (H2 : 0 <= mood b <= 1) by apply mood_range.
  assert (H3 : 0 <= interestsScore b <= 1) by apply interest_range.
  assert (H4 : 2 # 10 <= ageScore b <= 1) by apply age_range.
  assert (H5 : 0 <= activity b <= 1) by apply activity_range.
  repeat (split; [assumption|]).
  pose proof (weightedTotal_eq b) as E.
  apply (toFixed_within 0 1 0 1); [reflexivity | reflexivity | lra].
Qed.

End MatchRanges.

Section SelfMatch.

Import JsNum FriendMatching.
Local Open Scope string_scope.

Variable cosine : list Q -> list Q -> option Q.

Lemma setOf_nonempty (x : string) (l : list string) :
  List.length (setOf (x :: l)) <> O.
Proof. simpl. discriminate. Qed.

Lemma overlap_self (x : string) (l : list string) :
  ratio (intersectionSize (x :: l) (x :: l)) (unionSize (x :: l) (x :: l)) == 1.
Proof.
  rewrite intersectionSize_self, unionSize_self.
  apply ratio_self, setOf_nonempty.
Qed.

Lemma location_self (user : User) :
  present (city user) <> None -> calculateLocationMatch user user = 1.
Proof.
  intro H. unfold calculateLocationMatch.
  destruct (present (city user)); [|congruence].
  now rewrite String.eqb_refl.
Qed.

Lemma age_self (user : User) :
  truthyAge (age user) <> None -> calculateAgeCompatibility (age user) (age user) = 1.
Proof.
  intro H. unfold calculateAgeCompatibility.
  destruct (truthyAge (age user)); [|congruence].
  now rewrite Z.sub_diag.
Qed.

Lemma interests_self (x : string) (l : list string) :
  calculateInterestOverlap (x :: l) (x :: l) == 1.
Proof. unfold calculateInterestOverlap. cbn [map]. apply overlap_self. Qed.

Lemma activity_self (entries : list Entry) :
  entries <> [] -> calculateActivityMatch entries entries == 1.
Proof.
  intro H. unfold calculateActivityMatch.
  destruct entries as [|e rest]; [congruence|].
  rewrite Nat.max_id, Nat.min_id. cbn [List.length Nat.eqb andb].
  now apply ratio_self.
Qed.

Lemma completeProfile_fields (user : User) :
  Spec.completeProfile user = true ->
  present (city user) <> None /\ truthyAge (age user) <> None
  /\ exists x l, interests user = Some (x :: l).
Proof.
  unfold Spec.completeProfile.
  destruct (present (city user)); [|discriminate].
  destruct (truthyAge (age user)); [|discriminate].
  destruct (interests user) as [[|x l]|]; try discriminate.
  intros _. split; [discriminate|]. split; [discriminate|]. now exists x, l.
Qed.

Lemma incompleteProfile_factor (user : User) :
  Spec.completeProfile user = false ->
  calculateLocationMatch user user = 1 # 10
  \/ calculateAgeCompatibility (age user) (age user) = 5 # 10
  \/ calculateInterestOverlap
       (match interests user with Some l => l | None => [] end)
       (match interests user with Some l => l | None => [] end) = 1 # 10.
Proof.
  unfold Spec.completeProfile, calculateLocationMatch, calculateAgeCompatibility.
  destruct (present (city user)); [|now left].
  destruct (truthyAge (age user)); [|right; now left].
  destruct (interests user) as [[|x l]|]; try discriminate; intros _; right; now right.
Qed.

Lemma localDatabase_self (user : User) :
  Spec.completeProfile user = true ->
  LocalDatabase.calculateMatchScore user user = 33 # 40.
Proof.
  intro H. destruct (completeProfile_fields user H) as (Hc & Ha & x & l & Hi).
  unfold LocalDatabase.calculateMatchScore.
  assert (E : LocalDatabase.locationScore user user * (4 # 10)
              + LocalDatabase.moodScore * (35 # 100)
              + LocalDatabase.interestScore user user * (15 # 100)
              + LocalDatabase.ageScore user user * (1 # 10) == 825 # 1000).
  { unfold LocalDatabase.locationScore, LocalDatabase.ageScore,
      LocalDatabase.interestScore, LocalDatabase.moodScore.
    destruct (present (city user)); [|congruence].
    destruct (truthyAge (age user)); [|congruence].
    rewrite Hi, String.eqb_refl, Z.sub_diag. cbn [Z.abs Z.leb Z.compare map].
    rewrite overlap_self. reflexivity. }
  rewrite (mathRound_comp _ 825) by (rewrite E; reflexivity).
  reflexivity.
Qed.

Lemma localDatabase_bound (user1 user2 : User) :
  LocalDatabase.calculateMatchScore user1 user2 <= 825 # 1000.
Proof.
  unfold LocalDatabase.calculateMatchScore. rewrite Qred_correct.
  assert (H1 : LocalDatabase.locationScore user1 user2 <= 1).
  { unfold LocalDatabase.locationScore.
    destruct (present (city user1)), (present (city user2)); try lra.
    destruct (String.eqb _ _); lra. }
  assert (H2 : LocalDatabase.interestScore user1 user2 <= 1).
  { unfold LocalDatabase.interestScore.
    destruct (interests user1) as [[|x l]|], (interests user2) as [[|y m]|]; try lra.
    apply ratio_unit, intersection_le_union. }
  assert (H3 : LocalDatabase.ageScore user1 user2 <= 1).
  { unfold LocalDatabase.ageScore.
    destruct (truthyAge (age user1)), (truthyAge (age user2)); try lra.
    repeat match goal with
           | |- context [if ?c then _ else _] => destruct c
           end; lra. }
  unfold LocalDatabase.moodScore.
  apply Qmake_le. change 825%Z with (mathRound 825). apply mathRound_mono. lra.
Qed.

(** C8, amended.  The total of a profile scored against itself never
    exceeds 1.  For a profile with a city, an age and at least one interest
    and a non-empty history the location, interests, age and activity
    factors are 1; the total is then 1 when the mood factor is 1, and only
    when the mood factor exceeds 0.99, and it is 0.72 when the call of
    [cosine] throws, the mood factor being the default 0.2.  When the city,
    the age or the interests are missing, or the history is empty, the total
    is at most 0.975.  The scorer of [localDatabase], whose mood factor is
    the constant 0.5, never gives more than 0.825. *)
Theorem self_match_total (user : User) (entries : list Entry) :
  Forall Spec.plainMood entries ->
  let score := calculateMatchScore cosine user user entries entries in
  total score <= 1
  /\ (Spec.completeProfile user = true -> entries <> [] ->
      location (breakdown score) = 1
      /\ interestsScore (breakdown score) == 1
      /\ ageScore (breakdown score) = 1
      /\ activity (breakdown score) == 1
      /\ (mood (breakdown score) == 1 -> total score == 1)
      /\ (total score == 1 -> 99 # 100 < mood (breakdown score))
      /\ (cosine (getMoodVector (lastThree entries)) (getMoodVector (lastThree entries))
          = None ->
          mood (breakdown score) = 2 # 10 /\ total score == 72 # 100))
  /\ (Spec.completeProfile user = false \/ entries = [] -> total score <= 975 # 1000)
  /\ LocalDatabase.calculateMatchScore user user <= 825 # 1000.
Proof.
  intros _ score. subst score. unfold calculateMatchScore. cbn [breakdown total].
  set (b := breakdownOf cosine user user entries entries).
  assert (H1 : 1 # 10 <= location b <= 1) by apply location_range.
  assert (H2 : 0 <= mood b <= 1) by apply mood_range.
  assert (H3 : 0 <= interestsScore b <= 1) by apply interest_range.
  assert (H4 : 2 # 10 <= ageScore b <= 1) by apply age_range.
  assert (H5 : 0 <= activity b <= 1) by apply activity_range.
  pose proof (weightedTotal_eq b) as E.
  split; [apply (toFixed_within 0 1 0 1); [reflexivity | reflexivity | lra]|].
  split; [|split; [|apply localDatabase_bound]].
  - intros Hc He. destruct (completeProfile_fields user Hc) as (Hcity & Hage & x & l & Hi).
    assert (L : location b = 1) by (unfold b, breakdownOf; cbn [location]; now apply location_self).
    assert (I : interestsScore b == 1)
      by (unfold b, breakdownOf; cbn [interestsScore]; rewrite Hi; apply interests_self).
    assert (A : ageScore b = 1) by (unfold b, breakdownOf; cbn [ageScore]; now apply age_self).
    assert (V : activity b == 1)
      by (unfold b, breakdownOf; cbn [activity]; now apply activity_self).
    rewrite L, A in E. rewrite I, V in E.
    repeat (split; [assumption|]). split; [|split].
    + intro M. rewrite (toFixed_comp _ 1 3); [reflexivity|]. rewrite E, M. reflexivity.
    + intro T. apply Qnot_le_lt. intro M.
      assert (K : toFixed (weightedTotal b) 3 <= toFixed (9965 # 10000) 3)
        by (apply toFixed_mono; lra).
      rewrite T in K. vm_compute in K. apply K. reflexivity.
    + intro Hthrow.
      assert (M : mood b = 2 # 10).
      { unfold b, breakdownOf. cbn [mood]. unfold calculateMoodSimilarity.
        destruct entries; [congruence|]. now rewrite Hthrow. }
      split; [exact M|].
      rewrite (toFixed_comp _ (72 # 100) 3); [reflexivity|]. rewrite E, M. reflexivity.
  - intro H.
    assert (K : weightedTotal b <= 975 # 1000).
    { destruct H as [H | ->].
      - destruct (incompleteProfile_factor user H) as [F | [F | F]];
          unfold b, breakdownOf in E, H1, H2, H3, H4, H5 |- *;
          cbn [location mood interestsScore ageScore activity] in *;
          rewrite E; rewrite F in *; lra.
      - unfold b, breakdownOf in E, H1, H2, H3, H4, H5 |- *;
          cbn [location mood interestsScore ageScore activity] in *.
        rewrite E. unfold calculateMoodSimilarity, calculateActivityMatch.
        cbn [List.length Nat.eqb andb]. lra. }
    apply Qle_trans with (toFixed (975 # 1000) 3); [now apply toFixed_mono|].
    vm_compute. discriminate.
Qed.

End SelfMatch.

Section MatchingExamples.

Import FriendMatching Samples.
Local Open Scope string_scope.

Lemma destructuredCosine_sym (u v : list Q) :
  destructuredCosine u v = destructuredCosine v u.
Proof. reflexivity. Qed.

Lemma match_score_symmetric_witness :
  breakdown (calculateMatchScore destructuredCosine ada ben adaEntries benEntries)
  = breakdown (calculateMatchScore destructuredCosine ben ada benEntries adaEntries)
  /\ total (calculateMatchScore destructuredCosine ada ben adaEntries benEntries)
     = total (calculateMatchScore destructuredCosine ben ada benEntries adaEntries).
Proof.
  apply (match_score_symmetric destructuredCosine destructuredCosine_sym
           ada ben adaEntries benEntries).
  - repeat constructor.
  - repeat constructor.
Defined.

Example score_of_ada_and_ben :
  calculateMatchScore destructuredCosine ada ben adaEntries benEntries
  = {| total := 127 # 200;
       breakdown := {| location := 1; mood := 2 # 10; interestsScore := 2 # 3;
                       ageScore := 8 # 10; activity := 1 # 2 |} |}.
Proof. vm_compute. reflexivity. Qed.

Lemma match_score_ranges_witness :
  0 <= total (calculateMatchScore destructuredCosine ada ben adaEntries benEntries) <= 1.
Proof.
  apply (match_score_ranges destructuredCosine ada ben adaEntries benEntries);
    repeat constructor.
Defined.

Lemma self_match_total_witness :
  total (calculateMatchScore destructuredCosine ada ada adaEntries adaEntries) == 72 # 100.
Proof.
  destruct (self_match_total destructuredCosine ada adaEntries) as (_ & H & _).
  - repeat constructor.
  - destruct H as (_ & _ & _ & _ & _ & _ & H).
    + reflexivity.
    + discriminate.
    + apply H. reflexivity.
Defined.

(** C8, as stated, fails: a complete profile with two journal entries scores
    0.72 against itself in [friendMatching] as the repository stands, and
    0.695 without journal entries, whatever [cosine] does;
    [localDatabase] gives the same profile 0.825. *)
Lemma self_match_below_one :
  total (calculateMatchScore destructuredCosine ada ada adaEntries adaEntries) == 72 # 100
  /\ total (calculateMatchScore destructuredCosine ada ada [] []) == 695 # 1000
  /\ ~ total (calculateMatchScore destructuredCosine ada ada [] []) == 1
  /\ LocalDatabase.calculateMatchScore ada ada == 825 # 1000
  /\ ~ LocalDatabase.calculateMatchScore ada ada == 1.
Proof.
  vm_compute. repeat split; discriminate.
Qed.

End MatchingExamples.


(** * Further properties of the services *)

(** ** The lexicon classifier *)

Section LexiconDetails.

Import JsNum EmotionAnalysis.
Local Open Scope string_scope.

Variable tokenize : string -> list string.
Variable sentimentScore : string -> Q.

Local Abbreviation lexicon := (analyzeTextWithKeywords tokenize sentimentScore).

(** The scan over [Object.entries(emotionScores)] keeps the first entry of
    maximal score, or its start value when no entry exceeds it. *)
Lemma pickPrimary_first_maximum (scores : list (string * nat)) (init : string * nat) :
  let best := fold_left (fun best entry =>
                           if (snd best <? snd entry)%nat then entry else best)
                        scores init in
  (best = init /\ forall e, In e scores -> (snd e <= snd init)%nat)
  \/ (exists pre post,
         scores = (pre ++ best :: post)%list
         /\ (snd init < snd best)%nat
         /\ (forall e, In e pre -> (snd e < snd best)%nat)
         /\ (forall e, In e post -> (snd e <= snd best)%nat)).
Proof.
  revert init. induction scores as [|e rest IH]; intros init; cbn [fold_left].
  - left. split; [reflexivity | intros e []].
  - destruct (Nat.ltb_spec (snd init) (snd e)) as [Hie|Hie].
    + destruct (IH e) as [[Hb Hall] | (pre & post & Hs & Hlt & Hpre & Hpost)].
      * right. exists [], rest. rewrite Hb. cbn [app].
        split; [reflexivity|]. split; [assumption|]. split; [intros x []|assumption].
      * right. exists (e :: pre), post. rewrite Hs at 1. cbn [app].
        split; [reflexivity|]. split; [lia|]. split; [|assumption].
        intros x [<- | Hx]; [assumption | now apply Hpre].
    + destruct (IH init) as [[Hb Hall] | (pre & post & Hs & Hlt & Hpre & Hpost)].
      * left. split; [assumption|].
        intros x [<- | Hx]; [assumption | now apply Hall].
      * right. exists (e :: pre), post. rewrite Hs at 1. cbn [app].
        split; [reflexivity|]. split; [assumption|]. split; [|assumption].
        intros x [<- | Hx]; [lia | now apply Hpre].
Qed.

Lemma total_from (scores : list (string * nat)) (start : nat) :
  (forall e, In e scores -> snd e = O) ->
  fold_left (fun total entry => (total + snd entry)%nat) scores start = start.
Proof.
  revert start. induction scores as [|e rest IH]; intros start H; cbn [fold_left].
  - reflexivity.
  - rewrite IH by (intros x Hx; apply H; now right).
    rewrite (H e) by now left. lia.
Qed.

Lemma matched_primary_positive (text : string) :
  (0 < totalMatchesOf text)%nat ->
  (1 <= snd (pickPrimary (emotionScoresOf text)))%nat.
Proof.
  intro Hpos.
  destruct (pickPrimary_first_maximum (emotionScoresOf text) ("neutral", O))
    as [[_ Hall] | (pre & post & _ & Hlt & _)];
    fold (pickPrimary (emotionScoresOf text)) in *.
  - exfalso. unfold totalMatchesOf in Hpos.
    rewrite total_from in Hpos; [lia|].
    intros e He. specialize (Hall e He). cbn [snd] in Hall. lia.
  - cbn [snd] in Hlt. lia.
Qed.

Lemma toFixed_between (lo hi x : Q) (digits : nat) :
  toFixed lo digits == lo -> toFixed hi digits == hi ->
  lo <= x <= hi -> lo <= toFixed x digits <= hi.
Proof.
  intros Hlo Hhi [H1 H2]. split.
  - rewrite <- Hlo. now apply toFixed_mono.
  - rewrite <- Hhi. now apply toFixed_mono.
Qed.

(** X1.  The confidence of the keyword analysis tells whether a keyword was
    found: with at least one keyword match it lies between 0.8 and 0.9, with
    none between 0.4 and 0.7. *)
Theorem lexicon_confidence_tiers (text : string) :
  ((0 < totalMatchesOf text)%nat ->
   8 # 10 <= confidence (lexicon text) <= 9 # 10)
  /\ (totalMatchesOf text = 0%nat ->
      4 # 10 <= confidence (lexicon text) <= 7 # 10).
Proof.
  split; intro H; cbn [analyzeTextWithKeywords confidence]; unfold rawConfidenceOf.
  - pose proof (matched_primary_positive text H) as Hn.
    apply Nat.ltb_lt in H. rewrite H.
    assert (Hq : 1 <= inject_Z (Z.of_nat (snd (pickPrimary (emotionScoresOf text))))).
    { unfold Qle. cbn [Qnum Qden inject_Z]. lia. }
    apply toFixed_between; [reflexivity | reflexivity |].
    split; [apply Q.min_glb; lra | apply Q.le_min_r].
  - rewrite H. change (0 <? 0)%nat with false. cbv iota.
    pose proof (Qabs_nonneg (sentimentScore text)).
    apply toFixed_between; [reflexivity | reflexivity |].
    split; [apply Q.min_glb; lra | apply Q.le_min_r].
Qed.

(** X2.  When some keyword matches, the emotion of the keyword analysis is
    the one with the most matches, and among emotions with equally many the
    one declared first in the order happy, sad, angry, anxious, calm,
    neutral: every emotion declared before it has strictly fewer matches. *)
Theorem lexicon_primary_is_first_maximum (text : string) :
  (0 < totalMatchesOf text)%nat ->
  exists label count pre post,
    emotion (lexicon text) = Some (JStr label)
    /\ emotionScoresOf text = (pre ++ (label, count) :: post)%list
    /\ (forall e, In e pre -> (snd e < count)%nat)
    /\ (forall e, In e post -> (snd e <= count)%nat).
Proof.
  intro Hpos. pose proof (matched_primary_positive text Hpos) as Hn.
  destruct (pickPrimary_first_maximum (emotionScoresOf text) ("neutral", O))
    as [[Hb _] | (pre & post & Hs & _ & Hpre & Hpost)];
    fold (pickPrimary (emotionScoresOf text)) in *.
  - rewrite Hb in Hn. cbn [snd] in Hn. lia.
  - exists (fst (pickPrimary (emotionScoresOf text))),
      (snd (pickPrimary (emotionScoresOf text))), pre, post.
    rewrite <- surjective_pairing. repeat split; try assumption.
    cbn [analyzeTextWithKeywords emotion]. unfold primaryOf.
    apply Nat.ltb_lt in Hpos. now rewrite Hpos.
Qed.

End LexiconDetails.

(** ** Fusion, the mock audio classifier and the entry pipeline *)

Section FusionRanges.

Import JsNum EmotionAnalysis.

(** X3.  Fusing two results whose intensity and confidence lie in [0,1]
    gives a result with intensity in [0,1] and confidence in [0,0.95], at most
    0.8 when the emotions differ, and with the emotion of one of the two
    inputs. *)
Theorem fusion_keeps_ranges (t a : EmotionResult) :
  0 <= intensity t <= 1 -> 0 <= intensity a <= 1 ->
  0 <= confidence t <= 1 -> 0 <= confidence a <= 1 ->
  0 <= intensity (fuseEmotionResults t a) <= 1
  /\ 0 <= confidence (fuseEmotionResults t a) <= 95 # 100
  /\ (emotion (fuseEmotionResults t a) = emotion t
      \/ emotion (fuseEmotionResults t a) = emotion a)
  /\ (emotionsMatch t a = false -> confidence (fuseEmotionResults t a) <= 8 # 10).
Proof.
  intros Hit Hia Hct Hca.
  assert (Hit' : -1000 <= intensity t <= 1000) by lra.
  assert (Hia' : -1000 <= intensity a <= 1000) by lra.
  assert (Hct' : -1000 <= confidence t <= 1000) by lra.
  assert (Hca' : -1000 <= confidence a <= 1000) by lra.
  pose proof (weighted_close _ _ Hit' Hia') as HI.
  pose proof (weightedAverage_bounds 0 1 _ _ Hit Hia) as HIw.
  pose proof (finalConfidence_close t a Hct' Hca') as HC. cbv zeta in HC.
  pose proof (weightedAverage_bounds 0 1 _ _ Hct Hca) as HCw.
  unfold fuseEmotionResults, finalIntensity, finalEmotion.
  cbn [intensity confidence emotion].
  set (w := Spec.weightedAverage (confidence t) (confidence a)) in *.
  set (c := finalConfidence t a) in *.
  split.
  { apply (toFixed_within 0 1 (- (1 # 1000)) (1001 # 1000));
      [reflexivity | reflexivity | lra]. }
  destruct (emotionsMatch t a).
  - split.
    + apply (toFixed_within 0 (95 # 100) (- (1 # 1000)) (951 # 1000));
        [reflexivity | reflexivity |].
      pose proof (Q.le_min_r (w * (12 # 10)) (95 # 100)).
      destruct (Q.min_spec (w * (12 # 10)) (95 # 100)) as [[_ K] | [_ K]];
        rewrite K in HC; lra.
    + split; [now left | discriminate].
  - assert (H : 0 <= toFixed c 2 <= 8 # 10)
      by (apply (toFixed_within 0 (8 # 10) (- (1 # 1000)) (801 # 1000));
          [reflexivity | reflexivity | lra]).
    split; [split; [apply H | destruct H; lra]|].
    split; [|intros _; apply H].
    destruct (Qlt_bool (confidence t) (confidence a)); [now right | now left].
Qed.

Lemma fusion_keeps_ranges_witness :
  0 <= intensity (fuseEmotionResults Samples.calmText Samples.sadAudio) <= 1
  /\ 0 <= confidence (fuseEmotionResults Samples.calmText Samples.sadAudio) <= 95 # 100
  /\ (emotion (fuseEmotionResults Samples.calmText Samples.sadAudio)
      = emotion Samples.calmText
      \/ emotion (fuseEmotionResults Samples.calmText Samples.sadAudio)
         = emotion Samples.sadAudio)
  /\ (emotionsMatch Samples.calmText Samples.sadAudio = false ->
      confidence (fuseEmotionResults Samples.calmText Samples.sadAudio) <= 8 # 10).
Proof.
  apply (fusion_keeps_ranges Samples.calmText Samples.sadAudio);
    split; vm_compute; discriminate.
Defined.

End FusionRanges.

Section MockAudio.

Import JsNum EmotionAnalysis AudioAnalysis.
Local Open Scope string_scope.

Variable random : nat -> Q.
Hypothesis random_unit : forall n, 0 <= random n < 1.

Lemma emotionIndex_cases :
  In (emotionIndex random) [0; 1; 2; 3; 4; 5]%nat.
Proof.
  unfold emotionIndex. destruct (random_unit 0%nat) as [H0 H1].
  set (z := Qfloor (random 0 * 6)).
  assert (Hz : (0 <= z <= 5)%Z).
  { split.
    - change 0%Z with (Qfloor 0). apply Qfloor_resp_le. lra.
    - assert (Hlt : (z < 6)%Z); [|lia].
      rewrite Zlt_Qlt. change (inject_Z 6) with 6.
      apply Qle_lt_trans with (random 0 * 6); [apply Qfloor_le | lra]. }
  assert (K : z = 0%Z \/ z = 1%Z \/ z = 2%Z \/ z = 3%Z \/ z = 4%Z \/ z = 5%Z) by lia.
  cbn [In].
  destruct K as [-> | [-> | [-> | [-> | [-> | ->]]]]]; cbn; tauto.
Qed.

(** X4.  Whatever the random draws (each in [0,1)), the mock audio analysis
    reports one of the six emotions happy, sad, angry, anxious, calm and
    neutral, an intensity of at least 0.3 and below 0.9, and the confidence
    0.6. *)
Theorem mock_audio_ranges :
  (exists label,
      emotion (analyzeAudio random) = Some (JStr label)
      /\ In label ["happy"; "sad"; "angry"; "anxious"; "calm"; "neutral"])
  /\ 3 # 10 <= intensity (analyzeAudio random)
  /\ intensity (analyzeAudio random) < 9 # 10
  /\ confidence (analyzeAudio random) = 6 # 10.
Proof.
  unfold analyzeAudio, generateMockAudioFeatures.
  cbn [emotion intensity confidence mock_emotion mock_intensity].
  pose proof emotionIndex_cases as H. cbn [In] in H.
  destruct H as [E | [E | [E | [E | [E | [E | []]]]]]]; rewrite <- E;
    unfold featureValue; cbn [nth featureTable fst snd Nat.mul Nat.add];
    match goal with
    | |- context [random ?n] => destruct (random_unit n) as [Hlo Hhi]
    end;
    (split; [eexists; split; [reflexivity | cbn [In]; tauto]|]);
    (split; [lra|]); (split; [lra | reflexivity]).
Qed.

End MockAudio.

Lemma mock_audio_ranges_witness :
  3 # 10 <= EmotionAnalysis.intensity (AudioAnalysis.analyzeAudio Samples.halfDraws)
  /\ EmotionAnalysis.confidence (AudioAnalysis.analyzeAudio Samples.halfDraws) = 6 # 10.
Proof.
  assert (H : forall n, 0 <= Samples.halfDraws n < 1)
    by (intro n; split; vm_compute; [discriminate | reflexivity]).
  split; apply (mock_audio_ranges Samples.halfDraws H).
Defined.

Section EntryPipeline.

Import JsNum EmotionAnalysis AudioAnalysis.
Local Open Scope string_scope.

Variable tokenize : string -> list string.
Variable sentimentScore : string -> Q.
Variable callProvider : provider -> string -> reply.
Variable random : nat -> Q.

Local Abbreviation entry := (analyseEntry tokenize sentimentScore callProvider random).
Local Abbreviation lexicon := (analyzeTextWithKeywords tokenize sentimentScore).

Ltac entry_cases :=
  repeat split;
  try discriminate;
  try (intros; reflexivity);
  try (intros [? ?]; discriminate);
  try (intros [[? ?] | [? ?]]; discriminate);
  try (intros; eexists; reflexivity);
  try (intros; left; split; reflexivity);
  try (intros; right; split; reflexivity);
  try (exfalso;
       match goal with
       | H : exists _, _ |- _ => destruct H as [? H]; discriminate H
       | H : _ /\ _ |- _ => destruct H; discriminate
       | H : _ \/ _ |- _ => destruct H as [[? ?] | [? ?]]; discriminate
       | H : _ = _ |- _ => discriminate H
       end).

(** X5.  The entry handler answers 400 exactly when there is neither a
    (truthy) transcript nor an audio file, fails with 500 exactly when the
    transcript is truthy but not a string, and stores an analysis in every
    other case. *)
Theorem entry_analysis_outcomes (startEnv env : Env) (transcript : input)
  (audioFile : bool) :
  (entry startEnv env transcript audioFile = BadRequest
   <-> truthy transcript = false /\ audioFile = false)
  /\ ((exists message, entry startEnv env transcript audioFile = ServerError message)
      <-> truthy transcript = true /\ isString transcript = false)
  /\ ((exists r, entry startEnv env transcript audioFile = Analysed r)
      <-> (truthy transcript = true /\ isString transcript = true)
          \/ (truthy transcript = false /\ audioFile = true)).
Proof.
  unfold analyseEntry.
  destruct transcript as [| | b | q | s |]; cbn [truthy isString negb andb].
  - destruct audioFile; cbn [negb andb]; entry_cases.
  - destruct audioFile; cbn [negb andb]; entry_cases.
  - destruct b, audioFile; cbn [negb andb]; entry_cases.
  - destruct (Qeq_bool q 0), audioFile; cbn [negb andb]; entry_cases.
  - destruct (String.eqb_spec s "") as [E|E]; cbn [negb andb].
    + destruct audioFile; cbn [negb andb]; entry_cases.
    + rewrite (classify_string tokenize sentimentScore callProvider startEnv env s E).
      destruct audioFile; entry_cases.
  - destruct audioFile; cbn [negb andb]; entry_cases.
Qed.

(** X6.  In keyword mode, when the transcript contains a keyword and an
    audio file is attached, the stored emotion is always the one found in the
    text, whatever the mock audio classifier drew, and the stored confidence
    lies between 0.6 and 0.95. *)
Theorem keyword_text_prevails_over_audio (startEnv env : Env) (s : string) :
  useAI startEnv = false ->
  s <> "" ->
  (0 < totalMatchesOf s)%nat ->
  exists r,
    entry startEnv env (InString s) true = Analysed r
    /\ emotion r = emotion (lexicon s)
    /\ 6 # 10 <= confidence r <= 95 # 100.
Proof.
  intros Hmode Hs Hpos. unfold analyseEntry. cbn [truthy negb andb].
  destruct (String.eqb_spec s "") as [E|_]; [contradiction|]. cbn [negb andb].
  rewrite (classify_string tokenize sentimentScore callProvider startEnv env s Hs).
  rewrite Hmode. eexists. split; [reflexivity|].
  destruct (lexicon_confidence_tiers tokenize sentimentScore s) as [Htier _].
  specialize (Htier Hpos). destruct Htier as [Hlo Hhi].
  set (t := lexicon s) in *. set (a := analyzeAudio random).
  assert (Ha : confidence a = 6 # 10) by reflexivity.
  assert (Hlt : Qlt_bool (confidence t) (confidence a) = false).
  { apply Qlt_bool_false_iff. rewrite Ha. lra. }
  unfold fuseEmotionResults, finalEmotion.
  cbn [emotion confidence]. rewrite Hlt.
  split; [now destruct (emotionsMatch t a)|].
  destruct (finalConfidence_close t a) as [C1 C2]; [lra | rewrite Ha; lra |].
  pose proof (weightedAverage_eq (confidence t) (confidence a)) as W.
  assert (Ha' : confidence a == 6 # 10) by (rewrite Ha; reflexivity).
  set (w := Spec.weightedAverage (confidence t) (confidence a)) in *.
  apply (toFixed_within (6 # 10) (95 # 100) (6 # 10) (951 # 1000));
    [reflexivity | reflexivity |].
  destruct (emotionsMatch t a).
  - destruct (Q.min_spec (w * (12 # 10)) (95 # 100)) as [[L K] | [L K]];
      rewrite K in C1, C2; lra.
  - lra.
Qed.

End EntryPipeline.

Lemma keyword_text_prevails_over_audio_witness :
  exists r,
    AudioAnalysis.analyseEntry Samples.wordTokens Samples.lexiconScore
      Samples.timedOutProvider Samples.halfDraws Samples.noKeys Samples.noKeys
      (EmotionAnalysis.InString "I feel wonderful and happy today") true
    = AudioAnalysis.Analysed r
    /\ EmotionAnalysis.emotion r
       = EmotionAnalysis.emotion
           (EmotionAnalysis.analyzeTextWithKeywords Samples.wordTokens
              Samples.lexiconScore "I feel wonderful and happy today")
    /\ 6 # 10 <= EmotionAnalysis.confidence r <= 95 # 100.
Proof.
  apply (keyword_text_prevails_over_audio Samples.wordTokens Samples.lexiconScore
           Samples.timedOutProvider Samples.halfDraws Samples.noKeys Samples.noKeys
           "I feel wonderful and happy today").
  - reflexivity.
  - discriminate.
  - apply Nat.ltb_lt. reflexivity.
Defined.

(** ** Session aggregation: ranges, order and counts *)

Lemma turn_unitIntensity (label : string) (i : Q) :
  0 <= Samples.double i <= 1 -> Spec.unitIntensity (Samples.turn label i).
Proof. intros H j E. apply turn_intensity in E. now rewrite <- E. Qed.

Lemma wellness_score_range_witness :
  (25 <= SessionCompletion.calculateWellnessScore (Some Samples.mostlyHappy) <= 90)%Z.
Proof.
  apply (wellness_score_range Samples.mostlyHappy).
  - cbn. lia.
  - repeat constructor.
  - repeat (apply Forall_cons;
            [apply turn_unitIntensity; split; vm_compute; discriminate|]).
    apply Forall_nil.
Defined.

Lemma wellness_score_order_within_one_witness :
  (Z.abs (SessionCompletion.calculateWellnessScore (Some Samples.nearTie)
          - SessionCompletion.calculateWellnessScore (Some Samples.nearTieReordered))
   <= 1)%Z.
Proof.
  apply (wellness_score_order_within_one Samples.nearTie Samples.nearTieReordered).
  - unfold Samples.nearTie, Samples.nearTieReordered.
    apply perm_skip. apply perm_swap.
  - cbn. lia.
  - repeat constructor.
  - repeat (apply Forall_cons;
            [apply turn_unitIntensity; split; vm_compute; discriminate|]).
    apply Forall_nil.
Defined.

(** The two orders do differ: the exact average of these turns is 57.5,
    the doubles of the first order add up to a little less and those of the
    second to 57.5. *)
Example wellness_depends_on_order :
  SessionCompletion.calculateWellnessScore (Some Samples.nearTie) = 57%Z
  /\ SessionCompletion.calculateWellnessScore (Some Samples.nearTieReordered) = 58%Z.
Proof. split; vm_compute; reflexivity. Qed.

(** An anxious turn of intensity 0.34 has the exact value 51.5; its doubles
    give a little less, and the score is 51. *)
Example wellness_below_a_tie :
  SessionCompletion.calculateWellnessScore
    (Some [Samples.turn "anxious" (34 # 100)]) = 51%Z.
Proof. vm_compute. reflexivity. Qed.

Section EmotionCounts.

Import Spec SessionCompletion.
Local Open Scope string_scope.

Lemma increment_totalCount (key : string) (counts : list (string * nat)) :
  totalCount (increment key counts) = S (totalCount counts).
Proof.
  induction counts as [|[k n] rest IH]; cbn [increment].
  - reflexivity.
  - destruct (String.eqb k key).
    + unfold totalCount. cbn [fold_right snd]. lia.
    + change (totalCount ((k, n) :: increment key rest))
        with (n + totalCount (increment key rest))%nat.
      rewrite IH. unfold totalCount. cbn [fold_right snd]. lia.
Qed.

Lemma countEmotions_totalCount (history : list QA) :
  totalCount (countEmotions history) = List.length history.
Proof.
  induction history as [|qa history IH] using rev_ind; [reflexivity|].
  rewrite countEmotions_snoc, increment_totalCount, IH, length_app.
  cbn [List.length]. lia.
Qed.

Lemma countOf_listed (k : string) (n : nat) (counts : list (string * nat)) :
  NoDup (map fst counts) -> In (k, n) counts -> countOf k counts = n.
Proof.
  induction counts as [|[k0 n0] rest IH]; cbn [map fst In countOf]; [tauto|].
  intros Hnd [E | Hin].
  - injection E as -> ->. now rewrite String.eqb_refl.
  - inversion Hnd as [|? ? Hnot Hnd']; subst.
    destruct (String.eqb_spec k0 k) as [->|_].
    + exfalso. apply Hnot. now apply (in_map fst) in Hin.
    + now apply IH.
Qed.

(** X9.  In every report of [generateSessionCompletion] the emotion counts
    list each label of the session exactly once, give each label the number
    of turns that carry it (at least one), and add up to the number of
    turns. *)
Theorem emotion_counts_account_for_every_turn (history : list QA) (report : SessionReport) :
  Forall plainEntry history ->
  generateSessionCompletion (Some history) = Returned report ->
  NoDup (map fst (emotionCounts report))
  /\ (forall label, In label (map fst (emotionCounts report))
                    <-> In label (labels history))
  /\ (forall label n, In (label, n) (emotionCounts report) ->
                      n = occurrences label (labels history) /\ (1 <= n)%nat)
  /\ totalCount (emotionCounts report) = List.length history.
Proof.
  intros _ H.
  assert (E : emotionCounts report = countEmotions history).
  { unfold generateSessionCompletion in H.
    destruct (reduceDominant (countEmotions history)); [|discriminate].
    injection H as <-. reflexivity. }
  rewrite E. split; [apply keys_NoDup|]. split; [intro; apply keys_In|].
  split; [|apply countEmotions_totalCount].
  intros label n Hin.
  assert (Hn : n = occurrences label (labels history)).
  { rewrite <- countOf_countEmotions. symmetry.
    apply countOf_listed; [apply keys_NoDup | assumption]. }
  split; [assumption|].
  apply (in_map fst) in Hin. apply keys_In in Hin. cbn [fst] in Hin.
  rewrite Hn. unfold occurrences.
  apply (count_occ_In string_dec) in Hin. lia.
Qed.

(** X10.  A label that occurs in strictly more turns than every other label
    of the session is the dominant emotion, wherever its turns stand. *)
Theorem strict_majority_is_dominant (history : list QA) (label : string) :
  Forall plainEntry history ->
  In label (labels history) ->
  (forall other, In other (labels history) -> other <> label ->
                 (occurrences other (labels history)
                  < occurrences label (labels history))%nat) ->
  exists report,
    generateSessionCompletion (Some history) = Returned report
    /\ dominantEmotion report = label.
Proof.
  intros _ Hin Hmaj.
  assert (Hne : history <> []) by (intros ->; exact Hin).
  destruct (generateSessionCompletion_nonempty history Hne) as (first & others & EK & E).
  eexists. split; [exact E|]. cbn [dominantEmotion].
  pose proof (keys_NoDup history) as Hnd. rewrite EK in Hnd.
  destruct (reduce_last_maximum (fun k => countOf k (countEmotions history))
                                first others Hnd) as (Hd & Hmax & _).
  cbv beta zeta in Hd, Hmax.
  set (d := fold_left _ others first) in *.
  rewrite <- EK in Hd, Hmax.
  destruct (string_dec d label) as [->|Hneq]; [reflexivity|].
  exfalso.
  specialize (Hmax label (proj2 (keys_In label history) Hin)).
  rewrite !countOf_countEmotions in Hmax.
  specialize (Hmaj d (proj1 (keys_In d history) Hd) Hneq). lia.
Qed.

End EmotionCounts.

Lemma emotion_counts_account_for_every_turn_witness :
  Spec.totalCount [("happy"%string, 2%nat); ("sad"%string, 1%nat)]
  = List.length Samples.mostlyHappy.
Proof.
  apply (emotion_counts_account_for_every_turn Samples.mostlyHappy
           {| SessionCompletion.wellnessScore := 69%Z;
              SessionCompletion.dominantEmotion := "happy"%string;
              SessionCompletion.emotionCounts :=
                [("happy"%string, 2%nat); ("sad"%string, 1%nat)] |}).
  - repeat constructor.
  - vm_compute. reflexivity.
Defined.

Lemma strict_majority_is_dominant_witness :
  exists report,
    SessionCompletion.generateSessionCompletion (Some Samples.mostlyHappy)
    = Returned report
    /\ SessionCompletion.dominantEmotion report = "happy"%string.
Proof.
  apply (strict_majority_is_dominant Samples.mostlyHappy "happy"%string).
  - repeat constructor.
  - now left.
  - intros other Hin H. vm_compute in Hin.
    destruct Hin as [<- | [<- | [<- | []]]].
    + exfalso. apply H. reflexivity.
    + exfalso. apply H. reflexivity.
    + apply Nat.ltb_lt. reflexivity.
Defined.

Lemma lexicon_confidence_tiers_witness :
  8 # 10
  <= EmotionAnalysis.confidence
       (EmotionAnalysis.analyzeTextWithKeywords Samples.wordTokens Samples.lexiconScore
          "I feel wonderful and happy today")
  <= 9 # 10.
Proof.
  apply (proj1 (lexicon_confidence_tiers Samples.wordTokens Samples.lexiconScore
                  "I feel wonderful and happy today")).
  apply Nat.ltb_lt. reflexivity.
Defined.

Lemma lexicon_primary_is_first_maximum_witness :
  exists label count pre post,
    EmotionAnalysis.emotion
      (EmotionAnalysis.analyzeTextWithKeywords Samples.wordTokens Samples.lexiconScore
         "calm but worried")
    = Some (JStr label)
    /\ EmotionAnalysis.emotionScoresOf "calm but worried"
       = (pre ++ (label, count) :: post)%list
    /\ (forall e, In e pre -> (snd e < count)%nat)
    /\ (forall e, In e post -> (snd e <= count)%nat).
Proof.
  apply (lexicon_primary_is_first_maximum Samples.wordTokens Samples.lexiconScore
           "calm but worried").
  apply Nat.ltb_lt. reflexivity.
Defined.

(** One match each for anxious and calm: anxious, declared first, wins. *)
Example lexicon_tie_keeps_first_declared :
  EmotionAnalysis.emotionScoresOf "calm but worried"
  = [("happy"%string, 0%nat); ("sad"%string, 0%nat); ("angry"%string, 0%nat);
     ("anxious"%string, 1%nat); ("calm"%string, 1%nat); ("neutral"%string, 0%nat)]
  /\ EmotionAnalysis.emotion
       (EmotionAnalysis.analyzeTextWithKeywords Samples.wordTokens Samples.lexiconScore
          "calm but worried")
     = Some (JStr "anxious").
Proof. split; reflexivity. Qed.

(** ** Session report: recommendations, suggestions and messages *)

Section ReportDetails.

Import SessionCompletion SessionDetails.
Local Open Scope string_scope.

Lemma isOneOf_two (a b label : string) :
  isOneOf [a; b] label = true <-> label = a \/ label = b.
Proof.
  unfold isOneOf. cbn [existsb]. rewrite orb_false_r, orb_true_iff, !String.eqb_eq.
  tauto.
Qed.

(** X11.  The daily and weekly buckets always hold two entries each; the
    immediate bucket holds two entries when the dominant emotion is anxious,
    stressed, sad or angry and none otherwise; the professional bucket holds
    two urgent entries when the score is below 40, one entry that is not
    urgent when it is from 40 to 59, and nothing from 60 on. *)
Theorem recommendation_buckets (wellnessScore : Z) (dominantEmotion : string) :
  let r := generateRecommendations wellnessScore dominantEmotion in
  List.length (daily r) = 2%nat
  /\ List.length (weekly r) = 2%nat
  /\ List.length (immediate r)
     = (if isOneOf ["anxious"; "stressed"; "sad"; "angry"] dominantEmotion
        then 2%nat else 0%nat)
  /\ ((wellnessScore < 40)%Z ->
      map urgent (professional r) = [Some true; Some true])
  /\ ((40 <= wellnessScore < 60)%Z -> map urgent (professional r) = [Some false])
  /\ ((60 <= wellnessScore)%Z -> professional r = []).
Proof.
  cbv zeta. unfold generateRecommendations. cbn [daily weekly immediate professional].
  split; [reflexivity|]. split; [reflexivity|]. split.
  - unfold isOneOf. cbn [existsb]. rewrite !orb_false_r.
    destruct (String.eqb_spec dominantEmotion "anxious") as [->|_]; [reflexivity|].
    destruct (String.eqb_spec dominantEmotion "stressed") as [->|_]; [reflexivity|].
    destruct (String.eqb_spec dominantEmotion "sad") as [->|_]; [reflexivity|].
    destruct (String.eqb_spec dominantEmotion "angry") as [->|_]; reflexivity.
  - split; [|split]; intro H.
    + destruct (Z.ltb_spec wellnessScore 40); [reflexivity | lia].
    + destruct (Z.ltb_spec wellnessScore 40); [lia|].
      destruct (Z.ltb_spec wellnessScore 60); [reflexivity | lia].
    + destruct (Z.ltb_spec wellnessScore 40); [lia|].
      destruct (Z.ltb_spec wellnessScore 60); [lia | reflexivity].
Qed.

Lemma recommendation_buckets_witness :
  map urgent (professional (generateRecommendations 35 "sad")) = [Some true; Some true].
Proof.
  apply (recommendation_buckets 35 "sad"). lia.
Defined.





End ReportDetails.

Section Communities.

Import SessionDetails.
Local Open Scope string_scope.

Lemma chars_append (a b : string) :
  JsString.chars (a ++ b) = (JsString.chars a ++ JsString.chars b)%list.
Proof.
  unfold JsString.chars. induction a as [|c a IH]; cbn; [reflexivity|].
  now rewrite IH.
Qed.

Lemma startsWith_app (sub s post : list ascii) :
  startsWith sub s = true -> startsWith sub (s ++ post) = true.
Proof.
  revert s. induction sub as [|c sub IH]; intros s H; [reflexivity|].
  destruct s as [|d s]; [discriminate|]. cbn [startsWith app] in *.
  apply andb_true_iff in H. destruct H as [H1 H2].
  now rewrite H1, IH.
Qed.

Lemma includesFrom_unfold (sub s : list ascii) :
  includesFrom sub s
  = startsWith sub s
    || match s with
       | [] => false
       | _ :: rest => includesFrom sub rest
       end.
Proof. destruct s; reflexivity. Qed.

Lemma includesFrom_app_r (sub s post : list ascii) :
  includesFrom sub s = true -> includesFrom sub (s ++ post) = true.
Proof.
  induction s as [|d s IH]; intro H; rewrite includesFrom_unfold in H;
    apply orb_true_iff in H; rewrite includesFrom_unfold; apply orb_true_iff.
  - destruct H as [H|H]; [|discriminate]. left. now apply startsWith_app.
  - destruct H as [H|H]; [left; now apply startsWith_app|].
    right. cbn [app]. now apply IH.
Qed.

Lemma includesFrom_app_l (sub pre s : list ascii) :
  includesFrom sub s = true -> includesFrom sub (pre ++ s) = true.
Proof.
  intro H. induction pre as [|d pre IH]; [exact H|].
  cbn [app]. rewrite includesFrom_unfold. apply orb_true_iff. right. exact IH.
Qed.

Lemma includes_joined (strings : list string) (a sub : string) :
  In a strings -> includes a sub = true -> includes (joinSpace strings) sub = true.
Proof.
  unfold includes. intros Hin H.
  induction strings as [|s rest IH]; [destruct Hin|].
  destruct rest as [|s' rest'].
  - destruct Hin as [<- | []]. exact H.
  - change (joinSpace (s :: s' :: rest')) with (s ++ " " ++ joinSpace (s' :: rest')).
    rewrite !chars_append. destruct Hin as [<- | Hin].
    + now apply includesFrom_app_r.
    + apply includesFrom_app_l, includesFrom_app_l. now apply IH.
Qed.

(** X13.  [suggestCommunities] always ends with the two general groups
    (awareness and volunteering), preceded by at most four others, so it
    returns between two and six suggestions.  Topics are found as substrings
    of the lower-cased answers: an answer that contains "work", "career" or
    "job" anywhere, even inside a longer word, brings in the professional
    support group. *)
Theorem community_suggestions (answers : list string) (dominantEmotion : string) :
  (exists front,
      suggestCommunities answers dominantEmotion
      = (front ++ [awarenessGroups; volunteerOrganizations])%list
      /\ (List.length front <= 4)%nat)
  /\ (forall a topic,
         In a answers -> In topic ["work"; "career"; "job"] ->
         includes (JsString.toLowerCase a) topic = true ->
         In professionalGroups (suggestCommunities answers dominantEmotion)).
Proof.
  unfold suggestCommunities.
  set (transcript := joinSpace (map JsString.toLowerCase answers)).
  split.
  - eexists. split.
    + rewrite !app_assoc. reflexivity.
    + rewrite !length_app.
      assert (Hex : isOneOf ["anxious"; "stressed"] dominantEmotion = true ->
                    String.eqb dominantEmotion "sad" = false).
      { intro H. apply isOneOf_two in H. destruct H as [-> | ->]; reflexivity. }
      destruct (includes transcript "work" || includes transcript "career"
                || includes transcript "job");
        destruct (includes transcript "family" || includes transcript "relationship");
        destruct (includes transcript "creative" || includes transcript "art"
                  || includes transcript "music");
        destruct (isOneOf ["anxious"; "stressed"] dominantEmotion);
        try rewrite (Hex eq_refl);
        destruct (String.eqb dominantEmotion "sad"); cbn [List.length]; lia.
  - intros a topic Ha Htopic Hinc.
    assert (Hj : includes transcript topic = true).
    { apply (includes_joined _ (JsString.toLowerCase a)); [|assumption].
      now apply in_map. }
    assert (Hany : includes transcript "work" || includes transcript "career"
                   || includes transcript "job" = true).
    { destruct Htopic as [<- | [<- | [<- | []]]]; rewrite Hj;
        rewrite ?orb_true_r; reflexivity. }
    rewrite Hany. apply in_or_app. left. now left.
Qed.

Lemma community_suggestions_witness :
  In professionalGroups (suggestCommunities ["My HOMEWORK piles up"; "ok"] "calm").
Proof.
  apply (proj2 (community_suggestions ["My HOMEWORK piles up"; "ok"] "calm")
               "My HOMEWORK piles up" "work").
  - now left.
  - now left.
  - reflexivity.
Defined.

End Communities.

Section ReportTiers.

Import SessionCompletion SessionDetails.
Local Open Scope string_scope.



End ReportTiers.


(** ** Sorting by score *)

Section SortingProperties.

Import JsNum JsArray.

Context {A : Type}.
Variable score : A -> Q.

Local Abbreviation descending := (Spec.descending score).

Lemma firstn_In (n : nat) (l : list A) (x : A) : In x (firstn n l) -> In x l.
Proof.
  intro H. rewrite <- (firstn_skipn n l). apply in_or_app. now left.
Qed.

Lemma skipn_In (n : nat) (l : list A) (x : A) : In x (skipn n l) -> In x l.
Proof.
  intro H. rewrite <- (firstn_skipn n l). apply in_or_app. now right.
Qed.

Lemma insertDescending_perm (x : A) (l : list A) :
  Permutation (insertDescending score x l) (x :: l).
Proof.
  induction l as [|y l IH]; cbn [insertDescending]; [reflexivity|].
  destruct (Qlt_bool (score x) (score y)); [|reflexivity].
  rewrite IH. apply perm_swap.
Qed.

Lemma sortDescending_perm (l : list A) : Permutation (sortDescending score l) l.
Proof.
  induction l as [|x l IH]; cbn [sortDescending fold_right]; [reflexivity|].
  fold (sortDescending score l). rewrite insertDescending_perm. now constructor.
Qed.

Lemma insertDescending_sorted (x : A) (l : list A) :
  descending l -> descending (insertDescending score x l).
Proof.
  unfold Spec.descending. induction l as [|y l IH]; intro H; cbn [insertDescending].
  - repeat constructor.
  - inversion H as [|? ? Hs Hall]; subst.
    destruct (Qlt_bool (score x) (score y)) eqn:E.
    + apply Qlt_bool_iff in E. constructor; [now apply IH|].
      rewrite Forall_forall in *. intros z Hz.
      apply (Permutation_in _ (insertDescending_perm x l)) in Hz.
      destruct Hz as [<- | Hz]; [now apply Qlt_le_weak | now apply Hall].
    + apply Qlt_bool_false_iff in E. constructor; [assumption|].
      constructor; [assumption|].
      rewrite Forall_forall in *. intros z Hz.
      apply Qle_trans with (score y); [now apply Hall | assumption].
Qed.

Lemma sortDescending_sorted (l : list A) : descending (sortDescending score l).
Proof.
  induction l as [|x l IH]; cbn [sortDescending fold_right]; [constructor|].
  fold (sortDescending score l). now apply insertDescending_sorted.
Qed.

Lemma descending_split (n : nat) (l : list A) :
  descending l ->
  descending (firstn n l)
  /\ (forall x y, In x (firstn n l) -> In y (skipn n l) -> score y <= score x).
Proof.
  unfold Spec.descending. revert n. induction l as [|a l IH]; intros n H.
  - rewrite firstn_nil, skipn_nil. split; [constructor | intros x y []].
  - destruct n as [|n]; [split; [constructor | intros x y []]|].
    inversion H as [|? ? Hs Hall]; subst. rewrite Forall_forall in Hall.
    destruct (IH n Hs) as [IH1 IH2]. cbn [firstn skipn]. split.
    + constructor; [assumption|]. rewrite Forall_forall.
      intros z Hz. apply Hall. eapply firstn_In. exact Hz.
    + intros x y [<- | Hx] Hy; [|now apply IH2].
      apply Hall. eapply skipn_In. exact Hy.
Qed.

End SortingProperties.

(** ** Friend matching: the ranked lists *)

Section RankedMatches.

Import JsNum JsArray FriendMatching Matching.
Local Open Scope string_scope.

Variable cosine : list Q -> list Q -> option Q.

Lemma sorted_In {A : Type} (score : A -> Q) (l : list A) (x : A) :
  In x (sortDescending score l) <-> In x l.
Proof.
  split; intro H.
  - apply (Permutation_in _ (sortDescending_perm score l)). exact H.
  - apply (Permutation_in _ (Permutation_sym (sortDescending_perm score l))). exact H.
Qed.

(** X18.  For potential friends whose identifiers are ordinary keys,
    [findMatches] returns at most ten matches, in descending order of score.
    Each is the match computed for one of the potential friends other than
    the target user, and a potential friend who is left out scores no higher
    than any match returned. *)
Theorem find_matches_sorted_top_ten (targetUser : Friend) (potentialFriends : list Friend)
  (targetUserEntries : list Entry) (allUserEntries : list (string * list Entry)) :
  Forall (fun friend => plainLabel (friend_id friend) = true) potentialFriends ->
  let result := findMatches cosine targetUser potentialFriends targetUserEntries
                            allUserEntries in
  let matchFor := matchOf cosine targetUser targetUserEntries allUserEntries in
  (List.length result <= 10)%nat
  /\ Spec.descending match_score result
  /\ (forall m, In m result ->
                In (match_user m) potentialFriends
                /\ friend_id (match_user m) <> friend_id targetUser
                /\ m = matchFor (match_user m))
  /\ (forall friend, In friend potentialFriends ->
                     friend_id friend <> friend_id targetUser ->
                     ~ In (matchFor friend) result ->
                     forall m, In m result ->
                               match_score (matchFor friend) <= match_score m).
Proof.
  intros _ result matchFor. subst result. unfold findMatches. fold matchFor.
  set (candidates := filter _ potentialFriends).
  set (sorted := sortDescending match_score (map matchFor candidates)).
  assert (Hsorted : Spec.descending match_score sorted) by apply sortDescending_sorted.
  destruct (descending_split match_score 10 sorted Hsorted) as [Hfirst Hrest].
  split; [apply firstn_le_length|]. split; [exact Hfirst|]. split.
  - intros m Hm. apply firstn_In in Hm. apply sorted_In in Hm.
    apply in_map_iff in Hm. destruct Hm as (friend & <- & Hf).
    apply filter_In in Hf. destruct Hf as [Hin Hid].
    apply negb_true_iff, String.eqb_neq in Hid.
    split; [exact Hin|]. split; [exact Hid | reflexivity].
  - intros friend Hin Hid Hout m Hm.
    assert (Hc : In friend candidates).
    { apply filter_In. split; [exact Hin|].
      now apply negb_true_iff, String.eqb_neq. }
    assert (Hs : In (matchFor friend) sorted) by (apply sorted_In; now apply in_map).
    rewrite <- (firstn_skipn 10 sorted) in Hs. apply in_app_iff in Hs.
    destruct Hs as [Hs | Hs]; [contradiction|]. now apply Hrest.
Qed.

(** X19.  The compatibility level follows the score by the thresholds 0.8,
    0.6, 0.4 and 0.2, each included in the higher level. *)
Theorem compatibility_levels (score : Q) :
  (getCompatibilityLevel score = Excellent <-> 8 # 10 <= score)
  /\ (getCompatibilityLevel score = Great <-> 6 # 10 <= score < 8 # 10)
  /\ (getCompatibilityLevel score = Good <-> 4 # 10 <= score < 6 # 10)
  /\ (getCompatibilityLevel score = Fair <-> 2 # 10 <= score < 4 # 10)
  /\ (getCompatibilityLevel score = Limited <-> score < 2 # 10).
Proof.
  unfold getCompatibilityLevel.
  destruct (Qle_bool (8 # 10) score) eqn:E8;
    [apply Qle_bool_iff in E8
    |assert (H8 : score < 8 # 10)
       by (apply Qnot_le_lt; intro K; apply Qle_bool_iff in K; congruence)].
  { repeat split; intros; try discriminate; try assumption; try reflexivity;
      exfalso; lra. }
  destruct (Qle_bool (6 # 10) score) eqn:E6;
    [apply Qle_bool_iff in E6
    |assert (H6 : score < 6 # 10)
       by (apply Qnot_le_lt; intro K; apply Qle_bool_iff in K; congruence)].
  { repeat split; intros; try discriminate; try assumption; try reflexivity;
      exfalso; lra. }
  destruct (Qle_bool (4 # 10) score) eqn:E4;
    [apply Qle_bool_iff in E4
    |assert (H4 : score < 4 # 10)
       by (apply Qnot_le_lt; intro K; apply Qle_bool_iff in K; congruence)].
  { repeat split; intros; try discriminate; try assumption; try reflexivity;
      exfalso; lra. }
  destruct (Qle_bool (2 # 10) score) eqn:E2;
    [apply Qle_bool_iff in E2
    |assert (H2 : score < 2 # 10)
       by (apply Qnot_le_lt; intro K; apply Qle_bool_iff in K; congruence)].
  { repeat split; intros; try discriminate; try assumption; try reflexivity;
      exfalso; lra. }
  repeat split; intros; try discriminate; try assumption; try reflexivity;
    exfalso; lra.
Qed.

End RankedMatches.

Section Recommendations.

Import JsNum JsArray LocalStore.
Local Open Scope string_scope.

(** X20.  For a known user and a non-negative limit,
    [getFriendRecommendations] returns at most [limit] recommendations, in
    descending order of match score; each stands for another user who is not
    yet connected with the user in either direction and carries the score of
    [calculateMatchScore] for the pair, at most 0.825.  For an unknown user
    the list is empty. *)
Theorem friend_recommendations_ranked (db : Store) (userId : string) (limit : Z) :
  (0 <= limit)%Z ->
  let result := getFriendRecommendations db userId limit in
  (findUserById db userId = None -> result = [])
  /\ (forall user, findUserById db userId = Some user ->
        (Z.of_nat (List.length result) <= limit)%Z
        /\ Spec.descending rec_match_score result
        /\ (forall r, In r result ->
              rec_match_score r <= 825 # 1000
              /\ exists otherUser,
                   In otherUser (users db)
                   /\ account_id otherUser <> userId
                   /\ connected db userId (account_id otherUser) = false
                   /\ rec_user_id r = account_id otherUser
                   /\ rec_match_score r
                      = LocalDatabase.calculateMatchScore (account_profile user)
                                                          (account_profile otherUser))).
Proof.
  intros Hlimit result. subst result. unfold getFriendRecommendations.
  split; [intros ->; reflexivity|].
  intros user ->. unfold sliceTo.
  destruct (Z.ltb_spec limit 0) as [Hneg|_]; [lia|].
  set (others := filter _ (users db)).
  set (recommendations := map _ others).
  set (sorted := sortDescending rec_match_score recommendations).
  assert (Hsorted : Spec.descending rec_match_score sorted) by apply sortDescending_sorted.
  destruct (descending_split rec_match_score (Z.to_nat limit) sorted Hsorted)
    as [Hfirst _].
  split; [pose proof (firstn_le_length (Z.to_nat limit) sorted); lia|].
  split; [exact Hfirst|].
  intros r Hr. apply firstn_In in Hr.
  apply (Permutation_in _ (sortDescending_perm rec_match_score recommendations)) in Hr.
  apply in_map_iff in Hr. destruct Hr as (otherUser & <- & Ho).
  apply filter_In in Ho. destruct Ho as [Hin Hcond].
  apply andb_true_iff in Hcond. destruct Hcond as [Hid Hconn].
  apply negb_true_iff in Hid, Hconn. apply String.eqb_neq in Hid.
  cbn [rec_match_score rec_user_id].
  split; [apply localDatabase_bound|].
  exists otherUser. repeat split; assumption.
Qed.

End Recommendations.

Section RankedExamples.

Import FriendMatching Matching LocalStore Samples.
Local Open Scope string_scope.

Lemma find_matches_sorted_top_ten_witness :
  (List.length (findMatches destructuredCosine friendAda
                            [friendAda; friendBen; friendCyd] adaEntries
                            [("u2", benEntries)]) <= 10)%nat
  /\ Spec.descending match_score
       (findMatches destructuredCosine friendAda
                    [friendAda; friendBen; friendCyd] adaEntries
                    [("u2", benEntries)]).
Proof.
  destruct (find_matches_sorted_top_ten destructuredCosine friendAda
              [friendAda; friendBen; friendCyd] adaEntries [("u2", benEntries)])
    as (H1 & H2 & _).
  - repeat constructor.
  - split; [exact H1 | exact H2].
Defined.

(** Ben, who lives in the same city, is ranked before Cyd, who gives no
    city; Ada herself is left out. *)
Example matches_of_ada :
  map (fun m => (friend_id (match_user m), match_score m, match_compatibility m))
      (findMatches destructuredCosine friendAda [friendAda; friendCyd; friendBen]
                   adaEntries [("u2", benEntries)])
  = [("u2", 127 # 200, Great); ("u3", 13 # 50, Fair)].
Proof. vm_compute. reflexivity. Qed.

Lemma compatibility_levels_witness :
  getCompatibilityLevel (127 # 200) = Great.
Proof.
  apply (proj1 (proj2 (compatibility_levels (127 # 200)))).
  split; vm_compute; [discriminate | reflexivity].
Defined.

Lemma friend_recommendations_ranked_witness :
  (Z.of_nat (List.length (getFriendRecommendations smallStore "u1" 5)) <= 5)%Z
  /\ Spec.descending rec_match_score (getFriendRecommendations smallStore "u1" 5).
Proof.
  destruct (friend_recommendations_ranked smallStore "u1" 5) as [_ H]; [lia|].
  destruct (H (mkAccount "u1" "Ada" ada) eq_refl) as (H1 & H2 & _).
  split; [exact H1 | exact H2].
Defined.

(** Cyd is already connected with Ada, so only Ben is recommended. *)
Example recommendations_for_ada :
  map (fun r => (rec_user_id r, rec_match_score r))
      (getFriendRecommendations smallStore "u1" 5)
  = [("u2", 79 # 200)].
Proof. vm_compute. reflexivity. Qed.

End RankedExamples.
